(** * Ingestion pipeline: extraction, chunking, embedding and idempotency

  A shallow embedding of the algorithmic core of the document-ingestion
  pipeline (Python), followed by the properties established about it.

  Conventions of the embedding.
  - Python [str] is [string]; the character-level functions ([lower],
    [split], [in]) are given for the code points Rocq's [ascii] covers.
  - Python [int] is [nat] where the value is a length or a loop index and
    [Z] where it is caller supplied.
  - Python [float] values that the code compares or divides are exact
    rationals ([Q]); the derived results used below (a quotient of two small
    naturals, comparisons against a threshold) do not depend on rounding
    at the inputs exhibited.  Where a rounded quotient is itself the result
    ([get_chunking_summary]) the rounding is an explicit argument.  An
    infinite float is kept apart ([coord]).
  - A [dict] with a fixed set of keys is a [Record]; a key that may be
    absent is an [option] field.
  - External collaborators (splitter library, embedding service, vision and
    extraction stack, search index, blob store, file system) are explicit
    arguments: a record of functions, with the mutable part of the world in
    an explicit state. *)

From Stdlib Require Import ZArith QArith Qreduction Qround String Ascii List Lia.
From Stdlib Require Import Sorting.Sorted Permutation.
From Stdlib Require Import Reals Qreals Lra.
From stdpp Require Import base gmap sets list strings.


(* ====================================================================== *)
(** * Python string primitives                                             *)
(* ====================================================================== *)

Module PyStr.

(** [c.lower()] for one character: the upper-case Latin letters move down
    by 32, everything else is fixed. *)
Definition lower_char (c : ascii) : ascii :=
  let n := nat_of_ascii c in
  if (65 <=? n)%nat && (n <=? 90)%nat then ascii_of_nat (n + 32) else c.

(** [s.lower()] *)
Fixpoint lower (s : string) : string :=
  match s with
  | EmptyString => EmptyString
  | String c s' => String (lower_char c) (lower s')
  end.

(** [c.isspace()]: TAB, LF, VT, FF, CR, the four separators FS..US and
    SPACE. *)
Definition isspace (c : ascii) : bool :=
  let n := nat_of_ascii c in
  ((9 <=? n)%nat && (n <=? 13)%nat)
  || ((28 <=? n)%nat && (n <=? 31)%nat)
  || (n =? 32)%nat.

(** The scanning loop of [s.split()]: [cur] is the word being read. *)
Fixpoint split_from (cur : string) (s : string) : list string :=
  match s with
  | EmptyString => if String.eqb cur "" then [] else [cur]
  | String c s' =>
      if isspace c
      then (if String.eqb cur "" then split_from "" s'
            else cur :: split_from "" s')
      else split_from (cur +:+ String c "") s'
  end.

(** [s.split()] with no argument: maximal runs of non-space characters. *)
Definition split (s : string) : list string := split_from "" s.

(** [sep.join(ws)] *)
Fixpoint join (sep : string) (ws : list string) : string :=
  match ws with
  | [] => ""
  | [w] => w
  | w :: ws' => w +:+ sep +:+ join sep ws'
  end.

(** [h.startswith(n)] *)
Fixpoint startswith (n h : string) : bool :=
  match n, h with
  | EmptyString, _ => true
  | String _ _, EmptyString => false
  | String a n', String b h' => Ascii.eqb a b && startswith n' h'
  end.

(** [n in h]: [n] occurs in [h] as a contiguous substring. *)
Fixpoint contains (n h : string) : bool :=
  startswith n h ||
  match h with
  | EmptyString => false
  | String _ h' => contains n h'
  end.

(** [s.find(n)]: index of the first occurrence, -1 when there is none. *)
Fixpoint find_from (i : Z) (n h : string) : Z :=
  if startswith n h then i
  else match h with
       | EmptyString => (-1)%Z
       | String _ h' => find_from (i + 1)%Z n h'
       end.

Definition find (n h : string) : Z := find_from 0%Z n h.

(** [c.isdigit()] on the decimal digits. *)
Definition isdigit (c : ascii) : bool :=
  let n := nat_of_ascii c in (48 <=? n)%nat && (n <=? 57)%nat.

(** Longest run of digits at the head of [s], with the rest. *)
Fixpoint span_digits (s : string) : list nat * string :=
  match s with
  | String c s' =>
      if isdigit c
      then let '(ds, r) := span_digits s' in ((nat_of_ascii c - 48)%nat :: ds, r)
      else ([], s)
  | EmptyString => ([], s)
  end.

(** [int(digits)] *)
Definition int_of_digits (ds : list nat) : Z :=
  fold_left (fun acc d => (10 * acc + Z.of_nat d)%Z) ds 0%Z.

(** [s[k:]] for [0 <= k]. *)
Fixpoint drop (k : nat) (s : string) : string :=
  match k, s with
  | O, _ => s
  | S k', String _ s' => drop k' s'
  | S _, EmptyString => EmptyString
  end.

(** Decimal rendering of a natural number, for f-strings. *)
Definition digit_char (d : nat) : ascii := ascii_of_nat (48 + d).

Fixpoint str_nat_fuel (fuel n : nat) (acc : string) : string :=
  match fuel with
  | O => acc
  | S fuel' =>
      let acc' := String (digit_char (n mod 10)) acc in
      if (n <? 10)%nat then acc' else str_nat_fuel fuel' (n / 10) acc'
  end.

Definition str_nat (n : nat) : string := str_nat_fuel (S n) n "".

(** [s[:k]] for [0 <= k]. *)
Fixpoint take (k : nat) (s : string) : string :=
  match k, s with
  | S k', String c s' => String c (take k' s')
  | _, _ => EmptyString
  end.

(** [s.rfind(c)] for a single character: index of its last occurrence. *)
Fixpoint rfind_char (c : ascii) (s : string) : option nat :=
  match s with
  | EmptyString => None
  | String a s' =>
      match rfind_char c s' with
      | Some i => Some (S i)
      | None => if Ascii.eqb a c then Some 0 else None
      end
  end.

End PyStr.

(** The newline character and the blank-line separator ["\n\n"]. *)
Definition nl : string := String (ascii_of_nat 10) "".
Definition blank_line : string := nl +:+ nl.

(** Python's [len(s)] as an [int]. *)
Definition len (s : string) : Z := Z.of_nat (String.length s).

(** [enumerate(l)] *)
Definition enumerate {A} (l : list A) : list (nat * A) := imap (fun i x => (i, x)) l.

(** True division [a / b] of two non-negative ints with [b > 0]: the exact
  quotient in lowest terms, so that equal quotients are equal values. *)
Definition true_div (a b : nat) : Q := Qred (Z.of_nat a # Pos.of_nat b).

(** One result of the vision service, as the chunkers read it with
  [analysis.get(key, default)]: an absent key is its default. *)
Record Analysis := mkAnalysis {
success : bool;
image_id : string;
analysis : string;
page_number : Z
}.

(* ====================================================================== *)
(** * pipeline/utils/chunker.py : ContentChunker                           *)
(* ====================================================================== *)

Module ContentChunker.

(** An entry of a chunk's [image_context] list. *)
Record ImageRef := mkImageRef {
  ref_image_id : string;
  ref_analysis : string;
  ref_page_number : Z;
  relevance_score : Q
}.

(** A chunk dictionary as [chunk_text] builds it.  [image_context] and
    [has_images] are only present after [chunk_with_image_context]; the
    other keys are read by subscript and are always there. *)
Record Chunk := mkChunk {
  id : string;
  content : string;
  metadata : gmap string string;
  chunk_index : nat;
  chunk_size : nat;
  start_char : Z;
  end_char : Z;
  image_context : option (list ImageRef);
  has_images : option bool
}.

(** The chunker object: its sizes and the library splitter it wraps.  The
    splitter is the external [RecursiveCharacterTextSplitter]; [None] is a
    call that raises. *)
Record t := mk {
  cfg_chunk_size : Z;
  cfg_chunk_overlap : Z;
  text_splitter : string -> option (list string)
}.

(** [chunk_text]: pieces are numbered from one, in order. *)
Definition chunk_text (self : t) (text_content : string)
           (md : gmap string string) : list Chunk :=
  match text_splitter self text_content with
  | None => []
  | Some chunks =>
      imap (fun i piece =>
              {| id := "chunk_" +:+ PyStr.str_nat (i + 1);
                 content := piece;
                 metadata := md;
                 chunk_index := i + 1;
                 chunk_size := String.length piece;
                 start_char := PyStr.find piece text_content;
                 end_char := (PyStr.find piece text_content + len piece)%Z;
                 image_context := None;
                 has_images := None |}) chunks
  end.

(** [set(s.lower().split())] *)
Definition word_set (s : string) : gset string :=
  list_to_set (PyStr.split (PyStr.lower s)).

(** [_calculate_relevance_score]: Jaccard similarity of the two word sets. *)
Definition _calculate_relevance_score (chunk_content image_analysis : string) : Q :=
  let chunk_words := word_set chunk_content in
  let analysis_words := word_set image_analysis in
  if bool_decide (chunk_words = ∅) || bool_decide (analysis_words = ∅)
  then 0%Q
  else
    let overlap := size (chunk_words ∩ analysis_words) in
    let total := size (chunk_words ∪ analysis_words) in
    if (0 <? total)%nat then true_div overlap total else 0%Q.

(** [list.sort(key=score, reverse=True)]: a stable sort, largest score
    first; entries of equal score keep their order. *)
Fixpoint insert_desc (x : ImageRef) (l : list ImageRef) : list ImageRef :=
  match l with
  | [] => [x]
  | y :: l' =>
      if Qle_bool (relevance_score y) (relevance_score x)
      then x :: y :: l'
      else y :: insert_desc x l'
  end.

Fixpoint sort_desc (l : list ImageRef) : list ImageRef :=
  match l with
  | [] => []
  | x :: l' => insert_desc x (sort_desc l')
  end.

(** The test that lets an analysis into a chunk's context: the image id
    occurs in the chunk, or one of the first ten words of the analysis
    does. *)
Definition mentions (chunk_content : string) (a : Analysis) : bool :=
  PyStr.contains (PyStr.lower (image_id a)) chunk_content
  || existsb (fun word => PyStr.contains word chunk_content)
             (firstn 10 (PyStr.split (PyStr.lower (analysis a)))).

(** The loop of [_get_chunk_image_context], before sorting. *)
Fixpoint relevant_images (chunk_content : string) (image_analyses : list Analysis)
  : list ImageRef :=
  match image_analyses with
  | [] => []
  | a :: rest =>
      if negb (success a) then relevant_images chunk_content rest
      else if mentions chunk_content a
      then {| ref_image_id := image_id a;
              ref_analysis := analysis a;
              ref_page_number := page_number a;
              relevance_score :=
                _calculate_relevance_score chunk_content (analysis a) |}
             :: relevant_images chunk_content rest
      else relevant_images chunk_content rest
  end.

Definition _get_chunk_image_context (chunk : Chunk) (image_analyses : list Analysis)
  : list ImageRef :=
  let chunk_content := PyStr.lower (content chunk) in
  sort_desc (relevant_images chunk_content image_analyses).

(** The body of the merge branch of [merge_small_chunks]. *)
Definition absorb (current_chunk next_chunk : Chunk) : Chunk :=
  {| id := id current_chunk;
     content := content current_chunk +:+ blank_line +:+ content next_chunk;
     metadata := metadata current_chunk;
     chunk_index := chunk_index current_chunk;
     chunk_size := chunk_size current_chunk;
     start_char := start_char current_chunk;
     end_char := end_char next_chunk;
     image_context :=
       match image_context current_chunk, image_context next_chunk with
       | Some a, Some b => Some (a ++ b)
       | None, Some b => Some b
       | ic, None => ic
       end;
     has_images :=
       Some (default false (has_images current_chunk)
             || default false (has_images next_chunk)) |}.

(** The [for next_chunk in chunks[1:]] loop followed by the final append. *)
Fixpoint merge_loop (min_chunk_size : Z) (current_chunk : Chunk)
         (rest : list Chunk) (merged_chunks : list Chunk) : list Chunk :=
  match rest with
  | [] => merged_chunks ++ [current_chunk]
  | next_chunk :: rest' =>
      if (len (content current_chunk) <? min_chunk_size)%Z
      then merge_loop min_chunk_size (absorb current_chunk next_chunk) rest' merged_chunks
      else merge_loop min_chunk_size next_chunk rest' (merged_chunks ++ [current_chunk])
  end.

(** The renumbering pass: ids and indexes from one. *)
Definition renumber (merged_chunks : list Chunk) : list Chunk :=
  imap (fun i chunk =>
          {| id := "chunk_" +:+ PyStr.str_nat (i + 1);
             content := content chunk;
             metadata := metadata chunk;
             chunk_index := i + 1;
             chunk_size := chunk_size chunk;
             start_char := start_char chunk;
             end_char := end_char chunk;
             image_context := image_context chunk;
             has_images := has_images chunk |}) merged_chunks.

Definition merge_small_chunks (chunks : list Chunk) (min_chunk_size : Z) : list Chunk :=
  match chunks with
  | [] => chunks
  | first :: rest => renumber (merge_loop min_chunk_size first rest [])
  end.

(** *** Integration of image analyses into the text *)

(** The regular expression [--- Page \d+ ---] tried at the head of [s]: the
    length of the match. *)
Definition marker_here (s : string) : option nat :=
  if PyStr.startswith "--- Page " s then
    let '(ds, r) := PyStr.span_digits (PyStr.drop 9 s) in
    match ds with
    | [] => None
    | _ => if PyStr.startswith " ---" r then Some (9 + length ds + 4) else None
    end
  else None.

(** [re.finditer]: the matches from left to right, without overlap; the
    result lists [marker.end()] of each.  [pos] is the index of the head of
    [s], [skip] the number of characters still covered by the last match. *)
Fixpoint marker_ends_from (pos skip : nat) (s : string) : list nat :=
  match s with
  | EmptyString => []
  | String _ s' =>
      match skip with
      | S k => marker_ends_from (S pos) k s'
      | O =>
          match marker_here s with
          | Some n => (pos + n) :: marker_ends_from (S pos) (n - 1) s'
          | None => marker_ends_from (S pos) 0 s'
          end
      end
  end.

Definition page_marker_ends (text_content : string) : list nat :=
  marker_ends_from 0 0 text_content.

(** [l[i]] for a Python list and any int: a negative index counts from the
    end; [None] is [IndexError]. *)
Definition py_index {A} (l : list A) (i : Z) : option A :=
  if (0 <=? i)%Z then l !! Z.to_nat i
  else if (- Z.of_nat (length l) <=? i)%Z then l !! Z.to_nat (Z.of_nat (length l) + i)
  else None.

(** [_find_image_insertion_point].  The [except] branch is reached by the
    [IndexError] of a page number too far below zero. *)
Definition _find_image_insertion_point (text_content : string) (page_number : Z) : Z :=
  let page_markers := page_marker_ends text_content in
  if negb (bool_decide (page_markers = []))
     && (page_number <=? Z.of_nat (length page_markers))%Z
  then
    match py_index page_markers (page_number - 1) with
    | Some marker_end => Z.of_nat marker_end
    | None => (len text_content / 2)%Z
    end
  else (len text_content / 3)%Z.

(** [analysis.get('success') and analysis.get('analysis')] *)
Definition integrable (a : Analysis) : bool :=
  success a && negb (String.eqb (analysis a) "").

(** [f"\n\n[Image Analysis - {image_id}]\n{image_analysis}\n"] *)
Definition image_summary (a : Analysis) : string :=
  blank_line +:+ "[Image Analysis - " +:+ image_id a +:+ "]" +:+ nl
  +:+ analysis a +:+ nl.

(** One turn of the loop of [_integrate_image_analyses]. *)
Definition integrate_one (enhanced_content : string) (a : Analysis) : string :=
  if integrable a then
    let insertion_point := _find_image_insertion_point enhanced_content (page_number a) in
    if (0 <=? insertion_point)%Z
    then PyStr.take (Z.to_nat insertion_point) enhanced_content
         +:+ image_summary a
         +:+ PyStr.drop (Z.to_nat insertion_point) enhanced_content
    else enhanced_content +:+ image_summary a
  else enhanced_content.

Definition _integrate_image_analyses (text_content : string)
           (image_analyses : list Analysis) : string :=
  fold_left integrate_one image_analyses text_content.

(** [chunk_with_image_context]: the chunks of the enhanced text, each with
    its image context and the flag derived from it. *)
Definition chunk_with_image_context (self : t) (text_content : string)
           (image_analyses : list Analysis) (md : gmap string string) : list Chunk :=
  let enhanced_content := _integrate_image_analyses text_content image_analyses in
  map (fun chunk =>
         let ctx := _get_chunk_image_context chunk image_analyses in
         {| id := id chunk;
            content := content chunk;
            metadata := metadata chunk;
            chunk_index := chunk_index chunk;
            chunk_size := chunk_size chunk;
            start_char := start_char chunk;
            end_char := end_char chunk;
            image_context := Some ctx;
            has_images := Some (negb (bool_decide (ctx = []))) |})
      (chunk_text self enhanced_content md).

(** *** Summary statistics *)

(** The dictionary of [get_chunking_summary]; the percentage key is absent
    for an empty chunk list. *)
Record ChunkingSummary := mkChunkingSummary {
  total_chunks : nat;
  average_chunk_size : Q;
  total_content_length : nat;
  chunks_with_images : nat;
  image_chunk_percentage : option Q
}.

(** [sum(len(chunk.get('content', '')) for chunk in chunks)] *)
Definition total_content (chunks : list Chunk) : nat :=
  fold_right (fun chunk acc => String.length (content chunk) + acc) 0 chunks.

(** [sum(1 for chunk in chunks if chunk.get('has_images', False))] *)
Definition count_with_images (chunks : list Chunk) : nat :=
  length (List.filter (fun chunk => default false (has_images chunk)) chunks).

(** [get_chunking_summary].  The two quotients are floats: [fl] is the
    rounding of an exact result to the nearest double.  [a / b] on two ints
    is the correctly rounded quotient, and its product with 100 is rounded
    once more. *)
Definition get_chunking_summary (fl : Q -> Q) (chunks : list Chunk) : ChunkingSummary :=
  match chunks with
  | [] => {| total_chunks := 0; average_chunk_size := 0;
             total_content_length := 0; chunks_with_images := 0;
             image_chunk_percentage := None |}
  | _ =>
      {| total_chunks := length chunks;
         average_chunk_size := fl (true_div (total_content chunks) (length chunks));
         total_content_length := total_content chunks;
         chunks_with_images := count_with_images chunks;
         image_chunk_percentage :=
           Some (fl (fl (true_div (count_with_images chunks) (length chunks)) * 100)%Q) |}
  end.

End ContentChunker.

(* ====================================================================== *)
(** * complete_ingestion_pipeline.py : ChunkingService                     *)
(* ====================================================================== *)

Module ChunkingService.

Inductive ChunkType := text | visual.

Record Chunk := mkChunk {
  id : string;
  content : string;
  chunk_type : ChunkType;
  chunk_index : nat;
  chunk_page_number : Z
}.

(** [splitter] is [None] when the splitting library could not be imported. *)
Record t := mk {
  chunk_size : Z;
  chunk_overlap : Z;
  splitter : option (string -> list string)
}.

(** [_basic_text_split]: greedy packing of words. *)
Fixpoint basic_loop (size : Z) (words : list string) (current_chunk : list string)
         (current_length : Z) (chunks : list string) : list string :=
  match words with
  | [] =>
      match current_chunk with
      | [] => chunks
      | _ => chunks ++ [PyStr.join " " current_chunk]
      end
  | word :: words' =>
      if (size <? current_length + len word + 1)%Z
         && negb (bool_decide (current_chunk = []))
      then basic_loop size words' [word] (len word)
                      (chunks ++ [PyStr.join " " current_chunk])
      else basic_loop size words' (current_chunk ++ [word])
                      (current_length + len word + 1)%Z chunks
  end.

Definition _basic_text_split (self : t) (txt : string) : list string :=
  basic_loop (chunk_size self) (PyStr.split txt) [] 0%Z [].

(** The regular expression [--- Page \d+ ---] tried at the head of [s]. *)
Definition page_marker_here (s : string) : option Z :=
  if PyStr.startswith "--- Page " s then
    let '(ds, r) := PyStr.span_digits (PyStr.drop 9 s) in
    match ds with
    | [] => None
    | _ => if PyStr.startswith " ---" r then Some (PyStr.int_of_digits ds) else None
    end
  else None.

(** [re.search]: leftmost match. *)
Fixpoint search_page_marker (s : string) : option Z :=
  match page_marker_here s with
  | Some n => Some n
  | None =>
      match s with
      | EmptyString => None
      | String _ s' => search_page_marker s'
      end
  end.

Definition _extract_page_number (chunk : string) : Z :=
  default 0%Z (search_page_marker chunk).

Definition text_chunk (i : nat) (chunk : string) : Chunk :=
  {| id := "text_chunk_" +:+ PyStr.str_nat i;
     content := chunk;
     chunk_type := text;
     chunk_index := i;
     chunk_page_number := _extract_page_number chunk |}.

(** A visual chunk, appended to [chunks]: its index is computed from the
    length of the list as it stands when the chunk is appended. *)
Definition visual_chunk (chunks : list Chunk) (i : nat) (a : Analysis) : Chunk :=
  {| id := "visual_chunk_" +:+ PyStr.str_nat i;
     content := "[Image Summary: " +:+ analysis a +:+ "]";
     chunk_type := visual;
     chunk_index := length chunks + i;
     chunk_page_number := page_number a |}.

Definition chunk_document (self : t) (text_content : string)
           (visual_analysis : list Analysis) : list Chunk :=
  let text_chunks :=
    match splitter self with
    | Some split_text => split_text text_content
    | None => _basic_text_split self text_content
    end in
  let chunks := imap text_chunk text_chunks in
  fold_left (fun chunks '(i, a) => chunks ++ [visual_chunk chunks i a])
            (enumerate visual_analysis) chunks.

End ChunkingService.

(* ====================================================================== *)
(** * pipeline/services/embedding_service.py : EmbeddingService            *)
(* ====================================================================== *)

Module EmbeddingService.

Definition Vector := list Q.

(** [hyperparameters.EMBEDDING_DIMENSION], the dimension the service
    declares; the batcher writes the same number as a literal. *)
Definition EMBEDDING_DIMENSION : nat := 1536.

(** The service object.  [client] is the remote embeddings endpoint: the
    [k]-th call made through this object, on a batch of texts, either
    answers with a list of vectors or raises ([None]). *)
Record t := mk {
  max_retries : nat;
  retry_delay : Q;
  batch_size : nat;
  client : nat -> list string -> option (list Vector)
}.

(** [__init__] *)
Definition init (client : nat -> list string -> option (list Vector)) : t :=
  {| max_retries := 3; retry_delay := 1; batch_size := 16; client := client |}.

(** What a run leaves behind besides its result: the number of calls made
    to the endpoint and the delays slept, in order. *)
Record Effects := mkEffects {
  api_calls : nat;
  sleeps : list Q
}.

Definition no_effects : Effects := {| api_calls := 0; sleeps := [] |}.

Definition called (e : Effects) : Effects :=
  {| api_calls := S (api_calls e); sleeps := sleeps e |}.

Definition slept (d : Q) (e : Effects) : Effects :=
  {| api_calls := api_calls e; sleeps := sleeps e ++ [d] |}.

(** [[0.0] * 1536] *)
Definition zero_vector : Vector := repeat 0%Q 1536.

(** [retry_delay * (2 ** attempt)] *)
Definition backoff (self : t) (attempt : nat) : Q :=
  (retry_delay self * inject_Z (2 ^ Z.of_nat attempt))%Q.

(** The [for attempt in range(self.max_retries)] loop for one batch; the
    result is what the loop appends to [all_embeddings]. *)
Fixpoint attempt_loop (self : t) (batch_texts : list string)
         (attempts : list nat) (e : Effects) : list Vector * Effects :=
  match attempts with
  | [] => ([], e)
  | attempt :: attempts' =>
      match client self (api_calls e) batch_texts with
      | Some batch_embeddings => (batch_embeddings, called e)
      | None =>
          if (attempt <? max_retries self - 1)%nat
          then attempt_loop self batch_texts attempts'
                            (slept (backoff self attempt) (called e))
          else
            let '(more, e') := attempt_loop self batch_texts attempts' (called e) in
            (repeat zero_vector (length batch_texts) ++ more, e')
      end
  end.

(** [range(0, n, step)] for a positive step. *)
Definition range_step (n step : nat) : list nat :=
  map (fun k => k * step) (seq 0 ((n + step - 1) / step)).

(** [texts[i:i + size]] *)
Definition slice (texts : list string) (i size : nat) : list string :=
  take size (drop i texts).

Definition batch_loop (self : t) (texts : list string) (starts : list nat)
           (e : Effects) : list Vector * Effects :=
  fold_left
    (fun '(all_embeddings, e) i =>
       let batch_texts := slice texts i (batch_size self) in
       let '(got, e') :=
         attempt_loop self batch_texts (seq 0 (max_retries self)) e in
       (all_embeddings ++ got, e'))
    starts ([], e).

(** [_generate_embeddings_batch].  [None] is the [ValueError] that
    [range] raises for a zero step. *)
Definition _generate_embeddings_batch (self : t) (texts : list string)
           (e : Effects) : option (list Vector * Effects) :=
  if (batch_size self =? 0)%nat then None
  else Some (batch_loop self texts (range_step (length texts) (batch_size self)) e).

(** [zip(chunks, embeddings)] followed by the assignment of the
    ['embedding'] key: a chunk beyond the end of [embeddings] keeps none. *)
Fixpoint attach {C} (chunks : list C) (embeddings : list Vector)
  : list (C * option Vector) :=
  match chunks, embeddings with
  | [], _ => []
  | c :: cs, [] => (c, None) :: attach cs []
  | c :: cs, v :: vs => (c, Some v) :: attach cs vs
  end.

(** [generate_embeddings]: the same chunk list comes back, with the
    embeddings attached; an exception leaves the chunks as they were. *)
Definition generate_embeddings {C} (content : C -> string) (self : t)
           (chunks : list C) (e : Effects)
  : list (C * option Vector) * Effects :=
  match _generate_embeddings_batch self (map content chunks) e with
  | Some (embeddings, e') => (attach chunks embeddings, e')
  | None => (attach chunks [], e)
  end.

(** *** Validation *)

(** The dictionary of [validate_embeddings]. *)
Record Validation := mkValidation {
  total_chunks : nat;
  valid_embeddings : nat;
  invalid_embeddings : nat;
  zero_embeddings : nat;
  dimension_mismatches : nat;
  expected_dimension : nat;
  validation_success_rate : Q
}.

(** The verdict of the loop body on one chunk. *)
Inductive Verdict := Invalid | Mismatch | Zero | Valid.

(** A chunk without ['embedding'] is invalid; then the dimension is
    checked; then [all(x == 0.0 for x in embedding)]. *)
Definition verdict (embedding : option Vector) : Verdict :=
  match embedding with
  | None => Invalid
  | Some v =>
      if negb (length v =? 1536)%nat then Mismatch
      else if forallb (fun x => Qeq_bool x 0) v then Zero
      else Valid
  end.

Definition count_verdict {C} (w : Verdict) (chunks : list (C * option Vector)) : nat :=
  length (List.filter
            (fun c => match verdict (snd c), w with
                      | Invalid, Invalid | Mismatch, Mismatch
                      | Zero, Zero | Valid, Valid => true
                      | _, _ => false
                      end) chunks).

Definition validate_embeddings {C} (chunks : list (C * option Vector)) : Validation :=
  {| total_chunks := length chunks;
     valid_embeddings := count_verdict Valid chunks;
     invalid_embeddings := count_verdict Invalid chunks;
     zero_embeddings := count_verdict Zero chunks;
     dimension_mismatches := count_verdict Mismatch chunks;
     expected_dimension := 1536;
     validation_success_rate :=
       Qred (true_div (count_verdict Valid chunks) (Nat.max (length chunks) 1) * 100) |}.

End EmbeddingService.

(* ====================================================================== *)
(** * pipeline/extractors/pdf_extractor.py : PDFExtractor                  *)
(* ====================================================================== *)

Module PDFExtractor.

Definition Qltb (a b : Q) : bool := negb (Qle_bool b a).

(** A float that may be infinite: the accumulators of the union box start
    at [float('inf')] and [float('-inf')]. *)
Inductive coord := NegInf | Fin (q : Q) | PosInf.

Definition cltb (a b : coord) : bool :=
  match a, b with
  | NegInf, NegInf => false
  | NegInf, _ => true
  | Fin _, NegInf => false
  | Fin p, Fin q => Qltb p q
  | Fin _, PosInf => true
  | PosInf, _ => false
  end.

(** [min(a, b)] and [max(a, b)] as the builtins choose: the first argument
    unless the second is strictly better. *)
Definition cmin (a b : coord) : coord := if cltb b a then b else a.
Definition cmax (a b : coord) : coord := if cltb a b then b else a.

(** A rectangle held by a primitive: four finite numbers. *)
Record Rect4 := mkRect4 { x0 : Q; y0 : Q; x1 : Q; y1 : Q }.

(** What a primitive holds under ['rect']: nothing (the key is absent), a
    value that tests false (such as [None]), or a rectangle. *)
Inductive RectEntry := NoKey | Falsy | HasRect (r : Rect4).

(** A drawing primitive.  [payload] stands for the keys the extractor
    never reads (path items, colours, widths). *)
Record Drawing := mkDrawing { rect : RectEntry; payload : nat }.

(** [drawing.get('rect', [0, 0, 0, 0])]; [None] is a value that tests
    false.  The default is a non-empty list, hence true. *)
Definition get_rect (d : Drawing) : option Rect4 :=
  match rect d with
  | NoKey => Some (mkRect4 0 0 0 0)
  | Falsy => None
  | HasRect r => Some r
  end.

(** [d2 ** 0.5 < threshold], for [0 <= d2], decided without the root: the
    threshold is positive and [d2] is below its square. *)
Definition sqrt_ltb (d2 threshold : Q) : bool :=
  Qltb 0 threshold && Qltb d2 (threshold * threshold).

Definition center (b : Rect4) : Q * Q :=
  ((x0 b + x1 b) / 2, (y0 b + y1 b) / 2)%Q.

(** Square of the Euclidean distance between two points. *)
Definition dist2 (c1 c2 : Q * Q) : Q :=
  ((fst c1 - fst c2) ^ 2 + (snd c1 - snd c2) ^ 2)%Q.

Definition _are_bboxes_close (bbox1 bbox2 : option Rect4) (threshold : Q) : bool :=
  match bbox1, bbox2 with
  | Some b1, Some b2 => sqrt_ltb (dist2 (center b1) (center b2)) threshold
  | _, _ => false
  end.

(** The inner loop of [_group_drawings_by_proximity]: every primitive not
    yet used and close to the anchor's box joins the group. *)
Fixpoint gather (bbox1 : option Rect4) (threshold : Q)
         (others : list (nat * Drawing)) (used : gset nat)
         (group : list Drawing) : list Drawing * gset nat :=
  match others with
  | [] => (group, used)
  | (j, other_drawing) :: others' =>
      if bool_decide (j ∈ used) then gather bbox1 threshold others' used group
      else if _are_bboxes_close bbox1 (get_rect other_drawing) threshold
      then gather bbox1 threshold others' ({[j]} ∪ used) (group ++ [other_drawing])
      else gather bbox1 threshold others' used group
  end.

(** The outer loop: each primitive not yet used anchors a new group. *)
Fixpoint group_loop (drawings : list Drawing) (threshold : Q)
         (todo : list (nat * Drawing)) (used : gset nat)
         (groups : list (list Drawing)) : list (list Drawing) :=
  match todo with
  | [] => groups
  | (i, drawing) :: todo' =>
      if bool_decide (i ∈ used) then group_loop drawings threshold todo' used groups
      else
        let '(group, used') :=
          gather (get_rect drawing) threshold (enumerate drawings)
                 ({[i]} ∪ used) [drawing] in
        group_loop drawings threshold todo' used' (groups ++ [group])
  end.

Definition _group_drawings_by_proximity (drawings : list Drawing)
           (proximity_threshold : Q) : list (list Drawing) :=
  match drawings with
  | [] => []
  | _ => group_loop drawings proximity_threshold (enumerate drawings) ∅ []
  end.

(** The default of the [proximity_threshold] argument. *)
Definition DEFAULT_PROXIMITY_THRESHOLD : Q := 50.

(** A [fitz.Rect] built by the extractor. *)
Record Box := mkBox { bx0 : coord; by0 : coord; bx1 : coord; by1 : coord }.

Definition _get_drawings_bbox (drawings : list Drawing) : Box :=
  match drawings with
  | [] => mkBox (Fin 0) (Fin 0) (Fin 0) (Fin 0)
  | _ =>
      fold_left
        (fun b drawing =>
           match get_rect drawing with
           | Some r =>
               mkBox (cmin (bx0 b) (Fin (x0 r))) (cmin (by0 b) (Fin (y0 r)))
                     (cmax (bx1 b) (Fin (x1 r))) (cmax (by1 b) (Fin (y1 r)))
           | None => b
           end)
        drawings (mkBox PosInf PosInf NegInf NegInf)
  end.

(** The library's [Rect.width] and [Rect.height]: [max(0, hi - lo)]. *)
Definition extent (lo hi : coord) : coord :=
  match lo, hi with
  | Fin a, Fin b => if Qltb 0 (b - a) then Fin (b - a) else Fin 0
  | PosInf, _ => Fin 0
  | _, NegInf => Fin 0
  | _, _ => PosInf
  end.

Definition width (b : Box) : coord := extent (bx0 b) (bx1 b).
Definition height (b : Box) : coord := extent (by0 b) (by1 b).

(** The size below which a union box is noise. *)
Definition MIN_DRAWING_SIZE : Q := 20.

(** The PNG written for an image or a region: its byte length, pixel size
    and MD5 digest. *)
Record Raster := mkRaster {
  data_len : nat;
  px_width : nat;
  px_height : nat;
  md5 : string
}.

(** Producing one PNG inside a [try] block: the pixmap or the write raises
    before the file is recorded, or the file is written (and recorded as a
    temporary file) and reading it back raises, or the image is there. *)
Inductive Render := RenderRaises | ReadRaises | Rendered (r : Raster).

(** Decoding one embedded image inside a [try] block: the pixmap raises, or
    the PNG (of the given digest) is written and recorded and opening it
    raises, or the image is there. *)
Inductive Decode := DecodeRaises | OpenRaises (digest : string) | Decoded (r : Raster).

Inductive ElementType := embedded_image | visual_element.

(** An entry of [visual_elements].  Only drawing groups carry ['bbox'] and
    ['drawing_count']. *)
Record VisualElement := mkVisualElement {
  elem_id : string;
  elem_type : ElementType;
  elem_page_number : nat;
  image_index : nat;
  path : string;
  size : nat;
  elem_width : nat;
  elem_height : nat;
  hash : string;
  bbox : option Box;
  drawing_count : option nat
}.

(** A page as the extractor sees it: the outcome of decoding each entry of
    [page.get_images()], the list [page.get_drawings()], and the rasteriser
    [page.get_pixmap(clip=...)] followed by the save and read-back. *)
Record Page := mkPage {
  images : list Decode;
  drawings : list Drawing;
  get_pixmap : Box -> Render
}.

(** The extractor object. *)
Record t := mk {
  temp_dir : string
}.

(** [s[:8]] *)
Fixpoint str_take (k : nat) (s : string) : string :=
  match k, s with
  | S k', String c s' => String c (str_take k' s')
  | _, _ => EmptyString
  end.

(** [f"{filename}_page{page_num+1}_img{img_index+1}_{image_hash[:8]}"] *)
Definition image_id_of (filename : string) (page_num img_index : nat) (digest : string)
  : string :=
  filename +:+ "_page" +:+ PyStr.str_nat (page_num + 1)
  +:+ "_img" +:+ PyStr.str_nat (img_index + 1) +:+ "_" +:+ str_take 8 digest.

(** The loop body of [_extract_embedded_images] for image [img_index]: the
    element appended, if any, and the temp file recorded, if any. *)
Definition extract_image (self : t) (page_num : nat) (filename : string)
           (img_index : nat) (outcome : Decode)
  : option VisualElement * option string :=
  match outcome with
  | DecodeRaises => (None, None)
  | OpenRaises digest =>
      (None,
       Some (temp_dir self +:+ "/" +:+ image_id_of filename page_num img_index digest
             +:+ ".png"))
  | Decoded img =>
      let image_id := image_id_of filename page_num img_index (md5 img) in
      let image_path := temp_dir self +:+ "/" +:+ image_id +:+ ".png" in
      (Some {| elem_id := image_id;
               elem_type := embedded_image;
               elem_page_number := page_num + 1;
               image_index := img_index + 1;
               path := image_path;
               size := data_len img;
               elem_width := px_width img;
               elem_height := px_height img;
               hash := md5 img;
               bbox := None;
               drawing_count := None |},
       Some image_path)
  end.

Definition _extract_embedded_images (self : t) (page : Page) (page_num : nat)
           (filename : string) : list VisualElement * list string :=
  let outcomes := imap (extract_image self page_num filename) (images page) in
  (omap fst outcomes, omap snd outcomes).

(** The loop body of [_extract_drawing_elements] for group [elem_index]:
    the element appended, if any, and the temp file recorded, if any. *)
Definition extract_group (self : t) (page : Page) (page_num : nat) (filename : string)
           (elem_index : nat) (element_drawings : list Drawing)
  : option VisualElement * option string :=
  let box := _get_drawings_bbox element_drawings in
  if cltb (width box) (Fin MIN_DRAWING_SIZE) || cltb (height box) (Fin MIN_DRAWING_SIZE)
  then (None, None)
  else
    let elem_id := filename +:+ "_page" +:+ PyStr.str_nat (page_num + 1)
                   +:+ "_visual_elem" +:+ PyStr.str_nat (elem_index + 1) in
    let elem_path := temp_dir self +:+ "/" +:+ elem_id +:+ ".png" in
    match get_pixmap page box with
    | RenderRaises => (None, None)
    | ReadRaises => (None, Some elem_path)
    | Rendered img =>
        if (data_len img <? 100)%nat then (None, Some elem_path)
        else (Some {| elem_id := elem_id;
                      elem_type := visual_element;
                      elem_page_number := page_num + 1;
                      image_index := elem_index + 1;
                      path := elem_path;
                      size := data_len img;
                      elem_width := px_width img;
                      elem_height := px_height img;
                      hash := md5 img;
                      bbox := Some box;
                      drawing_count := Some (length element_drawings) |},
              Some elem_path)
    end.

(** [_extract_drawing_elements]: the elements of one page, with the temp
    files the call adds to [self.temp_files]. *)
Definition _extract_drawing_elements (self : t) (page : Page)
           (page_num : nat) (filename : string)
  : list VisualElement * list string :=
  match drawings page with
  | [] => ([], [])
  | drawings_list =>
      let visual_elements :=
        _group_drawings_by_proximity drawings_list DEFAULT_PROXIMITY_THRESHOLD in
      let outcomes :=
        imap (extract_group self page page_num filename) visual_elements in
      (omap fst outcomes, omap snd outcomes)
  end.

(** The elements of page [page_num]: embedded images, then drawing groups. *)
Definition page_elements (self : t) (filename : string) (page_num : nat) (page : Page)
  : list VisualElement * list string :=
  let '(embedded_images, files1) := _extract_embedded_images self page page_num filename in
  let '(drawing_elements, files2) := _extract_drawing_elements self page page_num filename in
  (embedded_images ++ drawing_elements, files1 ++ files2).

(** [_extract_visual_elements]: all pages in order. *)
Definition _extract_visual_elements (self : t) (pdf_document : list Page)
           (filename : string) : list VisualElement * list string :=
  let per_page := imap (page_elements self filename) pdf_document in
  (concat (map fst per_page), concat (map snd per_page)).

(** [_extract_text], on the texts of the pages in order: each page is
    headed by its marker, pages are separated by a blank line. *)
Definition page_block (page_num : nat) (page_text : string) : string :=
  "--- Page " +:+ PyStr.str_nat (page_num + 1) +:+ " ---" +:+ nl +:+ page_text.

Definition _extract_text (page_texts : list string) : string :=
  PyStr.join blank_line (imap page_block page_texts).

End PDFExtractor.

(* ====================================================================== *)
(** * complete_ingestion_pipeline.py : StorageChecker and the orchestrator *)
(* ====================================================================== *)

Module CompleteIngestionPipeline.

(** ** Paths *)

(** The components of a path between ['/'] separators. *)
Fixpoint components_from (cur : string) (p : string) : list string :=
  match p with
  | EmptyString => [cur]
  | String c p' =>
      if Ascii.eqb c "/"%char then cur :: components_from "" p'
      else components_from (cur +:+ String c "") p'
  end.

(** [Path(p).name]: the last component, empty and ["."] components being
    dropped by the path parser. *)
Definition path_name (p : string) : string :=
  List.last (List.filter (fun c => negb (String.eqb c "") && negb (String.eqb c "."))
                         (components_from "" p)) "".

(** ** Values of a loosely typed argument *)

(** What may arrive in [original_filename] (and so in [blob_name]):
    [None], a string, or a Boolean. *)
Inductive PyValue := PyNone | PyStr (s : string) | PyBool (b : bool).

(** Truth value of such an argument. *)
Definition truthy (v : PyValue) : bool :=
  match v with
  | PyNone => false
  | PyStr s => negb (String.eqb s "")
  | PyBool b => b
  end.

(** ** The world *)

(** Outcome of [MultimodalPipeline.process_document]: it raises, or it
    returns a failure dictionary, or a success dictionary with the text and
    the image statistics.  The success dictionary has no
    ['visual_analysis'] key. *)
Inductive DocResult :=
| DocRaises (msg : string)
| DocFailed (error : string)
| DocOk (text_content : string) (total_images : nat).

(** A document sent to the search index (generated ids, tags and
    timestamps left out). *)
Record IndexDoc := mkIndexDoc {
  doc_content : string;
  doc_chunk_index : nat;
  doc_filename : string;
  doc_page_number : Z;
  doc_chunk_type : ChunkingService.ChunkType
}.

(** Metadata stored with a blob. *)
Record BlobMeta := mkBlobMeta {
  meta_file_hash : string;
  meta_chunks_created : nat;
  meta_chunks_uploaded : nat
}.

(** The collaborators of one pipeline object. *)
Record Env := mkEnv {
  read_bytes : string -> option string;     (* the local file system *)
  sha256 : string -> string;                (* hashlib.sha256(..).hexdigest() *)
  storage_available : bool;
  process_document : string -> bool -> DocResult;
  chunking_service : ChunkingService.t;
  embedding_service : EmbeddingService.t;
  upload_documents : list IndexDoc -> bool;  (* false: the call raises *)
  upload_blob : string -> bool               (* false: the call raises *)
}.

(** Stages of work, logged as they are carried out. *)
Inductive Event :=
| Extracted (file_path : string) (save_outputs : bool)
| Chunked (n : nat)
| Embedded (n : nat)
| Indexed (docs : list IndexDoc)
| Stored (blob_name : string)
| CleanedUp (file_path : string).

(** The dictionary returned for one file. *)
Record Result := mkResult {
  res_success : bool;
  res_status : option string;
  res_reason : option string;
  res_error : option string;
  res_filename : option string;
  res_total_images : option nat;
  chunks_created : option nat;
  chunks_uploaded : option nat;
  vector_storage_success : option bool;
  blob_storage_uploaded : option bool;
  res_file_hash : option string;
  file_exists_in_storage_key : option bool
}.

(** The mutable world: the blob container, the search index, the effects of
    the embedding client, the log of work done, and the three lists of the
    pipeline object. *)
Record State := mkState {
  container : gmap string BlobMeta;
  index : list IndexDoc;
  embedding_effects : EmbeddingService.Effects;
  trace : list Event;
  processed_files : list Result;
  skipped_files : list string;
  failed_files : list (string * string)
}.

Definition initial_state : State :=
  {| container := ∅; index := []; embedding_effects := EmbeddingService.no_effects;
     trace := []; processed_files := []; skipped_files := []; failed_files := [] |}.

Definition log (ev : Event) (s : State) : State :=
  {| container := container s; index := index s;
     embedding_effects := embedding_effects s; trace := trace s ++ [ev];
     processed_files := processed_files s; skipped_files := skipped_files s;
     failed_files := failed_files s |}.

Definition add_failed (file error : string) (s : State) : State :=
  {| container := container s; index := index s;
     embedding_effects := embedding_effects s; trace := trace s;
     processed_files := processed_files s; skipped_files := skipped_files s;
     failed_files := failed_files s ++ [(file, error)] |}.

Definition add_skipped (file : string) (s : State) : State :=
  {| container := container s; index := index s;
     embedding_effects := embedding_effects s; trace := trace s;
     processed_files := processed_files s; skipped_files := skipped_files s ++ [file];
     failed_files := failed_files s |}.

Definition add_processed (r : Result) (s : State) : State :=
  {| container := container s; index := index s;
     embedding_effects := embedding_effects s; trace := trace s;
     processed_files := processed_files s ++ [r]; skipped_files := skipped_files s;
     failed_files := failed_files s |}.

Definition set_embedding_effects (e : EmbeddingService.Effects) (s : State) : State :=
  {| container := container s; index := index s;
     embedding_effects := e; trace := trace s;
     processed_files := processed_files s; skipped_files := skipped_files s;
     failed_files := failed_files s |}.

Definition add_index (docs : list IndexDoc) (s : State) : State :=
  {| container := container s; index := index s ++ docs;
     embedding_effects := embedding_effects s; trace := trace s;
     processed_files := processed_files s; skipped_files := skipped_files s;
     failed_files := failed_files s |}.

Definition put_container (name : string) (m : BlobMeta) (s : State) : State :=
  {| container := <[name := m]> (container s); index := index s;
     embedding_effects := embedding_effects s; trace := trace s;
     processed_files := processed_files s; skipped_files := skipped_files s;
     failed_files := failed_files s |}.

(** ** StorageChecker *)

(** [file_exists_in_storage]: the probe is by the file's name; a probe
    that raises counts as absent. *)
Definition file_exists_in_storage (env : Env) (s : State) (file_path : string) : bool :=
  if negb (storage_available env) then false
  else bool_decide (is_Some (container s !! path_name file_path)).

(** [get_file_hash] of an existing file that opens for reading; for one
    that does not, see [hash_raises] below. *)
Definition get_file_hash (env : Env) (file_path : string) : string :=
  sha256 env (default "" (read_bytes env file_path)).

(** [upload_to_storage].  A blob name that is not a string makes the
    client call raise, which the method turns into [False]. *)
Definition upload_to_storage (env : Env) (file_path : string) (blob_name : PyValue)
           (m : BlobMeta) (s : State) : bool * State :=
  if negb (storage_available env) then (false, s)
  else
    let blob_name :=
      match blob_name with
      | PyNone => PyStr (path_name file_path)
      | v => v
      end in
    match blob_name with
    | PyStr name =>
        if upload_blob env name
        then (true, log (Stored name) (put_container name m s))
        else (false, s)
    | _ => (false, s)
    end.

(** ** AzureAISearchService.upload_chunks *)

Definition upload_chunks (env : Env) (filename : string)
           (chunks : list (ChunkingService.Chunk * option EmbeddingService.Vector))
           (s : State) : bool * State :=
  let docs :=
    map (fun '(chunk, _) =>
           {| doc_content := ChunkingService.content chunk;
              doc_chunk_index := ChunkingService.chunk_index chunk;
              doc_filename := filename;
              doc_page_number := ChunkingService.chunk_page_number chunk;
              doc_chunk_type := ChunkingService.chunk_type chunk |}) chunks in
  if upload_documents env docs
  then (true, log (Indexed docs) (add_index docs s))
  else (false, s).

(** ** Result dictionaries *)

Definition error_result (error : string) : Result :=
  {| res_success := false; res_status := None; res_reason := None;
     res_error := Some error; res_filename := None; res_total_images := None;
     chunks_created := None; chunks_uploaded := None;
     vector_storage_success := None; blob_storage_uploaded := None;
     res_file_hash := None; file_exists_in_storage_key := None |}.

Definition skipped_result (file_path : string) : Result :=
  {| res_success := true; res_status := Some "skipped";
     res_reason := Some "file_exists_in_storage";
     res_error := None; res_filename := Some (path_name file_path);
     res_total_images := None;
     chunks_created := None; chunks_uploaded := None;
     vector_storage_success := None; blob_storage_uploaded := None;
     res_file_hash := None; file_exists_in_storage_key := None |}.

(** The dictionary [process_document] returns, as far as it is read. *)
Definition document_result (file_path : string) (ok : bool) (error : option string)
           (images : option nat) : Result :=
  {| res_success := ok; res_status := None; res_reason := None;
     res_error := error; res_filename := Some (path_name file_path);
     res_total_images := images;
     chunks_created := None; chunks_uploaded := None;
     vector_storage_success := None; blob_storage_uploaded := None;
     res_file_hash := None; file_exists_in_storage_key := None |}.

Definition cleanup (auto_cleanup : bool) (file_path : string) (s : State) : State :=
  if auto_cleanup then log (CleanedUp file_path) s else s.

(** ** process_file_with_storage_check *)

Definition process_file_with_storage_check (env : Env) (file_path : string)
           (original_filename : PyValue)
           (force_reprocess save_outputs auto_cleanup : bool) (s : State)
  : Result * State :=
  if negb (bool_decide (is_Some (read_bytes env file_path))) then
    let error_msg := "File not found: " +:+ file_path in
    (error_result error_msg, add_failed file_path error_msg s)
  else
    let file_exists := file_exists_in_storage env s file_path in
    if file_exists && negb force_reprocess then
      (skipped_result file_path, add_skipped file_path s)
    else
      let file_hash := get_file_hash env file_path in
      let s := log (Extracted file_path save_outputs) s in
      match process_document env file_path save_outputs with
      | DocRaises msg =>
          let error_msg := "Error processing file: " +:+ msg in
          (error_result error_msg, add_failed file_path error_msg s)
      | DocFailed error =>
          let result := document_result file_path false (Some error) None in
          (result, cleanup auto_cleanup file_path (add_failed file_path error s))
      | DocOk text_content total_images =>
          let result := document_result file_path true None (Some total_images) in
          (* result.get('visual_analysis', []) is the default *)
          let chunks :=
            ChunkingService.chunk_document (chunking_service env) text_content [] in
          let s := log (Chunked (length chunks)) s in
          let '(embedded_chunks, eff) :=
            EmbeddingService.generate_embeddings ChunkingService.content
              (embedding_service env) chunks (embedding_effects s) in
          let s := log (Embedded (length embedded_chunks)) (set_embedding_effects eff s) in
          match embedded_chunks with
          | [] =>
              let error_msg := "Failed to generate embeddings" in
              (document_result file_path false (Some error_msg) (Some total_images),
               cleanup auto_cleanup file_path (add_failed file_path error_msg s))
          | _ =>
              let '(upload_success, s) :=
                upload_chunks env (path_name file_path) embedded_chunks s in
              if upload_success then
                let blob_filename :=
                  if truthy original_filename then original_filename
                  else PyStr (path_name file_path) in
                let '(blob_upload_success, s) :=
                  upload_to_storage env file_path blob_filename
                    {| meta_file_hash := file_hash;
                       meta_chunks_created := length chunks;
                       meta_chunks_uploaded := length embedded_chunks |} s in
                let result :=
                  {| res_success := true; res_status := None; res_reason := None;
                     res_error := None; res_filename := Some (path_name file_path);
                     res_total_images := Some total_images;
                     chunks_created := Some (length chunks);
                     chunks_uploaded := Some (length embedded_chunks);
                     vector_storage_success := Some upload_success;
                     blob_storage_uploaded := Some blob_upload_success;
                     res_file_hash := Some file_hash;
                     file_exists_in_storage_key := Some file_exists |} in
                (result, cleanup auto_cleanup file_path (add_processed result s))
              else
                let error_msg := "Failed to upload chunks to Azure AI Search" in
                (document_result file_path false (Some error_msg) (Some total_images),
                 cleanup auto_cleanup file_path (add_failed file_path error_msg s))
          end
      end.

(** ** process_batch_with_storage_check

    The wrapper passes its three flags by position after [file_path]. *)
Fixpoint process_batch_with_storage_check (env : Env) (file_paths : list string)
         (force_reprocess save_outputs auto_cleanup : bool) (s : State)
  : list Result * State :=
  match file_paths with
  | [] => ([], s)
  | file_path :: rest =>
      let '(result, s) :=
        process_file_with_storage_check env file_path
          (PyBool force_reprocess) save_outputs auto_cleanup true s in
      let '(results, s) :=
        process_batch_with_storage_check env rest
          force_reprocess save_outputs auto_cleanup s in
      (result :: results, s)
  end.

(** ** The exception that leaves [process_file_with_storage_check]

    [get_file_hash] is called after the existence test and the skip test and
    before the [try]: for a path that exists and does not open for reading
    (a directory, a file without read permission) [open] raises, and the
    exception leaves the method, and the batch loop around it, with nothing
    returned and nothing recorded.  [opens] says which paths
    [open(path, "rb")] accepts; [process_file_with_storage_check] above is
    the method on a path that opens. *)
Definition hash_raises (env : Env) (opens : string -> bool) (s : State)
           (file_path : string) (force_reprocess : bool) : bool :=
  bool_decide (is_Some (read_bytes env file_path))
  && negb (file_exists_in_storage env s file_path && negb force_reprocess)
  && negb (opens file_path).

(** A call of [process_file_with_storage_check]; [None]: an exception
    leaves the call. *)
Definition call_process_file_with_storage_check (env : Env) (opens : string -> bool)
           (file_path : string) (original_filename : PyValue)
           (force_reprocess save_outputs auto_cleanup : bool) (s : State)
  : option (Result * State) :=
  if hash_raises env opens s file_path force_reprocess then None
  else Some (process_file_with_storage_check env file_path original_filename
               force_reprocess save_outputs auto_cleanup s).

(** A call of [process_batch_with_storage_check]: an exception in one turn
    ends the loop, no list is returned, and what the earlier turns did
    stays done. *)
Fixpoint call_process_batch_with_storage_check (env : Env) (opens : string -> bool)
         (file_paths : list string)
         (force_reprocess save_outputs auto_cleanup : bool) (s : State)
  : option (list Result) * State :=
  match file_paths with
  | [] => (Some [], s)
  | file_path :: rest =>
      match call_process_file_with_storage_check env opens file_path
              (PyBool force_reprocess) save_outputs auto_cleanup true s with
      | None => (None, s)
      | Some (result, s) =>
          let '(results, s) :=
            call_process_batch_with_storage_check env opens rest
              force_reprocess save_outputs auto_cleanup s in
          (option_map (cons result) results, s)
      end
  end.

(** ** Tags and statistics *)

(** [Path(p).suffix] and [Path(p).stem]: the name is cut at its last dot,
    unless that dot is its first or last character. *)
Definition path_suffix (p : string) : string :=
  let name := path_name p in
  match PyStr.rfind_char "."%char name with
  | Some i => if (0 <? i)%nat && (i <? String.length name - 1)%nat
              then PyStr.drop i name else ""
  | None => ""
  end.

Definition path_stem (p : string) : string :=
  let name := path_name p in
  match PyStr.rfind_char "."%char name with
  | Some i => if (0 <? i)%nat && (i <? String.length name - 1)%nat
              then PyStr.take i name else name
  | None => name
  end.

(** The extensions that get a type tag. *)
Definition TAGGED_EXTENSIONS : list string :=
  [".pdf"; ".docx"; ".doc"; ".pptx"; ".ppt"; ".txt"; ".md"].

(** [x in l] for a list of strings. *)
Definition str_in (x : string) (l : list string) : bool :=
  existsb (String.eqb x) l.

Definition _extract_tags (file_path : string) : list string :=
  let file_ext := PyStr.lower (path_suffix file_path) in
  let filename := PyStr.lower (path_stem file_path) in
  (if str_in file_ext TAGGED_EXTENSIONS then ["type:" +:+ PyStr.drop 1 file_ext] else [])
  ++ (if PyStr.contains "research" filename then ["research"] else [])
  ++ (if PyStr.contains "paper" filename then ["paper"] else [])
  ++ (if PyStr.contains "whitepaper" filename then ["whitepaper"] else [])
  ++ (if PyStr.contains "report" filename then ["report"] else []).

(** The dictionary of [get_processing_statistics]. *)
Record Statistics := mkStatistics {
  total_files_processed : nat;
  total_files_skipped : nat;
  total_files_failed : nat;
  total_chunks_created : nat;
  total_chunks_uploaded : nat;
  total_images_analyzed : nat;
  vector_storage_success_rate : Q;
  blob_storage_success_rate : Q
}.

(** [sum(r.get(key, 0) for r in results)] *)
Definition sum_key (key : Result -> option nat) (results : list Result) : nat :=
  fold_right (fun r acc => default 0 (key r) + acc) 0 results.

(** [len([r for r in results if r.get(key, False)])] *)
Definition count_key (key : Result -> option bool) (results : list Result) : nat :=
  length (List.filter (fun r => default false (key r)) results).

Definition get_processing_statistics (s : State) : Statistics :=
  {| total_files_processed := length (processed_files s);
     total_files_skipped := length (skipped_files s);
     total_files_failed := length (failed_files s);
     total_chunks_created := sum_key chunks_created (processed_files s);
     total_chunks_uploaded := sum_key chunks_uploaded (processed_files s);
     total_images_analyzed := sum_key res_total_images (processed_files s);
     vector_storage_success_rate :=
       true_div (count_key vector_storage_success (processed_files s))
                (Nat.max (length (processed_files s)) 1);
     blob_storage_success_rate :=
       true_div (count_key blob_storage_uploaded (processed_files s))
                (Nat.max (length (processed_files s)) 1) |}.

End CompleteIngestionPipeline.

(* ====================================================================== *)
(** * pipeline/dispatcher.py : ContentDispatcher                           *)
(* ====================================================================== *)

Module ContentDispatcher.

Inductive Extractor :=
| PDFExtractor | DOCXExtractor | PPTXExtractor | TXTExtractor | MarkdownExtractor.

(** [self.extractors], in insertion order. *)
Definition extractors : list (string * Extractor) :=
  [ (".pdf", PDFExtractor); (".docx", DOCXExtractor); (".doc", DOCXExtractor);
    (".pptx", PPTXExtractor); (".ppt", PPTXExtractor); (".txt", TXTExtractor);
    (".md", MarkdownExtractor); (".markdown", MarkdownExtractor) ].

(** [d.get(key)] on an insertion-ordered dictionary with distinct keys. *)
Fixpoint lookup_ext (key : string) (d : list (string * Extractor)) : option Extractor :=
  match d with
  | [] => None
  | (k, v) :: d' => if String.eqb key k then Some v else lookup_ext key d'
  end.

(** [dispatch_extractor]: [None] is the [ValueError] for an unsupported
    type. *)
Definition dispatch_extractor (file_path : string) : option Extractor :=
  lookup_ext (PyStr.lower (CompleteIngestionPipeline.path_suffix file_path)) extractors.

Definition is_supported (file_path : string) : bool :=
  CompleteIngestionPipeline.str_in
    (PyStr.lower (CompleteIngestionPipeline.path_suffix file_path))
    (map fst extractors).

End ContentDispatcher.

(* ====================================================================== *)
(** * Statements under test and sample data                                *)
(* ====================================================================== *)

(** The indexes of a chunk sequence run 0, 1, ..., K-1. *)
Definition zero_based (indexes : list nat) : Prop :=
  indexes = seq 0 (length indexes).

(** The indexes of a chunk sequence run 1, 2, ..., K. *)
Definition one_based (indexes : list nat) : Prop :=
  indexes = seq 1 (length indexes).

(** Contiguity from zero, for both chunkers: the sequence built by
    [ChunkingService.chunk_document] (text chunks then visual chunks) and the
    sequence left by [ContentChunker.merge_small_chunks]. *)
Definition chunk_indexes_zero_based : Prop :=
  (forall self text_content visual_analysis,
      zero_based (map ChunkingService.chunk_index
                      (ChunkingService.chunk_document self text_content visual_analysis)))
  /\ (forall chunks min_chunk_size,
         zero_based (map ContentChunker.chunk_index
                         (ContentChunker.merge_small_chunks chunks min_chunk_size))).

(** A chunk of the content chunker holding [s], as [chunk_text] would number
    it at position [i]. *)
Definition sample_chunk (i : nat) (s : string) : ContentChunker.Chunk :=
  {| ContentChunker.id := "chunk_" +:+ PyStr.str_nat (i + 1);
     ContentChunker.content := s;
     ContentChunker.metadata := ∅;
     ContentChunker.chunk_index := i + 1;
     ContentChunker.chunk_size := String.length s;
     ContentChunker.start_char := 0;
     ContentChunker.end_char := len s;
     ContentChunker.image_context := None;
     ContentChunker.has_images := None |}.

(** The [image_context] entry that [_get_chunk_image_context] builds for
    analysis [a] on a chunk. *)
Definition image_ref (chunk : ContentChunker.Chunk) (a : Analysis) : ContentChunker.ImageRef :=
  {| ContentChunker.ref_image_id := image_id a;
     ContentChunker.ref_analysis := analysis a;
     ContentChunker.ref_page_number := page_number a;
     ContentChunker.relevance_score :=
       ContentChunker._calculate_relevance_score
         (PyStr.lower (ContentChunker.content chunk)) (analysis a) |}.

(** Largest relevance score first. *)
Definition sorted_by_relevance (ctx : list ContentChunker.ImageRef) : Prop :=
  Sorted (fun x y => (ContentChunker.relevance_score y <= ContentChunker.relevance_score x)%Q) ctx.

(** Every successful analysis whose score against the chunk is positive is
    in the chunk's context, and the context is sorted. *)
Definition positive_relevance_attached : Prop :=
  forall (chunk : ContentChunker.Chunk) (image_analyses : list Analysis),
    (forall a,
        In a image_analyses -> success a = true ->
        (0 < ContentChunker._calculate_relevance_score
               (ContentChunker.content chunk) (analysis a))%Q ->
        In (image_ref chunk a)
           (ContentChunker._get_chunk_image_context chunk image_analyses))
    /\ sorted_by_relevance (ContentChunker._get_chunk_image_context chunk image_analyses).

(** An analysis whose only word in common with the chunk "zebra" is its
    eleventh. *)
Definition late_word_analysis : Analysis :=
  {| success := true; image_id := "img7";
     analysis := "q1 q2 q3 q4 q5 q6 q7 q8 q9 q10 zebra";
     page_number := 1 |}.

(** An analysis that shares its second word with the chunk "zebra". *)
Definition early_word_analysis : Analysis :=
  {| success := true; image_id := "img8";
     analysis := "Striped Zebra grazing";
     page_number := 2 |}.

(** The contract of the embeddings endpoint: an answer carries one vector
    per text of the batch. *)
Definition one_vector_per_text (client : nat -> list string -> option (list EmbeddingService.Vector)) : Prop :=
  forall k batch vectors, client k batch = Some vectors -> length vectors = length batch.

(** Number of batches for [n] texts in batches of [size]. *)
Definition batch_count (n size : nat) : nat := (n + size - 1) / size.

(** An endpoint that is down. *)
Definition failing_client : nat -> list string -> option (list EmbeddingService.Vector) :=
  fun _ _ => None.

(** An endpoint that fails its first four calls and then answers each text
    with a two-dimensional vector. *)
Definition flaky_client : nat -> list string -> option (list EmbeddingService.Vector) :=
  fun k batch => if k <? 4 then None else Some (map (fun _ => [1%Q; 0%Q]) batch).

(** A union box dimension is below the noise threshold. *)
Definition below_min_size (c : PDFExtractor.coord) : Prop :=
  PDFExtractor.cltb c (PDFExtractor.Fin PDFExtractor.MIN_DRAWING_SIZE) = true.

(** The test of the inner loop for candidate [(j, other)] against anchor
    [drawing]: not yet used, and close to the anchor. *)
Definition joins (drawing : PDFExtractor.Drawing) (threshold : Q) (used : gset nat)
           (candidate : nat * PDFExtractor.Drawing) : bool :=
  negb (bool_decide (fst candidate ∈ used))
  && PDFExtractor._are_bboxes_close (PDFExtractor.get_rect drawing)
                                    (PDFExtractor.get_rect (snd candidate)) threshold.

(** A primitive without a rectangle is in no group. *)
Definition rectless_in_no_group : Prop :=
  forall (drawings : list PDFExtractor.Drawing) (threshold : Q) (d : PDFExtractor.Drawing),
    In d drawings -> PDFExtractor.rect d = PDFExtractor.Falsy ->
    forall g, In g (PDFExtractor._group_drawings_by_proximity drawings threshold) -> ~ In d g.

(** Three primitives: the first two have centres 10 apart, the third lies
    500 to the right of the first. *)
Definition prim_a : PDFExtractor.Drawing :=
  PDFExtractor.mkDrawing (PDFExtractor.HasRect (PDFExtractor.mkRect4 0 0 30 30)) 1.
Definition prim_b : PDFExtractor.Drawing :=
  PDFExtractor.mkDrawing (PDFExtractor.HasRect (PDFExtractor.mkRect4 10 0 40 30)) 2.
Definition prim_far : PDFExtractor.Drawing :=
  PDFExtractor.mkDrawing (PDFExtractor.HasRect (PDFExtractor.mkRect4 500 0 530 30)) 3.






(** A primitive whose ['rect'] is [None]. *)
Definition prim_rectless : PDFExtractor.Drawing :=
  PDFExtractor.mkDrawing PDFExtractor.Falsy 4.

(** A primitive that has no ['rect'] key at all. *)
Definition prim_keyless : PDFExtractor.Drawing :=
  PDFExtractor.mkDrawing PDFExtractor.NoKey 6.

(** A thin rule: 200 wide, 1 high. *)
Definition prim_rule : PDFExtractor.Drawing :=
  PDFExtractor.mkDrawing (PDFExtractor.HasRect (PDFExtractor.mkRect4 0 100 200 101)) 5.

(** A document of two pages.  The first holds one embedded image, a thin
    rule and, far from it, a 30 by 30 figure; the second holds only the
    figure.  The rasteriser always yields a 4 kB image. *)
Definition sample_extractor : PDFExtractor.t := PDFExtractor.mk "temp_images".

Definition sample_raster : PDFExtractor.Raster :=
  PDFExtractor.mkRaster 4096 60 60 "9e107d9d372bb682".

Definition sample_document : list PDFExtractor.Page :=
  [ PDFExtractor.mkPage [PDFExtractor.Decoded sample_raster] [prim_rule; prim_far]
                        (fun _ => PDFExtractor.Rendered sample_raster);
    PDFExtractor.mkPage [] [prim_far] (fun _ => PDFExtractor.Rendered sample_raster) ].


(** Nothing was extracted, chunked, embedded, indexed or stored between two
    states. *)
Definition no_work (before after : CompleteIngestionPipeline.State) : Prop :=
  CompleteIngestionPipeline.trace after = CompleteIngestionPipeline.trace before
  /\ CompleteIngestionPipeline.index after = CompleteIngestionPipeline.index before
  /\ CompleteIngestionPipeline.embedding_effects after
     = CompleteIngestionPipeline.embedding_effects before
  /\ CompleteIngestionPipeline.container after = CompleteIngestionPipeline.container before.



(** A small world: three local files, two of them with the same bytes; every
    collaborator answers.  The digest is a stand-in that is injective. *)
Definition sample_env : CompleteIngestionPipeline.Env :=
  {| CompleteIngestionPipeline.read_bytes :=
       fun p =>
         if String.eqb p "/data/a.txt" then Some "hello world"
         else if String.eqb p "/data/copy_of_a.txt" then Some "hello world"
         else if String.eqb p "uploads/20240101_120000_report.txt" then Some "quarterly report"
         else None;
     CompleteIngestionPipeline.sha256 := fun bytes => "sha256:" +:+ bytes;
     CompleteIngestionPipeline.storage_available := true;
     CompleteIngestionPipeline.process_document :=
       fun _ _ => CompleteIngestionPipeline.DocOk "--- Page 1 --- hello world" 0;
     CompleteIngestionPipeline.chunking_service := ChunkingService.mk 1000 200 None;
     CompleteIngestionPipeline.embedding_service :=
       EmbeddingService.init (fun _ batch => Some (map (fun _ => [1%Q; 0%Q]) batch));
     CompleteIngestionPipeline.upload_documents := fun _ => true;
     CompleteIngestionPipeline.upload_blob := fun _ => true |}.

(** The state the small world is in after [/data/a.txt] has been processed
    once. *)
Definition after_first_run : CompleteIngestionPipeline.State :=
  snd (CompleteIngestionPipeline.process_file_with_storage_check
         sample_env "/data/a.txt" CompleteIngestionPipeline.PyNone false false true
         CompleteIngestionPipeline.initial_state).

(** ** Auxiliary notions used in the proofs *)

(** A chunk is large enough for threshold [m]. *)
Definition large_enough (m : Z) (c : ContentChunker.Chunk) : Prop :=
  (m <= len (ContentChunker.content c))%Z.

(** The batch loop run over the first [m] batch starts only. *)
Definition first_batches_of (self : EmbeddingService.t) (texts : list string) (m : nat)
           (e : EmbeddingService.Effects)
  : list EmbeddingService.Vector * EmbeddingService.Effects :=
  EmbeddingService.batch_loop self texts
    (map (fun k => k * EmbeddingService.batch_size self) (seq 0 m)) e.

(** Every used primitive without a rectangle already has its own group. *)
Definition rectless_settled (drawings : list PDFExtractor.Drawing) (used : gset nat)
           (groups : list (list PDFExtractor.Drawing)) : Prop :=
  forall j o,
    j ∈ used -> drawings !! j = Some o -> PDFExtractor.get_rect o = None -> In [o] groups.

(** The log of [after] continues the log of [before]. *)
Definition extends (before after : CompleteIngestionPipeline.State) : Prop :=
  exists rest,
    CompleteIngestionPipeline.trace after = CompleteIngestionPipeline.trace before ++ rest.

(** ** Notions used by the further properties *)

(** No character of [s] is white space. *)
Fixpoint no_space (s : string) : bool :=
  match s with
  | EmptyString => true
  | String c s' => negb (PyStr.isspace c) && no_space s'
  end.

(** A word as [split] produces them: non-empty, without white space. *)
Definition is_word (w : string) : Prop := w <> "" /\ no_space w = true.

(** A chunk of the fallback splitter fits the chunk size, unless it is a
    single word. *)
Definition fits_or_single (size : Z) (chunk : string) : Prop :=
  length (PyStr.split chunk) <= 1 \/ (len chunk <= size)%Z.

(** The pending words fit: their joined length is within the running
    count, which is within the size once there are two words. *)
Definition pending_fits (size : Z) (current : list string) (cl : Z) : Prop :=
  (current <> [] -> (len (PyStr.join " " current) <= cl)%Z)
  /\ (2 <= length current -> (cl <= size)%Z)
  /\ (0 <= cl)%Z.

(** Total length of the summaries that [_integrate_image_analyses] inserts. *)
Definition summaries_length (image_analyses : list Analysis) : nat :=
  fold_right
    (fun a acc =>
       (if ContentChunker.integrable a
        then String.length (ContentChunker.image_summary a) else 0) + acc)
    0 image_analyses.

(** A chunk as [chunk_with_image_context] leaves it when nothing is
    attached. *)
Definition without_images (chunk : ContentChunker.Chunk) : ContentChunker.Chunk :=
  {| ContentChunker.id := ContentChunker.id chunk;
     ContentChunker.content := ContentChunker.content chunk;
     ContentChunker.metadata := ContentChunker.metadata chunk;
     ContentChunker.chunk_index := ContentChunker.chunk_index chunk;
     ContentChunker.chunk_size := ContentChunker.chunk_size chunk;
     ContentChunker.start_char := ContentChunker.start_char chunk;
     ContentChunker.end_char := ContentChunker.end_char chunk;
     ContentChunker.image_context := Some [];
     ContentChunker.has_images := Some false |}.

(** A text with two page markers. *)
Definition two_page_text : string :=
  "--- Page 1 --- alpha beta --- Page 2 --- gamma".

(** The vocabulary of content tags. *)
Definition CONTENT_TAGS : list string := ["research"; "paper"; "whitepaper"; "report"].

(** Number of files a pipeline object has accounted for. *)
Definition accounted (s : CompleteIngestionPipeline.State) : nat :=
  length (CompleteIngestionPipeline.processed_files s)
  + length (CompleteIngestionPipeline.skipped_files s)
  + length (CompleteIngestionPipeline.failed_files s).

(** A run that wrote nothing and recorded a failure for the file. *)
Definition failed_run (file_path : string) (s : CompleteIngestionPipeline.State)
           (r : CompleteIngestionPipeline.Result) (s' : CompleteIngestionPipeline.State) : Prop :=
  CompleteIngestionPipeline.res_success r = false
  /\ CompleteIngestionPipeline.res_status r = None
  /\ CompleteIngestionPipeline.blob_storage_uploaded r = None
  /\ CompleteIngestionPipeline.index s' = CompleteIngestionPipeline.index s
  /\ CompleteIngestionPipeline.container s' = CompleteIngestionPipeline.container s
  /\ CompleteIngestionPipeline.processed_files s' = CompleteIngestionPipeline.processed_files s
  /\ CompleteIngestionPipeline.skipped_files s' = CompleteIngestionPipeline.skipped_files s
  /\ exists error,
      CompleteIngestionPipeline.failed_files s'
      = CompleteIngestionPipeline.failed_files s ++ [(file_path, error)].

(** A run that was skipped. *)
Definition skipped_run (env : CompleteIngestionPipeline.Env) (file_path : string)
           (force_reprocess : bool) (s : CompleteIngestionPipeline.State)
           (r : CompleteIngestionPipeline.Result) (s' : CompleteIngestionPipeline.State) : Prop :=
  r = CompleteIngestionPipeline.skipped_result file_path
  /\ s' = CompleteIngestionPipeline.add_skipped file_path s
  /\ force_reprocess = false
  /\ CompleteIngestionPipeline.storage_available env = true
  /\ is_Some (CompleteIngestionPipeline.container s
                !! CompleteIngestionPipeline.path_name file_path).

(** A run that processed the file: the index received one document per
    chunk, and the blob store at most one blob. *)
Definition processed_run (env : CompleteIngestionPipeline.Env)
           (s : CompleteIngestionPipeline.State)
           (r : CompleteIngestionPipeline.Result) (s' : CompleteIngestionPipeline.State) : Prop :=
  CompleteIngestionPipeline.res_success r = true
  /\ CompleteIngestionPipeline.res_status r = None
  /\ CompleteIngestionPipeline.vector_storage_success r = Some true
  /\ (exists n docs,
         0 < n
         /\ CompleteIngestionPipeline.chunks_created r = Some n
         /\ CompleteIngestionPipeline.chunks_uploaded r = Some n
         /\ length docs = n
         /\ CompleteIngestionPipeline.index s' = CompleteIngestionPipeline.index s ++ docs)
  /\ CompleteIngestionPipeline.processed_files s'
     = CompleteIngestionPipeline.processed_files s ++ [r]
  /\ CompleteIngestionPipeline.skipped_files s' = CompleteIngestionPipeline.skipped_files s
  /\ CompleteIngestionPipeline.failed_files s' = CompleteIngestionPipeline.failed_files s
  /\ ((CompleteIngestionPipeline.blob_storage_uploaded r = Some false
       /\ CompleteIngestionPipeline.container s' = CompleteIngestionPipeline.container s)
      \/ (CompleteIngestionPipeline.blob_storage_uploaded r = Some true
          /\ CompleteIngestionPipeline.storage_available env = true
          /\ exists name meta,
              CompleteIngestionPipeline.container s'
              = <[name := meta]> (CompleteIngestionPipeline.container s))).

(** The index holds what the processed files report, and every processed
    file was indexed in full. *)
Definition index_matches (s : CompleteIngestionPipeline.State) : Prop :=
  length (CompleteIngestionPipeline.index s)
  = CompleteIngestionPipeline.sum_key CompleteIngestionPipeline.chunks_uploaded
      (CompleteIngestionPipeline.processed_files s)
  /\ Forall (fun r =>
               CompleteIngestionPipeline.vector_storage_success r = Some true
               /\ CompleteIngestionPipeline.chunks_created r
                  = CompleteIngestionPipeline.chunks_uploaded r)
            (CompleteIngestionPipeline.processed_files s).

(** The small world with the blob store unreachable. *)
Definition offline_env : CompleteIngestionPipeline.Env :=
  {| CompleteIngestionPipeline.read_bytes := CompleteIngestionPipeline.read_bytes sample_env;
     CompleteIngestionPipeline.sha256 := CompleteIngestionPipeline.sha256 sample_env;
     CompleteIngestionPipeline.storage_available := false;
     CompleteIngestionPipeline.process_document :=
       CompleteIngestionPipeline.process_document sample_env;
     CompleteIngestionPipeline.chunking_service :=
       CompleteIngestionPipeline.chunking_service sample_env;
     CompleteIngestionPipeline.embedding_service :=
       CompleteIngestionPipeline.embedding_service sample_env;
     CompleteIngestionPipeline.upload_documents := fun _ => true;
     CompleteIngestionPipeline.upload_blob := fun _ => true |}.


(** The primitives whose index is in [used], in page order. *)
Definition picked (drawings : list PDFExtractor.Drawing) (used : gset nat)
  : list PDFExtractor.Drawing :=
  map snd (List.filter (fun p => bool_decide (fst p ∈ used)) (enumerate drawings)).

(** [a <= b] on coordinates that may be infinite. *)
Definition cle (a b : PDFExtractor.coord) : Prop := PDFExtractor.cltb b a = false.

(** The box [b] covers the rectangle [r]. *)
Definition encloses (b : PDFExtractor.Box) (r : PDFExtractor.Rect4) : Prop :=
  cle (PDFExtractor.bx0 b) (PDFExtractor.Fin (PDFExtractor.x0 r))
  /\ cle (PDFExtractor.by0 b) (PDFExtractor.Fin (PDFExtractor.y0 r))
  /\ cle (PDFExtractor.Fin (PDFExtractor.x1 r)) (PDFExtractor.bx1 b)
  /\ cle (PDFExtractor.Fin (PDFExtractor.y1 r)) (PDFExtractor.by1 b).

(** The box [b'] covers the box [b]. *)
Definition box_le (b b' : PDFExtractor.Box) : Prop :=
  cle (PDFExtractor.bx0 b') (PDFExtractor.bx0 b)
  /\ cle (PDFExtractor.by0 b') (PDFExtractor.by0 b)
  /\ cle (PDFExtractor.bx1 b) (PDFExtractor.bx1 b')
  /\ cle (PDFExtractor.by1 b) (PDFExtractor.by1 b').

(** The loop body of [_get_drawings_bbox]. *)
Definition union_step (b : PDFExtractor.Box) (drawing : PDFExtractor.Drawing)
  : PDFExtractor.Box :=
  match PDFExtractor.get_rect drawing with
  | Some r =>
      PDFExtractor.mkBox
        (PDFExtractor.cmin (PDFExtractor.bx0 b) (PDFExtractor.Fin (PDFExtractor.x0 r)))
        (PDFExtractor.cmin (PDFExtractor.by0 b) (PDFExtractor.Fin (PDFExtractor.y0 r)))
        (PDFExtractor.cmax (PDFExtractor.bx1 b) (PDFExtractor.Fin (PDFExtractor.x1 r)))
        (PDFExtractor.cmax (PDFExtractor.by1 b) (PDFExtractor.Fin (PDFExtractor.y1 r)))
  | None => b
  end.

(** An outcome of one loop turn that returns an element also records the
    file the element points to. *)
Definition tracked (o : option PDFExtractor.VisualElement * option string) : Prop :=
  forall el, fst o = Some el -> snd o = Some (PDFExtractor.path el).

(** What is relied on of the rounding to doubles: it keeps the order, and
    it leaves the integers from 0 to 2^53 as they are. *)
Definition rounding (fl : Q -> Q) : Prop :=
  (forall a b, (a <= b)%Q -> (fl a <= fl b)%Q)
  /\ (forall z, (0 <= z <= 2 ^ 53)%Z -> (fl (inject_Z z) == inject_Z z)%Q).

(** A rounding with ten binary digits after the point. *)
Definition round_1024 (q : Q) : Q := Qfloor (q * 1024 + (1 # 2)) # 1024.

(** Two chunks of three and of four characters. *)
Definition short_chunks : list ContentChunker.Chunk :=
  [sample_chunk 0 "abc"; sample_chunk 1 "abcd"].

(** The small world's disk, on which [/data/locked.txt] does not open. *)
Definition sample_opens (p : string) : bool := negb (String.eqb p "/data/locked.txt").

(** The small world with a file that exists and does not open. *)
Definition locked_env : CompleteIngestionPipeline.Env :=
  {| CompleteIngestionPipeline.read_bytes :=
       fun p => if String.eqb p "/data/locked.txt" then Some "secret"
                else CompleteIngestionPipeline.read_bytes sample_env p;
     CompleteIngestionPipeline.sha256 := CompleteIngestionPipeline.sha256 sample_env;
     CompleteIngestionPipeline.storage_available := true;
     CompleteIngestionPipeline.process_document :=
       CompleteIngestionPipeline.process_document sample_env;
     CompleteIngestionPipeline.chunking_service :=
       CompleteIngestionPipeline.chunking_service sample_env;
     CompleteIngestionPipeline.embedding_service :=
       CompleteIngestionPipeline.embedding_service sample_env;
     CompleteIngestionPipeline.upload_documents := fun _ => true;
     CompleteIngestionPipeline.upload_blob := fun _ => true |}.

(* ====================================================================== *)
(** * Properties                                                           *)
(* ====================================================================== *)

(** ** Arithmetic of [true_div] *)

Lemma Zpos_of_nat (b : nat) : (0 < b)%nat -> Z.pos (Pos.of_nat b) = Z.of_nat b.
Proof.
  intros Hb. rewrite <- positive_nat_Z, Nat2Pos.id by lia. reflexivity.
Qed.

Lemma true_div_range (a b : nat) :
  (a <= b)%nat -> (0 < b)%nat -> (0 <= true_div a b)%Q /\ (true_div a b <= 1)%Q.
Proof.
  intros Hab Hb. unfold true_div.
  split.
  - rewrite Qred_correct. unfold Qle; simpl. lia.
  - rewrite Qred_correct. unfold Qle; simpl.
    rewrite Zpos_of_nat by exact Hb. lia.
Qed.

Lemma true_div_zero (b : nat) : true_div 0 b = 0%Q.
Proof.
  unfold true_div. change 0%Q with (Qred 0).
  apply Qred_complete. unfold Qeq; simpl. reflexivity.
Qed.

Lemma true_div_same (b : nat) : (0 < b)%nat -> true_div b b = 1%Q.
Proof.
  intros Hb. unfold true_div. change 1%Q with (Qred 1).
  apply Qred_complete. unfold Qeq; simpl.
  rewrite Zpos_of_nat by exact Hb. lia.
Qed.

(** ** ContentChunker._calculate_relevance_score *)

Section Relevance.
Import ContentChunker.

(** The score, once both word sets are known to be inhabited. *)
Lemma score_inhabited (c a : string) :
  word_set c <> ∅ -> word_set a <> ∅ ->
  _calculate_relevance_score c a =
  true_div (size (word_set c ∩ word_set a)) (size (word_set c ∪ word_set a))
  /\ (0 < size (word_set c ∪ word_set a))%nat.
Proof.
  intros Hc Ha. unfold _calculate_relevance_score.
  rewrite !bool_decide_eq_false_2 by assumption. simpl.
  assert (Hpos : (0 < size (word_set c ∪ word_set a))%nat).
  { destruct (decide (size (word_set c ∪ word_set a) = 0)) as [Hz|Hz]; [|lia].
    apply size_empty_iff in Hz. exfalso. apply Hc.
    apply leibniz_equiv. apply empty_union in Hz. apply Hz. }
  split; [|exact Hpos].
  destruct (Nat.ltb_spec 0 (size (word_set c ∪ word_set a))); [reflexivity|lia].
Qed.

Lemma score_empty (c a : string) :
  word_set c = ∅ \/ word_set a = ∅ -> _calculate_relevance_score c a = 0%Q.
Proof.
  intros H. unfold _calculate_relevance_score.
  destruct (bool_decide_reflect (word_set c = ∅)); [reflexivity|].
  destruct (bool_decide_reflect (word_set a = ∅)); [reflexivity|].
  tauto.
Qed.

Lemma score_disjoint (c a : string) :
  word_set c ∩ word_set a = ∅ -> _calculate_relevance_score c a = 0%Q.
Proof.
  intros Hdisj.
  destruct (decide (word_set c = ∅)) as [Hc|Hc]; [apply score_empty; left; exact Hc|].
  destruct (decide (word_set a = ∅)) as [Ha|Ha]; [apply score_empty; right; exact Ha|].
  destruct (score_inhabited c a Hc Ha) as [-> _].
  rewrite Hdisj, size_empty. apply true_div_zero.
Qed.

(** C5. For every chunk text and analysis text the relevance score lies in
    [0,1]; it is 0 when the two lower-cased word sets have no word in common,
    and 1 when they are the same non-empty set. *)
Theorem relevance_score_bounds (chunk_content image_analysis : string) :
  ((0 <= _calculate_relevance_score chunk_content image_analysis)%Q
   /\ (_calculate_relevance_score chunk_content image_analysis <= 1)%Q)
  /\ (word_set chunk_content ∩ word_set image_analysis = ∅ ->
      _calculate_relevance_score chunk_content image_analysis = 0%Q)
  /\ (word_set chunk_content = word_set image_analysis ->
      word_set chunk_content <> ∅ ->
      _calculate_relevance_score chunk_content image_analysis = 1%Q).
Proof.
  destruct (decide (word_set chunk_content = ∅)) as [Hc|Hc].
  { rewrite score_empty by (left; exact Hc).
    repeat split; try reflexivity; try (intros; contradiction); unfold Qle; simpl; lia. }
  destruct (decide (word_set image_analysis = ∅)) as [Ha|Ha].
  { rewrite score_empty by (right; exact Ha).
    repeat split; try reflexivity; try congruence; unfold Qle; simpl; lia. }
  destruct (score_inhabited chunk_content image_analysis Hc Ha) as [-> Hpos].
  split; [|split].
  - apply true_div_range; [|exact Hpos].
    apply subseteq_size.
    transitivity (word_set chunk_content);
      [apply intersection_subseteq_l | apply union_subseteq_l].
  - intros Hdisj. rewrite <- (score_disjoint chunk_content image_analysis Hdisj).
    symmetry. apply score_inhabited; assumption.
  - intros Heq _. rewrite <- Heq.
    rewrite (idemp_L (∩) (word_set chunk_content)), (idemp_L (∪) (word_set chunk_content)).
    apply true_div_same.
    destruct (decide (size (word_set chunk_content) = 0)) as [Hz|Hz]; [|lia].
    apply size_empty_iff in Hz. exfalso. apply Hc. apply leibniz_equiv. exact Hz.
Qed.

(** The three parts of [relevance_score_bounds], each met by a pair of texts. *)
Lemma relevance_score_bounds_witness :
  _calculate_relevance_score "Red fox" "blue whale" = 0%Q
  /\ _calculate_relevance_score "Red fox" "FOX  red" = 1%Q.
Proof.
  split.
  - apply (relevance_score_bounds "Red fox" "blue whale"). vm_compute. reflexivity.
  - apply (relevance_score_bounds "Red fox" "FOX  red"); vm_compute; [reflexivity | discriminate].
Defined.

End Relevance.

(** ** Numbering by [imap] *)

Lemma imap_index_seq {A B} (g : B -> nat) (l : list A) :
  forall (f : nat -> A -> B) (k : nat),
    (forall i x, g (f i x) = k + i) -> map g (imap f l) = seq k (length l).
Proof.
  induction l as [|x l IH]; intros f k Hf; simpl; [reflexivity|].
  rewrite Hf, Nat.add_0_r. f_equal.
  apply IH. intros i y. unfold compose. rewrite Hf. lia.
Qed.

Lemma imap_project {A B C} (g : B -> C) (h : A -> C) (l : list A) :
  forall (f : nat -> A -> B),
    (forall i x, g (f i x) = h x) -> map g (imap f l) = map h l.
Proof.
  induction l as [|x l IH]; intros f Hf; simpl; [reflexivity|].
  rewrite Hf. f_equal. apply IH. intros i y. apply Hf.
Qed.

(** ** ContentChunker.merge_small_chunks *)

Section Merge.
Import ContentChunker.

Lemma merge_loop_shape (m : Z) (rest : list Chunk) :
  forall cur acc,
    Forall (large_enough m) acc ->
    exists init lst,
      merge_loop m cur rest acc = init ++ [lst] /\ Forall (large_enough m) init.
Proof.
  induction rest as [|next rest IH]; intros cur acc Hacc; simpl.
  - exists acc, cur. split; [reflexivity | exact Hacc].
  - destruct (Z.ltb_spec (len (content cur)) m) as [Hsmall|Hbig].
    + apply IH. exact Hacc.
    + apply IH. apply Forall_app. split; [exact Hacc|].
      constructor; [exact Hbig | constructor].
Qed.

(** Appending one more input chunk: it is absorbed by the last output chunk
    when that one is short, and otherwise follows it unchanged. *)
Lemma merge_loop_snoc (m : Z) (c : Chunk) (rest : list Chunk) :
  forall cur acc init lst,
    merge_loop m cur rest acc = init ++ [lst] ->
    merge_loop m cur (rest ++ [c]) acc =
    if (len (content lst) <? m)%Z then init ++ [absorb lst c] else init ++ [lst; c].
Proof.
  induction rest as [|next rest IH]; intros cur acc init lst Hout; simpl in *.
  - apply app_inj_tail in Hout as [-> ->].
    destruct (len (content lst) <? m)%Z; [reflexivity|].
    rewrite <- app_assoc. reflexivity.
  - destruct (len (content cur) <? m)%Z; apply IH; exact Hout.
Qed.

Lemma renumber_content (l : list Chunk) : map content (renumber l) = map content l.
Proof. unfold renumber. apply imap_project. reflexivity. Qed.

Lemma renumber_length (l : list Chunk) : length (renumber l) = length l.
Proof. unfold renumber. apply length_imap. Qed.

Lemma renumber_lookup (l : list Chunk) (i : nat) (c : Chunk) :
  renumber l !! i = Some c -> exists c0, l !! i = Some c0 /\ content c = content c0.
Proof.
  unfold renumber. rewrite list_lookup_imap.
  destruct (l !! i) as [c0|]; simpl; [|discriminate].
  intros [= <-]. exists c0. split; reflexivity.
Qed.

(** C10. On a non-empty chunk list, for any threshold, the result of
    [merge_small_chunks] is non-empty; every chunk of it except the last has
    a content at least as long as the threshold; and a trailing input chunk
    that follows output chunks all long enough (or follows nothing) comes out
    with its content unchanged, whatever its length. *)
Theorem merge_small_chunks_sizes (chunks : list Chunk) (min_chunk_size : Z) :
  chunks <> [] ->
  merge_small_chunks chunks min_chunk_size <> []
  /\ (forall i c,
         merge_small_chunks chunks min_chunk_size !! i = Some c ->
         i + 1 < length (merge_small_chunks chunks min_chunk_size) ->
         (min_chunk_size <= len (content c))%Z)
  /\ (forall before last_chunk,
         chunks = before ++ [last_chunk] ->
         Forall (large_enough min_chunk_size) (merge_small_chunks before min_chunk_size) ->
         map content (merge_small_chunks chunks min_chunk_size)
         = map content (merge_small_chunks before min_chunk_size) ++ [content last_chunk]).
Proof.
  intros Hne. destruct chunks as [|first rest]; [contradiction|]. clear Hne.
  unfold merge_small_chunks at 1 2 3 4.
  destruct (merge_loop_shape min_chunk_size rest first [] (Forall_nil_2 _))
    as (init & lst & Hout & Hinit).
  split; [|split].
  - intros Hnil. apply (f_equal (@length Chunk)) in Hnil.
    rewrite renumber_length, Hout, length_app in Hnil. simpl in Hnil. lia.
  - intros i c Hi Hlt.
    rewrite renumber_length, Hout, length_app in Hlt. simpl in Hlt.
    apply renumber_lookup in Hi as (c0 & Hc0 & Hcontent).
    rewrite Hout, lookup_app_l in Hc0 by lia.
    rewrite Hcontent. exact (proj1 (Forall_lookup _ _) Hinit i c0 Hc0).
  - intros before last_chunk Heq Hbig.
    destruct before as [|b0 before'].
    + simpl in Heq. injection Heq as -> ->. reflexivity.
    + simpl in Heq. injection Heq as -> ->.
      unfold merge_small_chunks in *.
      destruct (merge_loop_shape min_chunk_size before' b0 [] (Forall_nil_2 _))
        as (init' & lst' & Hout' & _).
      rewrite renumber_content.
      rewrite (merge_loop_snoc _ _ _ _ _ _ _ Hout').
      assert (Hlst : large_enough min_chunk_size lst').
      { assert (Hl : renumber (merge_loop min_chunk_size b0 before' [])
                       !! length init' = Some
                 {| id := "chunk_" +:+ PyStr.str_nat (length init' + 1);
                    content := content lst'; metadata := metadata lst';
                    chunk_index := length init' + 1; chunk_size := chunk_size lst';
                    start_char := start_char lst'; end_char := end_char lst';
                    image_context := image_context lst';
                    has_images := has_images lst' |}).
        { unfold renumber. rewrite list_lookup_imap, Hout'.
          rewrite list_lookup_middle by reflexivity. reflexivity. }
        exact (proj1 (Forall_lookup _ _) Hbig _ _ Hl). }
      unfold large_enough in Hlst.
      destruct (Z.ltb_spec (len (content lst')) min_chunk_size) as [Hs|_]; [lia|].
      rewrite renumber_content, Hout', !map_app. simpl.
      rewrite <- app_assoc. reflexivity.
Qed.

(** [merge_small_chunks_sizes] on three chunks with threshold 3: the short
    first chunk is merged forward, the short trailing one is kept. *)
Lemma merge_small_chunks_sizes_witness :
  map content (merge_small_chunks
                 [sample_chunk 0 "ab"; sample_chunk 1 "cdefgh"; sample_chunk 2 "x"] 3)
  = map content (merge_small_chunks [sample_chunk 0 "ab"; sample_chunk 1 "cdefgh"] 3)
    ++ ["x"].
Proof.
  refine (proj2 (proj2 (merge_small_chunks_sizes
            [sample_chunk 0 "ab"; sample_chunk 1 "cdefgh"; sample_chunk 2 "x"] 3 _))
            [sample_chunk 0 "ab"; sample_chunk 1 "cdefgh"] (sample_chunk 2 "x") _ _).
  - discriminate.
  - reflexivity.
  - repeat constructor. unfold large_enough. vm_compute. discriminate.
Defined.

End Merge.

(** ** Chunk numbering *)

Section Numbering.

Lemma chunk_text_one_based (self : ContentChunker.t) (text_content : string)
      (md : gmap string string) :
  one_based (map ContentChunker.chunk_index
                 (ContentChunker.chunk_text self text_content md)).
Proof.
  unfold one_based, ContentChunker.chunk_text.
  destruct (ContentChunker.text_splitter self text_content) as [pieces|]; [|reflexivity].
  rewrite length_map, length_imap.
  apply imap_index_seq. intros i x. simpl. lia.
Qed.

Lemma merge_small_chunks_one_based (chunks : list ContentChunker.Chunk) (m : Z) :
  one_based (map ContentChunker.chunk_index (ContentChunker.merge_small_chunks chunks m)).
Proof.
  unfold one_based, ContentChunker.merge_small_chunks.
  destruct chunks as [|first rest]; [reflexivity|].
  unfold ContentChunker.renumber.
  rewrite length_map, length_imap.
  apply imap_index_seq. intros i x. simpl. lia.
Qed.

(** The visual loop only appends: one chunk per analysis. *)
Lemma visual_loop_appends (todo : list (nat * Analysis)) :
  forall chunks,
  exists visual_part,
    fold_left (fun chunks '(i, a) => chunks ++ [ChunkingService.visual_chunk chunks i a])
              todo chunks = chunks ++ visual_part
    /\ length visual_part = length todo.
Proof.
  induction todo as [|[i a] todo IH]; intros chunks; simpl.
  - exists []. rewrite app_nil_r. split; reflexivity.
  - destruct (IH (chunks ++ [ChunkingService.visual_chunk chunks i a]))
      as (vp & Heq & Hlen).
    exists (ChunkingService.visual_chunk chunks i a :: vp).
    rewrite Heq, <- app_assoc. simpl. split; [reflexivity | lia].
Qed.

Lemma text_chunks_zero_based (pieces : list string) :
  map ChunkingService.chunk_index (imap ChunkingService.text_chunk pieces)
  = seq 0 (length pieces).
Proof. apply imap_index_seq. intros i x. reflexivity. Qed.

(** C3 (as amended). Chunk indexes are consecutive, with no gaps: the content
    chunker numbers its chunks 1..K, both in [chunk_text] and after
    [merge_small_chunks]; the chunking service numbers its text chunks
    0..n-1, the visual chunks follow them, and with at most one visual
    analysis the whole sequence is 0..K-1. *)
Theorem chunk_indexes_contiguous :
  (forall self text_content md,
      one_based (map ContentChunker.chunk_index
                     (ContentChunker.chunk_text self text_content md)))
  /\ (forall chunks min_chunk_size,
         one_based (map ContentChunker.chunk_index
                        (ContentChunker.merge_small_chunks chunks min_chunk_size)))
  /\ (forall self text_content visual_analysis,
         exists text_part visual_part,
           ChunkingService.chunk_document self text_content visual_analysis
           = text_part ++ visual_part
           /\ length visual_part = length visual_analysis
           /\ Forall (fun c => ChunkingService.chunk_type c = ChunkingService.text) text_part
           /\ zero_based (map ChunkingService.chunk_index text_part)
           /\ (length visual_analysis <= 1 ->
               zero_based (map ChunkingService.chunk_index
                               (ChunkingService.chunk_document
                                  self text_content visual_analysis)))).
Proof.
  split; [exact chunk_text_one_based|].
  split; [exact merge_small_chunks_one_based|].
  intros self text_content visual_analysis.
  unfold ChunkingService.chunk_document.
  set (pieces := match ChunkingService.splitter self with
                 | Some split_text => split_text text_content
                 | None => ChunkingService._basic_text_split self text_content
                 end).
  destruct (visual_loop_appends (enumerate visual_analysis)
              (imap ChunkingService.text_chunk pieces)) as (vp & Heq & Hlen).
  exists (imap ChunkingService.text_chunk pieces), vp.
  split; [exact Heq|].
  split; [rewrite Hlen; unfold enumerate; apply length_imap|].
  split.
  { apply Forall_lookup. intros i c. rewrite list_lookup_imap.
    destruct (pieces !! i); simpl; [|discriminate]. intros [= <-]. reflexivity. }
  split.
  { unfold zero_based. rewrite length_map, length_imap. apply text_chunks_zero_based. }
  intros Hle. unfold zero_based.
  destruct visual_analysis as [|a [|b rest]]; simpl in Hle; [| |lia].
  - cbn [enumerate imap fold_left].
    rewrite length_map, length_imap. apply text_chunks_zero_based.
  - cbn [enumerate imap fold_left].
    rewrite length_map, map_app, length_app, length_imap. cbn [map length].
    rewrite text_chunks_zero_based.
    unfold ChunkingService.visual_chunk; cbn [ChunkingService.chunk_index].
    rewrite length_imap, Nat.add_0_r, Nat.add_1_r, seq_S. reflexivity.
Qed.

(** [chunk_indexes_contiguous] at a text of two pieces with one visual
    analysis: the indexes are 0, 1, 2. *)
Lemma chunk_indexes_contiguous_witness :
  zero_based (map ChunkingService.chunk_index
                  (ChunkingService.chunk_document
                     (ChunkingService.mk 1000 200 (Some (fun _ => ["intro"; "body"])))
                     "intro body" [mkAnalysis true "img1" "a bar chart" 1])).
Proof.
  destruct (proj2 (proj2 chunk_indexes_contiguous)
              (ChunkingService.mk 1000 200 (Some (fun _ => ["intro"; "body"])))
              "intro body" [mkAnalysis true "img1" "a bar chart" 1])
    as (tp & vp & _ & _ & _ & _ & H).
  apply H. simpl. lia.
Defined.

(** C3 (as stated) fails: a single chunk passed through
    [merge_small_chunks] carries index 1, not 0. *)
Lemma chunk_indexes_zero_based_counterexample : ~ chunk_indexes_zero_based.
Proof.
  intros [_ Hmerge].
  specialize (Hmerge [sample_chunk 0 "only chunk"] 200%Z).
  unfold zero_based in Hmerge. vm_compute in Hmerge. discriminate Hmerge.
Qed.

(** With two visual analyses the second visual chunk skips an index. *)
Example chunk_document_two_visuals :
  map ChunkingService.chunk_index
      (ChunkingService.chunk_document
         (ChunkingService.mk 1000 200 (Some (fun _ => ["only text chunk"])))
         "only text chunk"
         [mkAnalysis true "img1" "a chart" 1; mkAnalysis true "img2" "a table" 1])
  = [0; 1; 3].
Proof. reflexivity. Qed.

End Numbering.

(** ** Strings: append, prefixes, substrings, words *)

Lemma str_app_nil_l (s : string) : "" +:+ s = s.
Proof. reflexivity. Qed.

Lemma str_app_cons (c : ascii) (s t : string) : String c s +:+ t = String c (s +:+ t).
Proof. reflexivity. Qed.

Lemma str_app_nil_r (s : string) : s +:+ "" = s.
Proof.
  induction s as [|c s IH]; [reflexivity|].
  rewrite str_app_cons, IH. reflexivity.
Qed.

Lemma str_app_assoc (a b c : string) : (a +:+ b) +:+ c = a +:+ (b +:+ c).
Proof.
  induction a as [|x a IH]; [reflexivity|].
  rewrite !str_app_cons, IH. reflexivity.
Qed.

Lemma startswith_app (n post : string) : PyStr.startswith n (n +:+ post) = true.
Proof.
  induction n as [|c n IH]; [reflexivity|].
  rewrite str_app_cons. simpl. rewrite Ascii.eqb_refl. exact IH.
Qed.

Lemma contains_occurrence (n pre post : string) :
  PyStr.contains n (pre +:+ n +:+ post) = true.
Proof.
  induction pre as [|c pre IH].
  - rewrite str_app_nil_l.
    destruct (n +:+ post) eqn:E; simpl; rewrite <- E, startswith_app; reflexivity.
  - rewrite str_app_cons. simpl. rewrite IH. apply orb_true_r.
Qed.

(** Every word that [split] returns occurs in the string it was cut from. *)
Lemma split_from_occurs (s : string) :
  forall cur w,
    In w (PyStr.split_from cur s) ->
    exists pre post, cur +:+ s = pre +:+ w +:+ post.
Proof.
  induction s as [|c s IH]; intros cur w Hin; simpl in Hin.
  - destruct (String.eqb cur ""); simpl in Hin; [contradiction|].
    destruct Hin as [<-|[]]. exists "", "". reflexivity.
  - destruct (PyStr.isspace c).
    + assert (Hrest : In w (PyStr.split_from "" s) ->
                      exists pre post, cur +:+ String c s = pre +:+ w +:+ post).
      { intros H. apply IH in H as (pre & post & Heq).
        rewrite str_app_nil_l in Heq.
        exists (cur +:+ String c pre), post.
        rewrite str_app_assoc, str_app_cons, Heq. reflexivity. }
      destruct (String.eqb cur ""); [exact (Hrest Hin)|].
      destruct Hin as [<-|Hin]; [|exact (Hrest Hin)].
      exists "", (String c s). reflexivity.
    + apply IH in Hin as (pre & post & Heq).
      exists pre, post. rewrite <- Heq, str_app_assoc. reflexivity.
Qed.

Lemma split_word_contained (s w : string) :
  In w (PyStr.split s) -> PyStr.contains w s = true.
Proof.
  intros Hin. apply split_from_occurs in Hin as (pre & post & Heq).
  rewrite str_app_nil_l in Heq. rewrite Heq. apply contains_occurrence.
Qed.

Lemma lower_char_idempotent (c : ascii) :
  PyStr.lower_char (PyStr.lower_char c) = PyStr.lower_char c.
Proof. destruct c as [[] [] [] [] [] [] [] []]; reflexivity. Qed.

Lemma lower_idempotent (s : string) : PyStr.lower (PyStr.lower s) = PyStr.lower s.
Proof.
  induction s as [|c s IH]; simpl; [reflexivity|].
  rewrite lower_char_idempotent, IH. reflexivity.
Qed.

(** ** ContentChunker._get_chunk_image_context *)

Section ImageContext.
Import ContentChunker.

Lemma word_set_lower (s : string) : word_set (PyStr.lower s) = word_set s.
Proof. unfold word_set. rewrite lower_idempotent. reflexivity. Qed.

Lemma in_word_set (w s : string) : w ∈ word_set s <-> In w (PyStr.split (PyStr.lower s)).
Proof. unfold word_set. rewrite elem_of_list_to_set. apply list_elem_of_In. Qed.

Lemma score_lower (c a : string) :
  _calculate_relevance_score (PyStr.lower c) a = _calculate_relevance_score c a.
Proof. unfold _calculate_relevance_score. rewrite word_set_lower. reflexivity. Qed.

Lemma true_div_pos (a b : nat) : (0 < a)%nat -> (0 < true_div a b)%Q.
Proof.
  intros Ha. unfold true_div. rewrite Qred_correct. unfold Qlt; simpl. lia.
Qed.

(** A common word makes the score positive, and conversely. *)
Lemma score_positive_iff (c a : string) :
  (0 < _calculate_relevance_score c a)%Q <-> exists w, w ∈ word_set c /\ w ∈ word_set a.
Proof.
  split.
  - intros Hpos.
    destruct (set_choose_or_empty (word_set c ∩ word_set a)) as [[w Hw]|Hempty].
    + exists w. apply elem_of_intersection in Hw. exact Hw.
    + apply leibniz_equiv in Hempty.
      rewrite (score_disjoint c a Hempty) in Hpos.
      exfalso. revert Hpos. apply Qlt_irrefl.
  - intros (w & Hc & Ha).
    assert (Hcne : word_set c <> ∅) by (intros E; rewrite E in Hc; exact (not_elem_of_empty w Hc)).
    assert (Hane : word_set a <> ∅) by (intros E; rewrite E in Ha; exact (not_elem_of_empty w Ha)).
    destruct (score_inhabited c a Hcne Hane) as [-> _].
    apply true_div_pos.
    destruct (decide (size (word_set c ∩ word_set a) = 0)) as [Hz|Hz]; [|lia].
    apply size_empty_iff in Hz. exfalso.
    apply (not_elem_of_empty (C := gset string) w). rewrite <- Hz.
    apply elem_of_intersection. split; assumption.
Qed.

(** The entries collected by the loop are those of the successful analyses
    that pass the admission test. *)
Lemma relevant_images_spec (cc : string) (l : list Analysis) (e : ImageRef) :
  In e (relevant_images cc l) <->
  exists a, In a l /\ success a = true /\ mentions cc a = true
            /\ e = {| ref_image_id := image_id a; ref_analysis := analysis a;
                      ref_page_number := page_number a;
                      relevance_score := _calculate_relevance_score cc (analysis a) |}.
Proof.
  induction l as [|a l IH]; simpl.
  - split; [contradiction | intros (a & [] & _)].
  - destruct (success a) eqn:Hs; simpl.
    + destruct (mentions cc a) eqn:Hm; simpl.
      * rewrite IH. split.
        -- intros [<-|(b & Hb & H)].
           ++ exists a. repeat split; auto.
           ++ exists b. split; [right; exact Hb | exact H].
        -- intros (b & [<-|Hb] & Hsb & Hmb & ->).
           ++ left. reflexivity.
           ++ right. exists b. repeat split; auto.
      * rewrite IH. split.
        -- intros (b & Hb & H). exists b. split; [right; exact Hb | exact H].
        -- intros (b & [<-|Hb] & Hsb & Hmb & He); [congruence|].
           exists b. repeat split; auto.
    + rewrite IH. split.
      * intros (b & Hb & H). exists b. split; [right; exact Hb | exact H].
      * intros (b & [<-|Hb] & Hsb & Hmb & He); [congruence|].
        exists b. repeat split; auto.
Qed.

Lemma insert_desc_perm (x : ImageRef) (l : list ImageRef) :
  Permutation (insert_desc x l) (x :: l).
Proof.
  induction l as [|y l IH]; simpl; [reflexivity|].
  destruct (Qle_bool (relevance_score y) (relevance_score x)); [reflexivity|].
  rewrite IH. apply perm_swap.
Qed.

Lemma sort_desc_perm (l : list ImageRef) : Permutation (sort_desc l) l.
Proof.
  induction l as [|x l IH]; simpl; [reflexivity|].
  rewrite insert_desc_perm, IH. reflexivity.
Qed.

Lemma insert_desc_sorted (x : ImageRef) (l : list ImageRef) :
  sorted_by_relevance l -> sorted_by_relevance (insert_desc x l).
Proof.
  unfold sorted_by_relevance.
  induction l as [|y l IH]; intros Hs; simpl.
  - repeat constructor.
  - destruct (Qle_bool (relevance_score y) (relevance_score x)) eqn:Hle.
    + constructor; [exact Hs|]. constructor. apply Qle_bool_iff. exact Hle.
    + assert (Hxy : (relevance_score x <= relevance_score y)%Q).
      { apply Qlt_le_weak, Qnot_le_lt. intros H.
        apply Qle_bool_iff in H. congruence. }
      inversion Hs as [|? ? Hs' Hhd]; subst.
      constructor; [apply IH; exact Hs'|].
      destruct l as [|z l]; simpl.
      * constructor. exact Hxy.
      * destruct (Qle_bool (relevance_score z) (relevance_score x));
          constructor; [exact Hxy|].
        inversion Hhd; subst. assumption.
Qed.

Lemma sort_desc_sorted (l : list ImageRef) : sorted_by_relevance (sort_desc l).
Proof.
  induction l as [|x l IH]; simpl; [constructor|].
  apply insert_desc_sorted. exact IH.
Qed.

Lemma image_context_spec (chunk : Chunk) (image_analyses : list Analysis) (e : ImageRef) :
  In e (_get_chunk_image_context chunk image_analyses) <->
  exists a, In a image_analyses /\ success a = true
            /\ mentions (PyStr.lower (content chunk)) a = true
            /\ e = image_ref chunk a.
Proof.
  unfold _get_chunk_image_context.
  rewrite <- relevant_images_spec.
  split; apply Permutation_in; [|symmetry]; apply sort_desc_perm.
Qed.

(** C6 (as amended). An analysis is in a chunk's [image_context] exactly
    when it is successful and its lower-cased image id, or one of the first
    ten words of its lower-cased text, occurs in the lower-cased chunk
    content.  In particular a successful analysis whose score is positive
    through one of its first ten words is there, and so is every successful
    analysis of at most ten words with a positive score.  The list is sorted
    by descending score. *)
Theorem image_context_attached_sorted (chunk : Chunk) (image_analyses : list Analysis) :
  (forall e,
      In e (_get_chunk_image_context chunk image_analyses) <->
      exists a, In a image_analyses /\ success a = true
                /\ mentions (PyStr.lower (content chunk)) a = true
                /\ e = image_ref chunk a)
  /\ (forall a word,
         In a image_analyses -> success a = true ->
         In word (firstn 10 (PyStr.split (PyStr.lower (analysis a)))) ->
         word ∈ word_set (content chunk) ->
         (0 < _calculate_relevance_score (content chunk) (analysis a))%Q
         /\ In (image_ref chunk a) (_get_chunk_image_context chunk image_analyses))
  /\ (forall a,
         In a image_analyses -> success a = true ->
         length (PyStr.split (PyStr.lower (analysis a))) <= 10 ->
         (0 < _calculate_relevance_score (content chunk) (analysis a))%Q ->
         In (image_ref chunk a) (_get_chunk_image_context chunk image_analyses))
  /\ sorted_by_relevance (_get_chunk_image_context chunk image_analyses).
Proof.
  assert (Hhead : forall a word,
             In a image_analyses -> success a = true ->
             In word (firstn 10 (PyStr.split (PyStr.lower (analysis a)))) ->
             word ∈ word_set (content chunk) ->
             In (image_ref chunk a) (_get_chunk_image_context chunk image_analyses)).
  { intros a word Ha Hs Hw Hc.
    apply image_context_spec. exists a. repeat split; try assumption.
    unfold mentions. apply orb_true_iff. right.
    apply existsb_exists. exists word. split; [exact Hw|].
    apply split_word_contained. apply in_word_set. exact Hc. }
  split; [intros e; apply image_context_spec|].
  split; [|split].
  - intros a word Ha Hs Hw Hc. split; [|exact (Hhead a word Ha Hs Hw Hc)].
    apply score_positive_iff. exists word. split; [exact Hc|].
    apply in_word_set. apply list_elem_of_In.
    apply (subseteq_take 10). apply list_elem_of_In. exact Hw.
  - intros a Ha Hs Hlen Hpos.
    apply score_positive_iff in Hpos as (w & Hc & Hw).
    apply (Hhead a w Ha Hs); [|exact Hc].
    rewrite firstn_all2 by exact Hlen. apply in_word_set. exact Hw.
  - apply sort_desc_sorted.
Qed.

(** [image_context_attached_sorted] on the chunk "zebra" and an analysis
    whose second word is "zebra". *)
Lemma image_context_attached_sorted_witness :
  In (image_ref (sample_chunk 0 "zebra") early_word_analysis)
     (_get_chunk_image_context (sample_chunk 0 "zebra")
                               [late_word_analysis; early_word_analysis]).
Proof.
  apply (proj1 (proj2 (proj2 (image_context_attached_sorted (sample_chunk 0 "zebra")
                         [late_word_analysis; early_word_analysis]))) early_word_analysis).
  - right. left. reflexivity.
  - reflexivity.
  - vm_compute. lia.
  - vm_compute. reflexivity.
Defined.

(** C6 (as stated) fails: the chunk "zebra" and an analysis whose eleventh
    word is "zebra" score 1/11, yet the analysis is not attached. *)
Lemma positive_relevance_attached_counterexample : ~ positive_relevance_attached.
Proof.
  intros H.
  destruct (H (sample_chunk 0 "zebra") [late_word_analysis]) as [Hin _].
  specialize (Hin late_word_analysis (or_introl eq_refl) eq_refl).
  assert (Hpos : (0 < _calculate_relevance_score
                        (content (sample_chunk 0 "zebra")) (analysis late_word_analysis))%Q).
  { vm_compute. reflexivity. }
  specialize (Hin Hpos). vm_compute in Hin. exact Hin.
Qed.

End ImageContext.

(** ** EmbeddingService._generate_embeddings_batch *)

Section Embedding.
Import EmbeddingService.

Variable self : t.

(** One batch, contract respected: whatever the attempts do, the loop hands
    back as many vectors as the batch has texts, within the allowed calls. *)
Lemma attempt_loop_length (batch : list string) :
  one_vector_per_text (client self) ->
  forall n a e,
    a + n = max_retries self -> 0 < n ->
    length (fst (attempt_loop self batch (seq a n) e)) = length batch
    /\ api_calls (snd (attempt_loop self batch (seq a n) e)) <= api_calls e + n.
Proof.
  intros Hcontract. induction n as [|n IH]; intros a e Hsum Hpos; [lia|].
  cbn [seq attempt_loop].
  destruct (client self (api_calls e) batch) as [vs|] eqn:Hcall.
  - cbn [fst snd called api_calls]. split; [eapply Hcontract; exact Hcall | lia].
  - destruct (Nat.ltb_spec a (max_retries self - 1)) as [Hlt|Hge].
    + destruct (IH (S a) (slept (backoff self a) (called e))) as [Hlen Hcalls]; [lia | lia |].
      split; [exact Hlen|]. cbn [slept called api_calls] in Hcalls. lia.
    + assert (n = 0) by lia. subst n. cbn [seq attempt_loop fst snd called api_calls].
      rewrite app_nil_r, repeat_length. split; lia.
Qed.

(** One batch whose attempts all fail: every attempt is spent, with a
    doubling delay between attempts, and the batch is filled with zero
    vectors. *)
Lemma attempt_loop_exhausted (batch : list string) :
  forall n a e,
    a + n = max_retries self -> 0 < n ->
    (forall j, j < n -> client self (api_calls e + j) batch = None) ->
    attempt_loop self batch (seq a n) e
    = (repeat zero_vector (length batch),
       {| api_calls := api_calls e + n;
          sleeps := sleeps e ++ map (backoff self) (seq a (n - 1)) |}).
Proof.
  induction n as [|n IH]; intros a e Hsum Hpos Hdown; [lia|].
  cbn [seq attempt_loop].
  pose proof (Hdown 0 ltac:(lia)) as H0. rewrite Nat.add_0_r in H0. rewrite H0.
  destruct (Nat.ltb_spec a (max_retries self - 1)) as [Hlt|Hge].
  - rewrite IH; [| lia | lia |].
    + cbn [slept called api_calls sleeps].
      f_equal. f_equal; [lia|].
      destruct n as [|n]; [lia|].
      replace (S (S n) - 1) with (S n) by lia.
      replace (S n - 1) with n by lia.
      cbn [seq map]. rewrite <- app_assoc. reflexivity.
    + intros j Hj. cbn [slept called api_calls].
      replace (S (api_calls e) + j) with (api_calls e + S j) by lia.
      apply Hdown. lia.
  - assert (n = 0) by lia. subst n.
    cbn [seq attempt_loop called api_calls sleeps map Nat.sub].
    rewrite !app_nil_r. f_equal. unfold called. f_equal. lia.
Qed.

Lemma slice_length (texts : list string) (i size : nat) :
  length (slice texts i size) = Nat.min size (length texts - i).
Proof. unfold slice. rewrite length_take, length_drop. reflexivity. Qed.

Lemma first_batches_S (texts : list string) (m : nat) (e : Effects) :
  first_batches_of self texts (S m) e =
  let '(all_embeddings, e1) := first_batches_of self texts m e in
  let '(got, e2) :=
    attempt_loop self (slice texts (m * batch_size self) (batch_size self))
                 (seq 0 (max_retries self)) e1 in
  (all_embeddings ++ got, e2).
Proof.
  unfold first_batches_of, batch_loop.
  rewrite seq_S, map_app, fold_left_app. cbn [map fold_left].
  destruct (fold_left _ _ _) as [all_embeddings e1]. reflexivity.
Qed.

Lemma first_batches_length (texts : list string) :
  one_vector_per_text (client self) -> 0 < max_retries self ->
  forall m e,
    length (fst (first_batches_of self texts m e)) = Nat.min (length texts) (m * batch_size self)
    /\ api_calls (snd (first_batches_of self texts m e)) <= api_calls e + max_retries self * m.
Proof.
  intros Hcontract Hretries. induction m as [|m IH]; intros e.
  - cbn. split; lia.
  - rewrite first_batches_S.
    destruct (IH e) as [Hlen Hcalls].
    destruct (first_batches_of self texts m e) as [all_embeddings e1]. cbn [fst snd] in *.
    pose proof (attempt_loop_length
                  (slice texts (m * batch_size self) (batch_size self))
                  Hcontract (max_retries self) 0 e1 eq_refl Hretries) as [Hgot Hcalls'].
    destruct (attempt_loop _ _ _ e1) as [got e2]. cbn [fst snd] in *.
    rewrite length_app, Hlen, Hgot, slice_length.
    split; [|lia].
    change (S m * batch_size self) with (batch_size self + m * batch_size self). lia.
Qed.

Lemma first_batches_all_fail (texts : list string) :
  (forall k b, client self k b = None) -> 0 < max_retries self ->
  forall m e,
    first_batches_of self texts m e
    = (repeat zero_vector (Nat.min (length texts) (m * batch_size self)),
       {| api_calls := api_calls e + max_retries self * m;
          sleeps := sleeps e
                    ++ concat (repeat (map (backoff self) (seq 0 (max_retries self - 1))) m) |}).
Proof.
  intros Hdown Hretries. induction m as [|m IH]; intros e.
  - cbn [first_batches_of batch_loop seq map fold_left repeat concat].
    rewrite Nat.min_0_r, app_nil_r, Nat.mul_0_r, Nat.add_0_r.
    destruct e; reflexivity.
  - rewrite first_batches_S, IH.
    rewrite (attempt_loop_exhausted _ (max_retries self) 0)
      by (try lia; intros; apply Hdown).
    cbn [api_calls sleeps].
    rewrite <- repeat_app, slice_length.
    f_equal; [f_equal|f_equal].
    + change (S m * batch_size self) with (batch_size self + m * batch_size self). lia.
    + lia.
    + rewrite <- app_assoc. f_equal.
      change (S m) with (1 + m) at 1. rewrite Nat.add_comm, repeat_app, concat_app.
      cbn [repeat concat]. rewrite app_nil_r. reflexivity.
Qed.

Lemma batches_cover (n size : nat) : 0 < size -> n <= batch_count n size * size.
Proof.
  intros Hsize. unfold batch_count.
  pose proof (Nat.div_mod_eq (n + size - 1) size) as Hdiv.
  pose proof (Nat.mod_upper_bound (n + size - 1) size) as Hmod.
  nia.
Qed.

(** C1. With a positive batch size and attempt limit, and an endpoint that
    answers a batch with one vector per text, the batcher returns exactly as
    many vectors as it was given texts, after at most [max_retries] calls
    per batch.  A batch whose [max_retries] attempts all fail has slept a
    doubling delay between attempts and contributes one zero vector of the
    declared dimension per text.  When every call fails the result is one
    zero vector per input text. *)
Theorem embedding_cardinality (texts : list string) (e : Effects) :
  0 < batch_size self -> 0 < max_retries self ->
  one_vector_per_text (client self) ->
  (exists vectors e',
      _generate_embeddings_batch self texts e = Some (vectors, e')
      /\ length vectors = length texts
      /\ api_calls e' <= api_calls e
                         + max_retries self * batch_count (length texts) (batch_size self))
  /\ (forall batch e0,
         (forall j, j < max_retries self -> client self (api_calls e0 + j) batch = None) ->
         attempt_loop self batch (seq 0 (max_retries self)) e0
         = (repeat zero_vector (length batch),
            {| api_calls := api_calls e0 + max_retries self;
               sleeps := sleeps e0
                         ++ map (backoff self) (seq 0 (max_retries self - 1)) |}))
  /\ ((forall k b, client self k b = None) ->
      _generate_embeddings_batch self texts e
      = Some (repeat zero_vector (length texts),
              {| api_calls :=
                   api_calls e
                   + max_retries self * batch_count (length texts) (batch_size self);
                 sleeps :=
                   sleeps e
                   ++ concat (repeat (map (backoff self) (seq 0 (max_retries self - 1)))
                                     (batch_count (length texts) (batch_size self))) |})
      /\ length zero_vector = EMBEDDING_DIMENSION).
Proof.
  intros Hsize Hretries Hcontract.
  unfold _generate_embeddings_batch.
  destruct (Nat.eqb_spec (batch_size self) 0) as [Hz|_]; [lia|].
  change (batch_loop self texts (range_step (length texts) (batch_size self)) e)
    with (first_batches_of self texts (batch_count (length texts) (batch_size self)) e).
  pose proof (batches_cover (length texts) (batch_size self) Hsize) as Hcover.
  split; [|split].
  - destruct (first_batches_length texts Hcontract Hretries
                (batch_count (length texts) (batch_size self)) e) as [Hlen Hcalls].
    destruct (first_batches_of self texts _ e) as [vectors e'] eqn:Hrun. cbn [fst snd] in *.
    exists vectors, e'. split; [reflexivity|]. split; [lia | exact Hcalls].
  - intros batch e0 Hdown.
    apply attempt_loop_exhausted; [reflexivity | exact Hretries | exact Hdown].
  - intros Hdown. split; [|apply repeat_length].
    rewrite (first_batches_all_fail texts Hdown Hretries).
    rewrite Nat.min_l by exact Hcover. reflexivity.
Qed.

End Embedding.

(** [embedding_cardinality] on twenty texts: with an endpoint that recovers
    after four failed calls, and with an endpoint that is down. *)
Lemma embedding_cardinality_witness :
  (exists vectors e',
      EmbeddingService._generate_embeddings_batch
        (EmbeddingService.init flaky_client) (repeat "text" 20) EmbeddingService.no_effects
      = Some (vectors, e')
      /\ length vectors = 20)
  /\ EmbeddingService._generate_embeddings_batch
       (EmbeddingService.init failing_client) (repeat "text" 20) EmbeddingService.no_effects
     = Some (repeat EmbeddingService.zero_vector 20,
             {| EmbeddingService.api_calls := 6;
                EmbeddingService.sleeps := [1%Q; 2%Q; 1%Q; 2%Q] |}).
Proof.
  split.
  - destruct (embedding_cardinality (EmbeddingService.init flaky_client)
                (repeat "text" 20) EmbeddingService.no_effects)
      as [(vs & e' & Hrun & Hlen & _) _].
    + simpl. lia.
    + simpl. lia.
    + intros k batch vs. unfold EmbeddingService.init, flaky_client. simpl.
      destruct (k <? 4); [discriminate|]. intros [= <-]. apply length_map.
    + exists vs, e'. split; [exact Hrun | exact Hlen].
  - destruct (embedding_cardinality (EmbeddingService.init failing_client)
                (repeat "text" 20) EmbeddingService.no_effects) as [_ [_ Hdown]].
    + simpl. lia.
    + simpl. lia.
    + intros k batch vs. discriminate.
    + destruct Hdown as [Hrun _]; [reflexivity|]. exact Hrun.
Defined.

(** ** PDFExtractor: clustering of drawing primitives *)

Section Clustering.
Import PDFExtractor.

Lemma enumerate_indexes {A} (l : list A) : map fst (enumerate l) = seq 0 (length l).
Proof. unfold enumerate. apply imap_index_seq. reflexivity. Qed.

Lemma enumerate_NoDup {A} (l : list A) : List.NoDup (map fst (enumerate l)).
Proof. rewrite enumerate_indexes. apply List.seq_NoDup. Qed.

Lemma enumerate_lookup {A} (l : list A) (i : nat) (x : A) :
  In (i, x) (enumerate l) <-> l !! i = Some x.
Proof.
  unfold enumerate. rewrite <- list_elem_of_In, elem_of_lookup_imap.
  split.
  - intros (j & y & [= -> ->] & H). exact H.
  - intros H. exists i, x. split; [reflexivity | exact H].
Qed.

Lemma Qltb_lt (a b : Q) : Qltb a b = true <-> (a < b)%Q.
Proof.
  unfold Qltb. rewrite negb_true_iff. split.
  - intros H. apply Qnot_le_lt. intros Hle. apply Qle_bool_iff in Hle. congruence.
  - intros H. destruct (Qle_bool b a) eqn:E; [|reflexivity].
    apply Qle_bool_iff in E. exfalso. exact (Qlt_not_le _ _ H E).
Qed.




Lemma are_bboxes_close_spec (bbox1 bbox2 : option Rect4) (threshold : Q) :
  _are_bboxes_close bbox1 bbox2 threshold = true <->
  exists b1 b2,
    bbox1 = Some b1 /\ bbox2 = Some b2
    /\ (0 < threshold)%Q
    /\ (dist2 (center b1) (center b2) < threshold * threshold)%Q.
Proof.
  unfold _are_bboxes_close, sqrt_ltb. split.
  - destruct bbox1 as [b1|], bbox2 as [b2|]; try discriminate.
    rewrite andb_true_iff, !Qltb_lt. intros [H1 H2].
    exists b1, b2. repeat split; assumption.
  - intros (b1 & b2 & -> & -> & H1 & H2).
    rewrite andb_true_iff, !Qltb_lt. split; assumption.
Qed.

(** The inner loop is a filter of the candidates: since indexes are
    distinct, marking one candidate used never affects a later one. *)
Lemma gather_filter (drawing : Drawing) (threshold : Q) (others : list (nat * Drawing)) :
  List.NoDup (map fst others) ->
  forall used group,
    gather (get_rect drawing) threshold others used group
    = (group ++ map snd (List.filter (joins drawing threshold used) others),
       list_to_set (map fst (List.filter (joins drawing threshold used) others)) ∪ used).
Proof.
  induction others as [|[j o] others IH]; intros Hnd used group.
  - cbn. rewrite app_nil_r. f_equal. apply leibniz_equiv.
    rewrite (left_id ∅ (∪)). reflexivity.
  - change (map fst ((j, o) :: others)) with (j :: map fst others) in Hnd.
    apply List.NoDup_cons_iff in Hnd as [Hj Hnd].
    cbn [gather List.filter].
    replace (joins drawing threshold used (j, o))
      with (negb (bool_decide (j ∈ used))
            && _are_bboxes_close (get_rect drawing) (get_rect o) threshold)
      by reflexivity.
    destruct (bool_decide_reflect (j ∈ used)) as [Hin|Hout]; cbn [negb andb].
    + apply IH. exact Hnd.
    + destruct (_are_bboxes_close (get_rect drawing) (get_rect o) threshold) eqn:Hclose.
      * rewrite IH by exact Hnd.
        assert (Hsame : List.filter (joins drawing threshold ({[j]} ∪ used)) others
                        = List.filter (joins drawing threshold used) others).
        { apply List.filter_ext_in. intros [k o'] Hk. unfold joins. cbn [fst snd].
          f_equal. f_equal. apply bool_decide_ext.
          assert (k <> j).
          { intros ->. apply Hj. apply in_map_iff. exists (j, o'). split; [reflexivity|exact Hk]. }
          rewrite elem_of_union, elem_of_singleton. tauto. }
        rewrite Hsame. cbn [map fst snd]. rewrite <- app_assoc. f_equal.
        apply leibniz_equiv. rewrite list_to_set_cons.
        rewrite (assoc (∪)), (comm (∪) _ {[j]}). reflexivity.
      * apply IH. exact Hnd.
Qed.

(** One turn of the outer loop. *)
Lemma group_loop_step (drawings : list Drawing) (threshold : Q)
      (todo : list (nat * Drawing)) (used : gset nat) (groups : list (list Drawing))
      (i : nat) (drawing : Drawing) :
  (i ∈ used ->
   group_loop drawings threshold ((i, drawing) :: todo) used groups
   = group_loop drawings threshold todo used groups)
  /\ (i ∉ used ->
      group_loop drawings threshold ((i, drawing) :: todo) used groups
      = group_loop drawings threshold todo
          (list_to_set
             (map fst (List.filter (joins drawing threshold ({[i]} ∪ used))
                                   (enumerate drawings)))
           ∪ ({[i]} ∪ used))
          (groups ++ [drawing :: map snd (List.filter (joins drawing threshold ({[i]} ∪ used))
                                                      (enumerate drawings))])).
Proof.
  split; intros Hi; cbn [group_loop].
  - rewrite bool_decide_eq_true_2 by exact Hi. reflexivity.
  - rewrite bool_decide_eq_false_2 by exact Hi.
    rewrite (gather_filter drawing threshold (enumerate drawings) (enumerate_NoDup drawings)).
    reflexivity.
Qed.












(** ** PDFExtractor: the noise filter *)

Lemma extract_group_kept (self : t) (page : Page) (page_num : nat) (filename : string)
      (k : nat) (g : list Drawing) (el : VisualElement) :
  fst (extract_group self page page_num filename k g) = Some el ->
  elem_type el = visual_element
  /\ elem_page_number el = page_num + 1
  /\ image_index el = k + 1
  /\ bbox el = Some (_get_drawings_bbox g)
  /\ drawing_count el = Some (length g)
  /\ cltb (width (_get_drawings_bbox g)) (Fin MIN_DRAWING_SIZE) = false
  /\ cltb (height (_get_drawings_bbox g)) (Fin MIN_DRAWING_SIZE) = false.
Proof.
  unfold extract_group.
  destruct (cltb (width (_get_drawings_bbox g)) (Fin MIN_DRAWING_SIZE)) eqn:Hw;
    [discriminate|].
  destruct (cltb (height (_get_drawings_bbox g)) (Fin MIN_DRAWING_SIZE)) eqn:Hh;
    [discriminate|].
  cbn [orb].
  destruct (get_pixmap page (_get_drawings_bbox g)) as [| |img]; try discriminate.
  destruct (data_len img <? 100); [discriminate|].
  cbn [fst]. intros [= <-]. cbn. repeat split.
Qed.

Lemma extract_image_kept (self : t) (page_num : nat) (filename : string)
      (k : nat) (outcome : Decode) (el : VisualElement) :
  fst (extract_image self page_num filename k outcome) = Some el ->
  elem_type el = embedded_image.
Proof.
  unfold extract_image. destruct outcome; try discriminate.
  cbn [fst]. intros [= <-]. reflexivity.
Qed.

(** Every drawing element of a page comes from one of its groups. *)
Lemma drawing_element_origin (self : t) (page : Page)
      (page_num : nat) (filename : string) (el : VisualElement) :
  In el (fst (_extract_drawing_elements self page page_num filename)) ->
  exists k g,
    _group_drawings_by_proximity (drawings page) DEFAULT_PROXIMITY_THRESHOLD !! k = Some g
    /\ fst (extract_group self page page_num filename k g) = Some el.
Proof.
  unfold _extract_drawing_elements.
  destruct (drawings page) as [|d0 rest]; [intros []|].
  cbn [fst]. rewrite <- list_elem_of_In, list_elem_of_omap.
  intros ([oe ot] & Hin & Hfst).
  apply elem_of_lookup_imap in Hin as (k & g & Heq & Hk).
  exists k, g. split; [exact Hk|]. rewrite <- Heq. exact Hfst.
Qed.

Lemma embedded_element_type (self : t) (page : Page)
      (page_num : nat) (filename : string) (el : VisualElement) :
  In el (fst (_extract_embedded_images self page page_num filename)) ->
  elem_type el = embedded_image.
Proof.
  unfold _extract_embedded_images. cbn [fst].
  rewrite <- list_elem_of_In, list_elem_of_omap.
  intros ([oe ot] & Hin & Hfst).
  apply elem_of_lookup_imap in Hin as (k & outcome & Heq & _).
  apply (extract_image_kept self page_num filename k outcome).
  rewrite <- Heq. exact Hfst.
Qed.

(** Every element of the document comes from one of its pages. *)
Lemma visual_element_origin (self : t) (pdf_document : list Page) (filename : string)
      (el : VisualElement) :
  In el (fst (_extract_visual_elements self pdf_document filename)) ->
  exists page_num page,
    pdf_document !! page_num = Some page
    /\ (In el (fst (_extract_embedded_images self page page_num filename))
        \/ In el (fst (_extract_drawing_elements self page page_num filename))).
Proof.
  unfold _extract_visual_elements. cbn [fst].
  rewrite in_concat. intros (l & Hl & Hel).
  apply in_map_iff in Hl as ([els files] & Hfst & Hpage). cbn in Hfst. subst l.
  apply list_elem_of_In, elem_of_lookup_imap in Hpage as (n & page & Heq & Hn).
  exists n, page. split; [exact Hn|].
  unfold page_elements in Heq.
  destruct (_extract_embedded_images self page n filename) as [emb f1].
  destruct (_extract_drawing_elements self page n filename) as [drw f2].
  injection Heq as -> _. cbn [fst].
  apply in_app_or in Hel. exact Hel.
Qed.

(** C7. For every page of a document, a drawing group whose union box is
    narrower or lower than the minimum drawing size yields no entry of the
    extractor's [visual_elements]; every drawing-group entry that is produced
    carries the union box of a group of its page, and that box is at least
    the minimum size both ways. *)
Theorem noise_groups_filtered (self : t) (pdf_document : list Page) (filename : string) :
  (forall page_num page k g,
      pdf_document !! page_num = Some page ->
      _group_drawings_by_proximity (drawings page) DEFAULT_PROXIMITY_THRESHOLD !! k = Some g ->
      below_min_size (width (_get_drawings_bbox g))
      \/ below_min_size (height (_get_drawings_bbox g)) ->
      forall el,
        In el (fst (_extract_visual_elements self pdf_document filename)) ->
        ~ (elem_type el = visual_element
           /\ elem_page_number el = page_num + 1
           /\ image_index el = k + 1))
  /\ (forall el,
         In el (fst (_extract_visual_elements self pdf_document filename)) ->
         elem_type el = visual_element ->
         exists page_num page k g,
           pdf_document !! page_num = Some page
           /\ _group_drawings_by_proximity (drawings page) DEFAULT_PROXIMITY_THRESHOLD !! k
              = Some g
           /\ elem_page_number el = page_num + 1
           /\ image_index el = k + 1
           /\ bbox el = Some (_get_drawings_bbox g)
           /\ ~ below_min_size (width (_get_drawings_bbox g))
           /\ ~ below_min_size (height (_get_drawings_bbox g))).
Proof.
  assert (Horigin : forall el,
             In el (fst (_extract_visual_elements self pdf_document filename)) ->
             elem_type el = visual_element ->
             exists page_num page k g,
               pdf_document !! page_num = Some page
               /\ _group_drawings_by_proximity (drawings page) DEFAULT_PROXIMITY_THRESHOLD !! k
                  = Some g
               /\ elem_page_number el = page_num + 1
               /\ image_index el = k + 1
               /\ bbox el = Some (_get_drawings_bbox g)
               /\ ~ below_min_size (width (_get_drawings_bbox g))
               /\ ~ below_min_size (height (_get_drawings_bbox g))).
  { intros el Hel Htype.
    apply visual_element_origin in Hel as (n & page & Hn & [Hemb|Hdrw]).
    { apply embedded_element_type in Hemb. congruence. }
    apply drawing_element_origin in Hdrw as (k & g & Hk & Hkept).
    apply extract_group_kept in Hkept as (_ & Hpage & Hidx & Hbox & _ & Hw & Hh).
    exists n, page, k, g. unfold below_min_size. rewrite Hw, Hh.
    repeat split; try assumption; discriminate. }
  split; [|exact Horigin].
  intros n page k g Hn Hk Hsmall el Hel (Htype & Hpage & Hidx).
  destruct (Horigin el Hel Htype) as (n' & page' & k' & g' & Hn' & Hk' & Hpage' & Hidx' & _ & Hw & Hh).
  assert (n' = n) by lia. assert (k' = k) by lia. subst n' k'.
  rewrite Hn in Hn'. injection Hn' as <-.
  rewrite Hk in Hk'. injection Hk' as <-.
  tauto.
Qed.

(** [noise_groups_filtered] on the sample document: on its first page the
    thin rule is group 0, and no entry of the output is that group. *)
Lemma noise_groups_filtered_witness :
  List.Forall
    (fun el => ~ (elem_type el = visual_element
                  /\ elem_page_number el = 0 + 1 /\ image_index el = 0 + 1))
    (fst (_extract_visual_elements sample_extractor sample_document "report")).
Proof.
  apply List.Forall_forall.
  apply (proj1 (noise_groups_filtered sample_extractor sample_document "report")
               0 (mkPage [Decoded sample_raster] [prim_rule; prim_far]
                         (fun _ => Rendered sample_raster))
               0 [prim_rule]).
  - reflexivity.
  - vm_compute. reflexivity.
  - right. vm_compute. reflexivity.
Defined.

(** The output on the sample document: the embedded image and the figure of
    page 1, and the figure of page 2. *)
Example sample_document_elements :
  map (fun el => (elem_id el, image_index el))
      (fst (_extract_visual_elements sample_extractor sample_document "report"))
  = [("report_page1_img1_9e107d9d", 1);
     ("report_page1_visual_elem2", 2);
     ("report_page2_visual_elem1", 1)].
Proof. vm_compute. reflexivity. Qed.

(** ** PDFExtractor: primitives without a rectangle *)

Lemma joins_needs_rects (drawing : Drawing) (threshold : Q) (used : gset nat)
      (candidate : nat * Drawing) :
  joins drawing threshold used candidate = true ->
  (fst candidate ∉ used)
  /\ (exists r, get_rect drawing = Some r)
  /\ (exists r, get_rect (snd candidate) = Some r).
Proof.
  unfold joins. rewrite andb_true_iff, negb_true_iff, bool_decide_eq_false.
  intros [Hused Hclose].
  apply are_bboxes_close_spec in Hclose as (b1 & b2 & H1 & H2 & _).
  split; [exact Hused|]. split; eauto.
Qed.

Lemma rectless_anchor_alone (drawing : Drawing) (threshold : Q) (used : gset nat)
      (others : list (nat * Drawing)) :
  get_rect drawing = None -> List.filter (joins drawing threshold used) others = [].
Proof.
  intros Hnone. induction others as [|c others IH]; [reflexivity|].
  cbn [List.filter]. rewrite IH.
  destruct (joins drawing threshold used c) eqn:Hj; [|reflexivity].
  apply joins_needs_rects in Hj as (_ & [r Hr] & _). congruence.
Qed.

Lemma group_loop_mono (drawings : list Drawing) (threshold : Q) (g : list Drawing)
      (todo : list (nat * Drawing)) :
  forall used groups,
    In g groups -> In g (group_loop drawings threshold todo used groups).
Proof.
  induction todo as [|[i d] todo IH]; intros used groups Hin; [exact Hin|].
  destruct (decide (i ∈ used)) as [Hi|Hi].
  - rewrite (proj1 (group_loop_step drawings threshold todo used groups i d) Hi).
    apply IH. exact Hin.
  - rewrite (proj2 (group_loop_step drawings threshold todo used groups i d) Hi).
    apply IH. apply in_or_app. left. exact Hin.
Qed.

(** Every group is an anchor followed by the candidates that joined it. *)
Lemma group_loop_origin (drawings : list Drawing) (threshold : Q) (g : list Drawing)
      (todo : list (nat * Drawing)) :
  forall used groups,
    In g (group_loop drawings threshold todo used groups) ->
    In g groups
    \/ exists i a used',
        In (i, a) todo
        /\ g = a :: map snd (List.filter (joins a threshold used') (enumerate drawings)).
Proof.
  induction todo as [|[i d] todo IH]; intros used groups Hin; [left; exact Hin|].
  destruct (decide (i ∈ used)) as [Hi|Hi].
  - rewrite (proj1 (group_loop_step drawings threshold todo used groups i d) Hi) in Hin.
    destruct (IH _ _ Hin) as [H|(j & a & u & Hj & Hg)]; [left; exact H|].
    right. exists j, a, u. split; [right; exact Hj | exact Hg].
  - rewrite (proj2 (group_loop_step drawings threshold todo used groups i d) Hi) in Hin.
    destruct (IH _ _ Hin) as [H|(j & a & u & Hj & Hg)].
    + apply in_app_or in H as [H|[<-|[]]]; [left; exact H|].
      right. exists i, d, ({[i]} ∪ used). split; [left; reflexivity | reflexivity].
    + right. exists j, a, u. split; [right; exact Hj | exact Hg].
Qed.

Lemma group_loop_rectless (drawings : list Drawing) (threshold : Q)
      (i : nat) (d : Drawing) (todo : list (nat * Drawing)) :
  get_rect d = None ->
  forall used groups,
    (forall j o, In (j, o) todo -> drawings !! j = Some o) ->
    rectless_settled drawings used groups ->
    In (i, d) todo ->
    In [d] (group_loop drawings threshold todo used groups).
Proof.
  intros Hnone. induction todo as [|[i0 d0] todo IH]; intros used groups Htodo Hinv Hin;
    [contradiction|].
  assert (Htodo' : forall j o, In (j, o) todo -> drawings !! j = Some o)
    by (intros j o H; apply Htodo; right; exact H).
  destruct (decide (i0 ∈ used)) as [Hi|Hi].
  - rewrite (proj1 (group_loop_step drawings threshold todo used groups i0 d0) Hi).
    destruct Hin as [[= -> ->]|Hin]; [|apply IH; assumption].
    apply group_loop_mono. apply (Hinv i d Hi); [|exact Hnone].
    apply Htodo. left. reflexivity.
  - rewrite (proj2 (group_loop_step drawings threshold todo used groups i0 d0) Hi).
    set (members := List.filter (joins d0 threshold ({[i0]} ∪ used)) (enumerate drawings)).
    assert (Hinv' : rectless_settled drawings
                      (list_to_set (map fst members) ∪ ({[i0]} ∪ used))
                      (groups ++ [d0 :: map snd members])).
    { intros j o Hj Hlook Ho.
      apply elem_of_union in Hj as [Hj|Hj].
      - exfalso. apply elem_of_list_to_set, list_elem_of_In, in_map_iff in Hj
          as ([j' o'] & Hfst & Hmem).
        cbn in Hfst. subst j'. unfold members in Hmem.
        apply List.filter_In in Hmem as [Henum Hjoin].
        apply enumerate_lookup in Henum.
        apply joins_needs_rects in Hjoin as (_ & _ & [r Hr]). cbn in Hr.
        congruence.
      - apply in_or_app. apply elem_of_union in Hj as [Hj|Hj].
        + right. apply elem_of_singleton in Hj. subst j.
          assert (o = d0).
          { pose proof (Htodo i0 d0 (or_introl eq_refl)). congruence. }
          subst o. unfold members. rewrite rectless_anchor_alone by exact Ho.
          left. reflexivity.
        + left. exact (Hinv j o Hj Hlook Ho). }
    destruct Hin as [[= -> ->]|Hin]; [|apply IH; assumption].
    apply group_loop_mono. apply in_or_app. right.
    unfold members. rewrite rectless_anchor_alone by exact Hnone.
    left. reflexivity.
Qed.

Lemma union_box_nonempty (l : list Drawing) :
  l <> [] ->
  _get_drawings_bbox l
  = fold_left
      (fun b drawing =>
         match get_rect drawing with
         | Some r =>
             mkBox (cmin (bx0 b) (Fin (x0 r))) (cmin (by0 b) (Fin (y0 r)))
                   (cmax (bx1 b) (Fin (x1 r))) (cmax (by1 b) (Fin (y1 r)))
         | None => b
         end) l (mkBox PosInf PosInf NegInf NegInf).
Proof. destruct l; [contradiction | reflexivity]. Qed.

(** C9 (as amended). A primitive whose rectangle is missing (its ['rect']
    tests false) never joins another primitive's group and attracts none: any
    group that contains it is that primitive alone, and it does get such a
    group.  It adds nothing to a union box, its own group has the empty box,
    and that group yields no visual element. *)
Theorem rectless_primitive_isolated (drawings : list Drawing) (threshold : Q) (d : Drawing) :
  get_rect d = None ->
  (forall g, In g (_group_drawings_by_proximity drawings threshold) -> In d g -> g = [d])
  /\ (In d drawings -> In [d] (_group_drawings_by_proximity drawings threshold))
  /\ (forall before after,
         before ++ after <> [] ->
         _get_drawings_bbox (before ++ d :: after) = _get_drawings_bbox (before ++ after))
  /\ _get_drawings_bbox [d] = mkBox PosInf PosInf NegInf NegInf
  /\ (forall self page page_num filename elem_index,
         extract_group self page page_num filename elem_index [d] = (None, None)).
Proof.
  intros Hnone. split; [|split; [|split; [|split]]].
  - intros g Hg Hd. unfold _group_drawings_by_proximity in Hg.
    destruct drawings as [|d0 rest]; [contradiction|].
    apply group_loop_origin in Hg as [[]|(i & a & u & _ & ->)].
    destruct Hd as [->|Hd].
    + rewrite rectless_anchor_alone by exact Hnone. reflexivity.
    + exfalso. apply in_map_iff in Hd as ([j o] & Hsnd & Hmem). cbn in Hsnd. subst o.
      apply List.filter_In in Hmem as [_ Hjoin].
      apply joins_needs_rects in Hjoin as (_ & _ & [r Hr]). cbn in Hr. congruence.
  - intros Hd. unfold _group_drawings_by_proximity.
    destruct drawings as [|d0 rest]; [contradiction|].
    apply list_elem_of_In, list_elem_of_lookup in Hd as [i Hi].
    apply (group_loop_rectless _ _ i d); [exact Hnone | | | ].
    + intros j o. apply enumerate_lookup.
    + intros j o Hj. exfalso. exact (not_elem_of_empty j Hj).
    + apply enumerate_lookup. exact Hi.
  - intros before after Hne.
    rewrite !union_box_nonempty;
      [| exact Hne | destruct before; discriminate].
    rewrite !fold_left_app. cbn [fold_left]. rewrite Hnone. reflexivity.
  - cbn. rewrite Hnone. reflexivity.
  - intros self page page_num filename elem_index. unfold extract_group.
    cbn [_get_drawings_bbox fold_left]. rewrite Hnone. reflexivity.
Qed.

(** [rectless_primitive_isolated] on a page holding a rectangle-less
    primitive between two others: it sits alone in its group. *)
Lemma rectless_primitive_isolated_witness :
  In [prim_rectless] (_group_drawings_by_proximity [prim_a; prim_rectless; prim_b] 50).
Proof.
  apply (proj1 (proj2 (rectless_primitive_isolated
                         [prim_a; prim_rectless; prim_b] 50 prim_rectless eq_refl))).
  right. left. reflexivity.
Defined.

(** C9 (as stated) fails: a primitive without a rectangle is placed in a
    group, the one it anchors. *)
Lemma rectless_in_no_group_counterexample : ~ rectless_in_no_group.
Proof.
  intros H.
  apply (H [prim_rectless] 50%Q prim_rectless (or_introl eq_refl) eq_refl [prim_rectless]).
  - vm_compute. left. reflexivity.
  - left. reflexivity.
Qed.

(** A primitive with no ['rect'] key at all takes the default
    [[0, 0, 0, 0]]: it is clustered as a point at the origin and stretches
    the union box of the group it joins. *)
Example keyless_primitive_at_origin :
  _group_drawings_by_proximity [prim_b; prim_keyless] 50 = [[prim_b; prim_keyless]]
  /\ _get_drawings_bbox [prim_b] = mkBox (Fin 10) (Fin 0) (Fin 40) (Fin 30)
  /\ _get_drawings_bbox [prim_b; prim_keyless] = mkBox (Fin 0) (Fin 0) (Fin 40) (Fin 30).
Proof. vm_compute. repeat split. Qed.

End Clustering.

(** ** The orchestrator: skipping and forcing *)

Section Idempotency.
Import CompleteIngestionPipeline.

(** A file that is on disk and whose name is in the container is skipped
    when reprocessing is not forced; only the skipped list changes. *)
Lemma skip_when_stored (env : Env) (s : State) (file_path : string)
      (original_filename : PyValue) (save_outputs auto_cleanup : bool) :
  is_Some (read_bytes env file_path) ->
  storage_available env = true ->
  is_Some (container s !! path_name file_path) ->
  process_file_with_storage_check env file_path original_filename
                                  false save_outputs auto_cleanup s
  = (skipped_result file_path, add_skipped file_path s).
Proof.
  intros Hlocal Havail Hblob. unfold process_file_with_storage_check.
  rewrite (bool_decide_eq_true_2 _ Hlocal). cbn [negb].
  unfold file_exists_in_storage. rewrite Havail. cbn [negb].
  rewrite (bool_decide_eq_true_2 _ Hblob). reflexivity.
Qed.







(** The same happens without renaming when the blob was stored under an
    original file name that differs from the local name: the probe looks for
    the local name. *)
Example original_filename_defeats_skip :
  let first :=
    process_file_with_storage_check sample_env "uploads/20240101_120000_report.txt"
      (PyStr "report.txt") false true true initial_state in
  blob_storage_uploaded (fst first) = Some true
  /\ res_status
       (fst (process_file_with_storage_check sample_env "uploads/20240101_120000_report.txt"
               (PyStr "report.txt") false true true (snd first))) = None.
Proof. vm_compute. split; reflexivity. Qed.


(** ** Forcing *)

Lemma extends_refl (s : State) : extends s s.
Proof. exists []. rewrite app_nil_r. reflexivity. Qed.

Lemma extends_trans (a b c : State) : extends a b -> extends b c -> extends a c.
Proof.
  intros [r1 H1] [r2 H2]. exists (r1 ++ r2). rewrite H2, H1, app_assoc. reflexivity.
Qed.

Lemma extends_same_trace (a b : State) : trace b = trace a -> extends a b.
Proof. intros H. exists []. rewrite app_nil_r. exact H. Qed.

Lemma extends_log (ev : Event) (s : State) : extends s (log ev s).
Proof. exists [ev]. reflexivity. Qed.

Lemma extends_cleanup (b : bool) (p : string) (s : State) : extends s (cleanup b p s).
Proof. destruct b; [apply extends_log | apply extends_refl]. Qed.

Lemma extends_upload_chunks (env : Env) (name : string)
      (chunks : list (ChunkingService.Chunk * option EmbeddingService.Vector)) (s : State) :
  extends s (snd (upload_chunks env name chunks s)).
Proof.
  unfold upload_chunks. destruct (upload_documents env _); cbn [snd].
  - eapply extends_trans; [|apply extends_log]. apply extends_same_trace. reflexivity.
  - apply extends_refl.
Qed.

Lemma extends_upload_to_storage (env : Env) (p : string) (b : PyValue) (m : BlobMeta)
      (s : State) :
  extends s (snd (upload_to_storage env p b m s)).
Proof.
  unfold upload_to_storage.
  destruct (storage_available env); cbn [negb snd]; [|apply extends_refl].
  destruct (match b with PyNone => PyStr (path_name p) | v => v end) as [|name|flag];
    cbn [snd]; try apply extends_refl.
  destruct (upload_blob env name); cbn [snd]; [|apply extends_refl].
  eapply extends_trans; [|apply extends_log]. apply extends_same_trace. reflexivity.
Qed.

(** The single-file call with [force_reprocess=True] runs the extraction on
    every file that exists locally, stored or not. *)
Lemma forced_single_file_extracts (env : Env) (s : State) (file_path : string)
      (original_filename : PyValue) (save_outputs auto_cleanup : bool) :
  is_Some (read_bytes env file_path) ->
  exists rest,
    trace (snd (process_file_with_storage_check env file_path original_filename
                  true save_outputs auto_cleanup s))
    = trace s ++ Extracted file_path save_outputs :: rest.
Proof.
  intros Hlocal.
  assert (Hext : extends (log (Extracted file_path save_outputs) s)
                   (snd (process_file_with_storage_check env file_path original_filename
                           true save_outputs auto_cleanup s))).
  { unfold process_file_with_storage_check.
    rewrite (bool_decide_eq_true_2 _ Hlocal). cbn [negb].
    rewrite andb_false_r.
    destruct (process_document env file_path save_outputs) as [msg|err|txt imgs]; cbn [snd].
    - apply extends_same_trace. reflexivity.
    - eapply extends_trans; [|apply extends_cleanup]. apply extends_same_trace. reflexivity.
    - destruct (EmbeddingService.generate_embeddings _ _ _ _) as [embedded eff].
      set (s1 := log (Embedded (length embedded)) _).
      assert (H1 : extends (log (Extracted file_path save_outputs) s) s1).
      { unfold s1. eapply extends_trans; [apply extends_log|].
        eapply extends_trans; [|apply extends_log]. apply extends_same_trace. reflexivity. }
      destruct embedded as [|c0 embedded]; cbn [snd].
      + eapply extends_trans; [exact H1|].
        eapply extends_trans; [|apply extends_cleanup]. apply extends_same_trace. reflexivity.
      + pose proof (extends_upload_chunks env (path_name file_path) (c0 :: embedded) s1) as H2.
        destruct (upload_chunks env (path_name file_path) (c0 :: embedded) s1) as [ok s2].
        cbn [snd] in H2. destruct ok.
        * match goal with
          | |- context [upload_to_storage ?e ?p ?b ?m ?st] =>
              pose proof (extends_upload_to_storage e p b m st) as H3;
              destruct (upload_to_storage e p b m st) as [ok3 s3]
          end.
          cbn [snd] in *.
          eapply extends_trans; [exact H1|]. eapply extends_trans; [exact H2|].
          eapply extends_trans; [exact H3|].
          eapply extends_trans; [|apply extends_cleanup]. apply extends_same_trace. reflexivity.
        * cbn [snd]. eapply extends_trans; [exact H1|]. eapply extends_trans; [exact H2|].
          eapply extends_trans; [|apply extends_cleanup]. apply extends_same_trace. reflexivity. }
  destruct Hext as [rest Hrest]. exists rest.
  rewrite Hrest. cbn [log trace]. rewrite <- app_assoc. reflexivity.
Qed.

(** The batch wrapper hands its flags over one position to the left of
    where the single-file call reads them. *)
Lemma batch_flags_by_position (env : Env) (file_path : string) (rest : list string)
      (force_reprocess save_outputs auto_cleanup : bool) (s : State) :
  process_batch_with_storage_check env (file_path :: rest)
                                   force_reprocess save_outputs auto_cleanup s
  = let '(result, s1) :=
      process_file_with_storage_check env file_path (PyBool force_reprocess)
                                      save_outputs auto_cleanup true s in
    let '(results, s2) :=
      process_batch_with_storage_check env rest force_reprocess save_outputs auto_cleanup s1 in
    (result :: results, s2).
Proof. reflexivity. Qed.

(** Through the batch wrapper a stored file is skipped whatever
    [force_reprocess] says, as long as [save_outputs] is off. *)
Lemma batch_force_ignored (env : Env) (s : State) (file_path : string)
      (force_reprocess auto_cleanup : bool) :
  is_Some (read_bytes env file_path) ->
  storage_available env = true ->
  is_Some (container s !! path_name file_path) ->
  process_batch_with_storage_check env [file_path] force_reprocess false auto_cleanup s
  = ([skipped_result file_path], add_skipped file_path s).
Proof.
  intros Hlocal Havail Hblob. rewrite batch_flags_by_position.
  rewrite skip_when_stored by assumption. reflexivity.
Qed.

(** C4. Failing input for the batch wrapper: [/data/a.txt] has been
    processed and stored; the batch call with [force_reprocess=True]
    (and [save_outputs=False]) returns status "skipped" for it and logs no
    work, while the single-file call with [force_reprocess=True] on the same
    state extracts, chunks, embeds, indexes and stores again. *)
Theorem batch_force_reprocess_ignored :
  process_batch_with_storage_check sample_env ["/data/a.txt"] true false true after_first_run
  = ([skipped_result "/data/a.txt"], add_skipped "/data/a.txt" after_first_run)
  /\ res_status (skipped_result "/data/a.txt") = Some "skipped"
  /\ no_work after_first_run (add_skipped "/data/a.txt" after_first_run)
  /\ map (fun ev => match ev with
                    | Extracted _ _ => "extract" | Chunked _ => "chunk"
                    | Embedded _ => "embed" | Indexed _ => "index"
                    | Stored _ => "store" | CleanedUp _ => "cleanup"
                    end)
         (List.skipn (length (trace after_first_run))
            (trace (snd (process_file_with_storage_check sample_env "/data/a.txt" PyNone
                           true false true after_first_run))))
     = ["extract"; "chunk"; "embed"; "index"; "store"; "cleanup"].
Proof.
  split; [|split; [reflexivity | split; [repeat split|]]].
  - apply batch_force_ignored.
    + eexists. reflexivity.
    + reflexivity.
    + vm_compute. eexists. reflexivity.
  - vm_compute. reflexivity.
Qed.

End Idempotency.

(* ====================================================================== *)
(** * Further properties                                                   *)
(* ====================================================================== *)

(** ** Words: [split] and [join] *)

Lemma str_length_app (a b : string) :
  String.length (a +:+ b) = String.length a + String.length b.
Proof.
  induction a as [|c a IH]; [reflexivity|].
  rewrite str_app_cons. cbn [String.length]. rewrite IH. reflexivity.
Qed.

Lemma no_space_app (a b : string) :
  no_space (a +:+ b) = no_space a && no_space b.
Proof.
  induction a as [|c a IH]; [reflexivity|].
  rewrite str_app_cons. cbn [no_space]. rewrite IH, andb_assoc. reflexivity.
Qed.

Lemma str_eqb_empty (s : string) : String.eqb s "" = true <-> s = "".
Proof. apply String.eqb_eq. Qed.

Lemma str_app_empty (a b : string) : a +:+ b = "" -> a = "" /\ b = "".
Proof. destruct a; [intros H; split; [reflexivity | exact H] | discriminate]. Qed.

(** The words returned by the scanning loop are words. *)
Lemma split_from_words (s : string) :
  forall cur, no_space cur = true -> Forall is_word (PyStr.split_from cur s).
Proof.
  induction s as [|c s IH]; intros cur Hcur; cbn [PyStr.split_from].
  - destruct (String.eqb cur "") eqn:E; [constructor|].
    constructor; [|constructor]. split; [|exact Hcur].
    intros ->. discriminate E.
  - destruct (PyStr.isspace c) eqn:Hc.
    + destruct (String.eqb cur "") eqn:E; [apply IH; reflexivity|].
      constructor; [|apply IH; reflexivity]. split; [|exact Hcur].
      intros ->. discriminate E.
    + apply IH. rewrite no_space_app, Hcur. cbn [no_space]. rewrite Hc. reflexivity.
Qed.

Lemma split_words (s : string) : Forall is_word (PyStr.split s).
Proof. apply split_from_words. reflexivity. Qed.

(** Reading a run of non-space characters extends the current word. *)
Lemma split_from_run (u : string) :
  no_space u = true ->
  forall cur rest, PyStr.split_from cur (u +:+ rest) = PyStr.split_from (cur +:+ u) rest.
Proof.
  induction u as [|c u IH]; intros Hu cur rest.
  - rewrite str_app_nil_l, str_app_nil_r. reflexivity.
  - cbn [no_space] in Hu. apply andb_true_iff in Hu as [Hc Hu].
    apply negb_true_iff in Hc.
    rewrite str_app_cons. cbn [PyStr.split_from]. rewrite Hc.
    rewrite (IH Hu). f_equal. rewrite str_app_assoc. reflexivity.
Qed.

(** Splitting a space-joined list of words gives the words back. *)
Lemma split_join (ws : list string) :
  Forall is_word ws -> PyStr.split (PyStr.join " " ws) = ws.
Proof.
  unfold PyStr.split. induction ws as [|w ws IH]; intros Hws; [reflexivity|].
  apply Forall_cons in Hws as [[Hne Hw] Hws].
  assert (Hneb : String.eqb w "" = false).
  { destruct (String.eqb w "") eqn:E; [|reflexivity]. apply String.eqb_eq in E. contradiction. }
  destruct ws as [|w' ws].
  - cbn [PyStr.join].
    rewrite <- (str_app_nil_r w) at 1.
    rewrite (split_from_run w Hw), str_app_nil_l. cbn [PyStr.split_from].
    rewrite Hneb. reflexivity.
  - change (PyStr.join " " (w :: w' :: ws))
      with (w +:+ String " "%char (PyStr.join " " (w' :: ws))).
    rewrite (split_from_run w Hw), str_app_nil_l. cbn [PyStr.split_from PyStr.isspace].
    change (PyStr.isspace " ") with true. cbn match. rewrite Hneb.
    f_equal. apply IH. exact Hws.
Qed.

(** ** ChunkingService._basic_text_split *)

Section BasicSplit.
Import ChunkingService.

Lemma join_word (ws : list string) :
  Forall is_word ws -> ws <> [] -> PyStr.join " " ws <> "".
Proof.
  intros Hws Hne. destruct ws as [|w ws]; [contradiction|].
  apply Forall_cons in Hws as [[Hw _] _].
  destruct ws as [|w' ws]; cbn [PyStr.join]; [exact Hw|].
  intros H. apply str_app_empty in H as [H _]. contradiction.
Qed.

Lemma join_snoc_length (ws : list string) (w : string) :
  ws <> [] ->
  len (PyStr.join " " (ws ++ [w])) = (len (PyStr.join " " ws) + 1 + len w)%Z.
Proof.
  unfold len. induction ws as [|a ws IH]; intros Hne; [contradiction|].
  destruct ws as [|b ws].
  - cbn [app PyStr.join]. rewrite !str_length_app. cbn [String.length]. lia.
  - change (PyStr.join " " ((a :: b :: ws) ++ [w]))
      with (a +:+ " " +:+ PyStr.join " " ((b :: ws) ++ [w])).
    change (PyStr.join " " (a :: b :: ws)) with (a +:+ " " +:+ PyStr.join " " (b :: ws)).
    rewrite !str_length_app.
    specialize (IH ltac:(discriminate)). lia.
Qed.

(** The loop loses no word: the words of the chunks are the words already
    emitted, then the pending ones, then the words still to read. *)
Lemma basic_loop_words (size : Z) (words : list string) :
  forall current cl chunks,
    Forall is_word words -> Forall is_word current ->
    concat (map PyStr.split (basic_loop size words current cl chunks))
    = concat (map PyStr.split chunks) ++ current ++ words.
Proof.
  induction words as [|w words IH]; intros current cl chunks Hwords Hcur;
    cbn [basic_loop].
  - rewrite app_nil_r. destruct current as [|c current].
    + rewrite app_nil_r. reflexivity.
    + rewrite map_app, concat_app. cbn [map concat].
      rewrite split_join by exact Hcur. rewrite app_nil_r. reflexivity.
  - apply Forall_cons in Hwords as [Hw Hwords].
    destruct ((size <? cl + len w + 1)%Z && negb (bool_decide (current = []))).
    + rewrite IH; [|exact Hwords | constructor; [exact Hw | constructor]].
      rewrite map_app, concat_app. cbn [map concat].
      rewrite split_join by exact Hcur. rewrite app_nil_r, <- app_assoc. reflexivity.
    + rewrite IH; [|exact Hwords | apply Forall_app; split;
                                     [exact Hcur | constructor; [exact Hw | constructor]]].
      rewrite <- !app_assoc. reflexivity.
Qed.

(** X1. The fallback splitter keeps every word of the text, once and in
    order: splitting its chunks again and concatenating gives the words of
    the text. *)
Theorem basic_text_split_keeps_words (self : t) (txt : string) :
  concat (map PyStr.split (_basic_text_split self txt)) = PyStr.split txt.
Proof.
  unfold _basic_text_split.
  rewrite basic_loop_words; [reflexivity | apply split_words | constructor].
Qed.

Lemma join_fits (size : Z) (current : list string) (cl : Z) :
  Forall is_word current -> current <> [] ->
  pending_fits size current cl ->
  PyStr.join " " current <> "" /\ fits_or_single size (PyStr.join " " current).
Proof.
  intros Hcur Hne (Hlen & Hsize & _). split; [apply join_word; assumption|].
  unfold fits_or_single. rewrite split_join by exact Hcur.
  destruct current as [|a [|b rest]]; [contradiction | left; cbn; lia |].
  right. specialize (Hlen Hne). specialize (Hsize ltac:(cbn; lia)). lia.
Qed.

Lemma basic_loop_fits (size : Z) (words : list string) :
  forall current cl chunks,
    Forall is_word words -> Forall is_word current ->
    pending_fits size current cl ->
    Forall (fun c => c <> "" /\ fits_or_single size c) chunks ->
    Forall (fun c => c <> "" /\ fits_or_single size c)
           (basic_loop size words current cl chunks).
Proof.
  induction words as [|w words IH]; intros current cl chunks Hwords Hcur Hpend Hchunks;
    cbn [basic_loop].
  - destruct current as [|c current]; [exact Hchunks|].
    apply Forall_app. split; [exact Hchunks|].
    constructor; [|constructor].
    apply (join_fits size _ cl); [exact Hcur | discriminate | exact Hpend].
  - apply Forall_cons in Hwords as [Hw Hwords].
    assert (Hsingle : forall n, (0 <= n)%Z -> (len w <= n + len w + 1)%Z ->
                                pending_fits size [w] (len w)
                                /\ pending_fits size ([] ++ [w]) (n + len w + 1)).
    { intros n Hn _. unfold pending_fits, len. cbn [app PyStr.join length].
      repeat split; intros; lia. }
    destruct (Z.ltb_spec size (cl + len w + 1)) as [Hover|Hfit];
      destruct (bool_decide_reflect (current = [])) as [Hempty|Hne]; cbn [andb negb].
    + subst current. destruct Hpend as (_ & _ & Hcl).
      apply IH; [exact Hwords | constructor; [exact Hw|constructor] | | exact Hchunks].
      apply (Hsingle cl Hcl). unfold len. lia.
    + apply IH; [exact Hwords | constructor; [exact Hw|constructor] | |].
      * apply (Hsingle 0%Z); unfold len; lia.
      * apply Forall_app. split; [exact Hchunks|].
        constructor; [|constructor]. apply (join_fits size _ cl); assumption.
    + subst current. destruct Hpend as (_ & _ & Hcl).
      apply IH; [exact Hwords | constructor; [exact Hw|constructor] | | exact Hchunks].
      apply (Hsingle cl Hcl). unfold len. lia.
    + apply IH; [exact Hwords | | | exact Hchunks].
      * apply Forall_app. split; [exact Hcur | constructor; [exact Hw|constructor]].
      * destruct Hpend as (Hlen & _ & Hcl). specialize (Hlen Hne).
        unfold pending_fits. rewrite join_snoc_length by exact Hne.
        unfold len in *. repeat split; intros; lia.
Qed.

(** X2. Every chunk of the fallback splitter is non-empty, and is at most
    [chunk_size] characters long unless it consists of a single word. *)
Theorem basic_text_split_sizes (self : t) (txt : string) :
  Forall (fun c => c <> "" /\ fits_or_single (chunk_size self) c)
         (_basic_text_split self txt).
Proof.
  unfold _basic_text_split. apply basic_loop_fits.
  - apply split_words.
  - constructor.
  - repeat split; [intros H; contradiction | cbn; lia | lia].
  - constructor.
Qed.

End BasicSplit.

(** ** Page markers: rendering and reading back a page number *)

Lemma digit_char_digit (d : nat) :
  d < 10 ->
  PyStr.isdigit (PyStr.digit_char d) = true
  /\ nat_of_ascii (PyStr.digit_char d) - 48 = d.
Proof.
  intros Hd. do 10 (destruct d as [|d]; [split; reflexivity|]). lia.
Qed.

(** The decimal rendering is a run of digits whose value is the number. *)
Lemma str_nat_fuel_digits (fuel : nat) :
  forall n acc,
    n < fuel ->
    exists pre,
      pre <> []
      /\ PyStr.span_digits (PyStr.str_nat_fuel fuel n acc)
         = (pre ++ fst (PyStr.span_digits acc), snd (PyStr.span_digits acc))
      /\ forall v, fold_left (fun acc d => (10 * acc + Z.of_nat d)%Z) pre v
                   = (v * 10 ^ Z.of_nat (length pre) + Z.of_nat n)%Z.
Proof.
  induction fuel as [|fuel IH]; intros n acc Hn; [lia|].
  cbn [PyStr.str_nat_fuel].
  pose proof (Nat.mod_upper_bound n 10 ltac:(lia)) as Hmod.
  destruct (digit_char_digit (n mod 10) Hmod) as [Hdig Hval].
  assert (Hspan : PyStr.span_digits (String (PyStr.digit_char (n mod 10)) acc)
                  = (n mod 10 :: fst (PyStr.span_digits acc), snd (PyStr.span_digits acc))).
  { cbn [PyStr.span_digits]. rewrite Hdig, Hval.
    destruct (PyStr.span_digits acc). reflexivity. }
  destruct (Nat.ltb_spec n 10) as [Hsmall|Hbig].
  - exists [n mod 10]. split; [discriminate|]. split; [exact Hspan|].
    intros v. cbn [fold_left length]. rewrite Nat.mod_small by exact Hsmall. lia.
  - destruct (IH (n / 10) (String (PyStr.digit_char (n mod 10)) acc)) as (pre & Hne & Hpre & Hfold).
    { pose proof (Nat.div_lt n 10 ltac:(lia) ltac:(lia)). lia. }
    exists (pre ++ [n mod 10]). split; [destruct pre; discriminate|]. split.
    + rewrite Hpre, Hspan. cbn [fst snd]. rewrite <- app_assoc. reflexivity.
    + intros v. rewrite fold_left_app. cbn [fold_left]. rewrite Hfold.
      rewrite length_app. cbn [length].
      rewrite Nat2Z.inj_add, Z.pow_add_r by lia.
      pose proof (Nat.div_mod_eq n 10) as Hdm.
      apply (f_equal Z.of_nat) in Hdm.
      rewrite Nat2Z.inj_add, Nat2Z.inj_mul in Hdm. change (Z.of_nat 1) with 1%Z.
      change (Z.of_nat 10) with 10%Z in Hdm. lia.
Qed.

Lemma span_digits_tail (s tail : string) (ds : list nat) :
  PyStr.span_digits s = (ds, "") ->
  fst (PyStr.span_digits tail) = [] ->
  PyStr.span_digits (s +:+ tail) = (ds, tail).
Proof.
  revert ds. induction s as [|c s IH]; intros ds Hs Htail.
  - cbn in Hs. injection Hs as <-. rewrite str_app_nil_l.
    destruct tail as [|t tail]; [reflexivity|].
    cbn [PyStr.span_digits] in *.
    destruct (PyStr.isdigit t); [|reflexivity].
    destruct (PyStr.span_digits tail). discriminate Htail.
  - rewrite str_app_cons. cbn [PyStr.span_digits] in *.
    destruct (PyStr.isdigit c); [|discriminate Hs].
    destruct (PyStr.span_digits s) as [ds' r'] eqn:E.
    injection Hs as <- ->. rewrite (IH ds' eq_refl Htail). reflexivity.
Qed.

Lemma str_nat_then (n : nat) (tail : string) :
  fst (PyStr.span_digits tail) = [] ->
  exists ds,
    ds <> [] /\ PyStr.span_digits (PyStr.str_nat n +:+ tail) = (ds, tail)
    /\ PyStr.int_of_digits ds = Z.of_nat n.
Proof.
  intros Htail. unfold PyStr.str_nat.
  destruct (str_nat_fuel_digits (S n) n "" ltac:(lia)) as (pre & Hne & Hspan & Hfold).
  cbn [PyStr.span_digits fst snd] in Hspan. rewrite app_nil_r in Hspan.
  exists pre. split; [exact Hne|]. split; [apply span_digits_tail; assumption|].
  unfold PyStr.int_of_digits. rewrite Hfold. lia.
Qed.

Lemma drop_app_length (a b : string) : PyStr.drop (String.length a) (a +:+ b) = b.
Proof.
  induction a as [|c a IH]; [reflexivity|].
  rewrite str_app_cons. cbn [String.length PyStr.drop]. exact IH.
Qed.

Section PageNumbers.
Import ChunkingService.

Lemma page_marker_read (n : nat) (rest : string) :
  page_marker_here ("--- Page " +:+ PyStr.str_nat n +:+ " ---" +:+ rest)
  = Some (Z.of_nat n).
Proof.
  unfold page_marker_here. rewrite startswith_app.
  change 9 with (String.length "--- Page "). rewrite drop_app_length.
  destruct (str_nat_then n (" ---" +:+ rest) eq_refl) as (ds & Hne & Hspan & Hval).
  rewrite Hspan. destruct ds as [|d ds]; [contradiction|].
  rewrite startswith_app, Hval. reflexivity.
Qed.

Lemma no_marker_without_prefix (chunk : string) :
  PyStr.contains "--- Page " chunk = false -> search_page_marker chunk = None.
Proof.
  induction chunk as [|c chunk IH]; intros Hno.
  - reflexivity.
  - cbn [PyStr.contains] in Hno. apply orb_false_iff in Hno as [Hhead Hrest].
    cbn [search_page_marker]. unfold page_marker_here. rewrite Hhead.
    apply IH. exact Hrest.
Qed.

(** X3. Page numbers survive the round trip through the text: a chunk that
    begins with the marker of page [n] is given page number [n]; the text
    produced for a document with at least one page is given page number 1;
    a chunk in which the string "--- Page " does not occur is given 0. *)
Theorem page_number_round_trip :
  (forall n rest,
      _extract_page_number ("--- Page " +:+ PyStr.str_nat n +:+ " ---" +:+ rest)
      = Z.of_nat n)
  /\ (forall page_text page_texts,
         _extract_page_number (PDFExtractor._extract_text (page_text :: page_texts)) = 1%Z)
  /\ (forall chunk,
         PyStr.contains "--- Page " chunk = false -> _extract_page_number chunk = 0%Z).
Proof.
  assert (Hhead : forall n rest,
             _extract_page_number ("--- Page " +:+ PyStr.str_nat n +:+ " ---" +:+ rest)
             = Z.of_nat n).
  { intros n rest. unfold _extract_page_number.
    destruct ("--- Page " +:+ PyStr.str_nat n +:+ " ---" +:+ rest) eqn:E;
      cbn [search_page_marker]; rewrite <- E, page_marker_read; reflexivity. }
  split; [exact Hhead|]. split.
  - intros page_text page_texts.
    unfold PDFExtractor._extract_text. cbn [imap].
    destruct (imap (PDFExtractor.page_block ∘ S) page_texts) as [|b bs];
      cbn [PyStr.join]; unfold PDFExtractor.page_block at 1;
      rewrite ?str_app_assoc; apply (Hhead (0 + 1)).
  - intros chunk Hno. unfold _extract_page_number.
    rewrite no_marker_without_prefix by exact Hno. reflexivity.
Qed.

(** A chunk of running text carries no marker. *)
Lemma page_number_round_trip_witness :
  _extract_page_number "Revenue grew by 12 percent -- see Page 4." = 0%Z.
Proof.
  apply (proj2 (proj2 page_number_round_trip)). reflexivity.
Defined.

End PageNumbers.

(** ** ContentChunker: where image analyses are inserted *)

Lemma startswith_split (n h : string) :
  PyStr.startswith n h = true -> exists post, h = n +:+ post.
Proof.
  revert h. induction n as [|a n IH]; intros h H.
  - exists h. reflexivity.
  - destruct h as [|b h]; [discriminate|].
    cbn [PyStr.startswith] in H. apply andb_true_iff in H as [Hab H].
    apply Ascii.eqb_eq in Hab. subst b.
    destruct (IH h H) as [post ->]. exists post. reflexivity.
Qed.

Lemma span_digits_length (s : string) :
  String.length s
  = length (fst (PyStr.span_digits s)) + String.length (snd (PyStr.span_digits s)).
Proof.
  induction s as [|c s IH]; [reflexivity|].
  cbn [PyStr.span_digits]. destruct (PyStr.isdigit c); [|reflexivity].
  destruct (PyStr.span_digits s) as [ds r]. cbn [fst snd length String.length] in *. lia.
Qed.

Lemma take_drop (k : nat) (s : string) : PyStr.take k s +:+ PyStr.drop k s = s.
Proof.
  revert s. induction k as [|k IH]; intros s; [reflexivity|].
  destruct s as [|c s]; [reflexivity|].
  cbn [PyStr.take PyStr.drop]. rewrite str_app_cons, IH. reflexivity.
Qed.

Section Integration.
Import ContentChunker.

(** A match lies within the string it is found at the head of. *)
Lemma marker_here_length (s : string) (n : nat) :
  marker_here s = Some n -> 1 <= n <= String.length s.
Proof.
  unfold marker_here.
  destruct (PyStr.startswith "--- Page " s) eqn:Hpre; [|discriminate].
  apply startswith_split in Hpre as [post ->].
  change 9 with (String.length "--- Page "). rewrite drop_app_length.
  pose proof (span_digits_length post) as Hlen.
  destruct (PyStr.span_digits post) as [ds r]. cbn [fst snd] in Hlen.
  destruct ds as [|d ds]; [discriminate|].
  destruct (PyStr.startswith " ---" r) eqn:Hsuf; [|discriminate].
  apply startswith_split in Hsuf as [post' ->].
  intros [= <-]. rewrite str_length_app, Hlen, str_length_app.
  cbn [String.length length]. lia.
Qed.

Lemma marker_ends_in_range (s : string) :
  forall pos skip,
    Forall (fun e => pos < e <= pos + String.length s) (marker_ends_from pos skip s).
Proof.
  induction s as [|c s IH]; intros pos skip; cbn [marker_ends_from]; [constructor|].
  assert (Hrest : forall k, Forall (fun e => pos < e <= pos + String.length (String c s))
                                   (marker_ends_from (S pos) k s)).
  { intros k. eapply Forall_impl; [apply IH|].
    intros e He. cbn [String.length]. cbn beta in He. lia. }
  destruct skip as [|k]; [|apply Hrest].
  destruct (marker_here (String c s)) as [n|] eqn:Hm; [|apply Hrest].
  constructor; [|apply Hrest].
  apply marker_here_length in Hm. lia.
Qed.

Lemma py_index_in {A} (l : list A) (i : Z) (x : A) :
  py_index l i = Some x -> In x l.
Proof.
  unfold py_index. intros H. apply list_elem_of_In.
  destruct (0 <=? i)%Z; [eapply list_elem_of_lookup_2; exact H|].
  destruct (- Z.of_nat (length l) <=? i)%Z; [|discriminate].
  eapply list_elem_of_lookup_2; exact H.
Qed.

Lemma lookup_last (l : list nat) :
  l <> [] -> l !! (length l - 1) = Some (List.last l 0).
Proof.
  induction l as [|x l IH]; intros Hne; [contradiction|].
  destruct l as [|y l]; [reflexivity|].
  specialize (IH ltac:(discriminate)).
  replace (length (x :: y :: l) - 1) with (S (length (y :: l) - 1)) by (cbn; lia).
  exact IH.
Qed.

(** X4. The insertion point computed for an image analysis always lies
    within the text, whatever the page number: between 0 and the length of
    the text. *)
Theorem insertion_point_in_text (text_content : string) (page_number : Z) :
  (0 <= _find_image_insertion_point text_content page_number <= len text_content)%Z.
Proof.
  unfold _find_image_insertion_point, len.
  destruct (negb (bool_decide (page_marker_ends text_content = []))
            && (page_number <=? Z.of_nat (length (page_marker_ends text_content)))%Z).
  - destruct (py_index (page_marker_ends text_content) (page_number - 1)) as [e|] eqn:Hidx.
    + apply py_index_in in Hidx.
      pose proof (marker_ends_in_range text_content 0 0) as Hrange.
      rewrite List.Forall_forall in Hrange. specialize (Hrange e Hidx). lia.
    + pose proof (Z.div_pos (Z.of_nat (String.length text_content)) 2).
      pose proof (Z.div_le_upper_bound (Z.of_nat (String.length text_content)) 2
                    (Z.of_nat (String.length text_content))). lia.
  - pose proof (Z.div_pos (Z.of_nat (String.length text_content)) 3).
    pose proof (Z.div_le_upper_bound (Z.of_nat (String.length text_content)) 3
                  (Z.of_nat (String.length text_content))). lia.
Qed.

(** X5. In a text with page markers, page number 0 (the default of a
    missing key) selects the end of the last marker, as an index of -1
    does; page numbers from 1 to the number of markers select the end of
    that marker; a page number so far below zero that the index falls off
    the list selects the middle of the text; a page number above the number
    of markers selects the first third. *)
Theorem insertion_point_by_page (text_content : string) :
  page_marker_ends text_content <> [] ->
  _find_image_insertion_point text_content 0
  = Z.of_nat (List.last (page_marker_ends text_content) 0)
  /\ (forall k e,
         page_marker_ends text_content !! k = Some e ->
         _find_image_insertion_point text_content (Z.of_nat k + 1) = Z.of_nat e)
  /\ (forall page_number,
         (page_number < 1 - Z.of_nat (length (page_marker_ends text_content)))%Z ->
         _find_image_insertion_point text_content page_number = (len text_content / 2)%Z)
  /\ (forall page_number,
         (Z.of_nat (length (page_marker_ends text_content)) < page_number)%Z ->
         _find_image_insertion_point text_content page_number = (len text_content / 3)%Z).
Proof.
  intros Hne. unfold _find_image_insertion_point.
  rewrite (bool_decide_eq_false_2 _ Hne). cbn [negb andb].
  set (ms := page_marker_ends text_content) in *.
  assert (Hlen : 0 < length ms) by (destruct ms; [contradiction | cbn; lia]).
  split; [|split; [|split]].
  - destruct (Z.leb_spec 0 (Z.of_nat (length ms))) as [_|]; [|lia].
    unfold py_index. change (0 - 1)%Z with (-1)%Z.
    change (0 <=? -1)%Z with false. cbn match.
    destruct (Z.leb_spec (- Z.of_nat (length ms)) (-1)) as [_|]; [|lia].
    replace (Z.to_nat (Z.of_nat (length ms) + -1)) with (length ms - 1) by lia.
    rewrite (lookup_last ms Hne). reflexivity.
  - intros k e Hk. pose proof (lookup_lt_Some _ _ _ Hk) as Hlt.
    destruct (Z.leb_spec (Z.of_nat k + 1) (Z.of_nat (length ms))) as [_|]; [|lia].
    unfold py_index. destruct (Z.leb_spec 0 (Z.of_nat k + 1 - 1)) as [_|]; [|lia].
    replace (Z.to_nat (Z.of_nat k + 1 - 1)) with k by lia. rewrite Hk. reflexivity.
  - intros pn Hpn.
    destruct (Z.leb_spec pn (Z.of_nat (length ms))) as [_|]; [|lia].
    unfold py_index. destruct (Z.leb_spec 0 (pn - 1)) as [|_]; [lia|].
    destruct (Z.leb_spec (- Z.of_nat (length ms)) (pn - 1)) as [|_]; [lia|]. reflexivity.
  - intros pn Hpn.
    destruct (Z.leb_spec pn (Z.of_nat (length ms))) as [|_]; [lia|]. reflexivity.
Qed.

(** On the text with two markers, page 0 goes after the second marker. *)
Lemma insertion_point_by_page_witness :
  _find_image_insertion_point two_page_text 0 = 40%Z.
Proof.
  rewrite (proj1 (insertion_point_by_page two_page_text ltac:(vm_compute; discriminate))).
  vm_compute. reflexivity.
Defined.

Lemma integrate_one_length (enhanced : string) (a : Analysis) :
  String.length (integrate_one enhanced a)
  = String.length enhanced
    + (if integrable a then String.length (image_summary a) else 0).
Proof.
  unfold integrate_one. destruct (integrable a); [|lia].
  destruct (0 <=? _find_image_insertion_point enhanced (page_number a))%Z.
  - set (k := Z.to_nat (_find_image_insertion_point enhanced (page_number a))).
    rewrite !str_length_app.
    rewrite <- (take_drop k enhanced) at 3. rewrite str_length_app. lia.
  - rewrite str_length_app. reflexivity.
Qed.

(** X6. Integrating image analyses only inserts text: the enhanced content
    is longer than the text by exactly the lengths of the summaries of the
    analyses that are successful and have a non-empty description; the
    other analyses change nothing, so that dropping them beforehand gives
    the same content. *)
Theorem integrate_image_analyses_length (text_content : string)
        (image_analyses : list Analysis) :
  String.length (_integrate_image_analyses text_content image_analyses)
  = String.length text_content + summaries_length image_analyses
  /\ _integrate_image_analyses text_content image_analyses
     = _integrate_image_analyses text_content (List.filter integrable image_analyses).
Proof.
  unfold _integrate_image_analyses. split.
  - revert text_content. induction image_analyses as [|a l IH]; intros txt.
    + cbn. lia.
    + cbn [fold_left summaries_length fold_right].
      rewrite IH, integrate_one_length. unfold summaries_length. lia.
  - revert text_content. induction image_analyses as [|a l IH]; intros txt; [reflexivity|].
    cbn [fold_left List.filter]. destruct (integrable a) eqn:Ha.
    + cbn [fold_left]. apply IH.
    + rewrite <- IH. unfold integrate_one. rewrite Ha. reflexivity.
Qed.

Lemma relevant_images_none (cc : string) (l : list Analysis) :
  Forall (fun a => success a = false) l -> relevant_images cc l = [].
Proof.
  induction 1 as [|a l Ha _ IH]; [reflexivity|].
  cbn [relevant_images]. rewrite Ha. exact IH.
Qed.

Lemma integrate_none (txt : string) (l : list Analysis) :
  Forall (fun a => success a = false) l -> _integrate_image_analyses txt l = txt.
Proof.
  unfold _integrate_image_analyses. induction 1 as [|a l Ha _ IH]; [reflexivity|].
  cbn [fold_left]. unfold integrate_one at 2, integrable. rewrite Ha. exact IH.
Qed.

(** X7. The chunks of [chunk_with_image_context] are numbered 1..K; each
    carries an image context that is sorted by descending score and made of
    successful analyses only, and its [has_images] flag says whether that
    context is non-empty.  When no analysis is successful the result is
    [chunk_text] of the original text with empty contexts. *)
Theorem chunk_with_image_context_shape (self : t) (text_content : string)
        (image_analyses : list Analysis) (md : gmap string string) :
  one_based (map chunk_index
                 (chunk_with_image_context self text_content image_analyses md))
  /\ Forall (fun chunk =>
               exists ctx,
                 image_context chunk = Some ctx
                 /\ has_images chunk = Some (negb (bool_decide (ctx = [])))
                 /\ sorted_by_relevance ctx
                 /\ Forall (fun e => exists a, In a image_analyses /\ success a = true
                                               /\ ref_image_id e = image_id a
                                               /\ ref_analysis e = analysis a) ctx)
            (chunk_with_image_context self text_content image_analyses md)
  /\ (Forall (fun a => success a = false) image_analyses ->
      chunk_with_image_context self text_content image_analyses md
      = map without_images (chunk_text self text_content md)).
Proof.
  unfold chunk_with_image_context. split; [|split].
  - pose proof (chunk_text_one_based self
                  (_integrate_image_analyses text_content image_analyses) md) as H.
    unfold one_based in *. rewrite !length_map in *.
    rewrite map_map. cbn [chunk_index]. exact H.
  - apply Forall_map. apply Forall_forall. intros chunk _. cbn.
    eexists. split; [reflexivity|]. split; [reflexivity|].
    split; [apply sort_desc_sorted|].
    apply Forall_forall. intros e He. apply list_elem_of_In in He.
    apply image_context_spec in He as (a & Ha & Hs & _ & ->).
    exists a. repeat split; assumption.
  - intros Hnone. rewrite integrate_none by exact Hnone.
    apply map_ext. intros chunk. unfold _get_chunk_image_context, without_images.
    rewrite relevant_images_none by exact Hnone. reflexivity.
Qed.

(** With the single analysis failed, the text is chunked as it is. *)
Lemma chunk_with_image_context_shape_witness :
  chunk_with_image_context (mk 1000 200 (fun s => Some [s])) two_page_text
                           [mkAnalysis false "img1" "ignored" 1] ∅
  = map without_images (chunk_text (mk 1000 200 (fun s => Some [s])) two_page_text ∅).
Proof.
  apply (proj2 (proj2 (chunk_with_image_context_shape
                         (mk 1000 200 (fun s => Some [s])) two_page_text
                         [mkAnalysis false "img1" "ignored" 1] ∅))).
  repeat constructor.
Defined.

End Integration.

(** ** ContentChunker.get_chunking_summary *)

Lemma percentage_range (a b : nat) :
  a <= b -> 0 < b ->
  (0 <= Qred (true_div a b * 100))%Q /\ (Qred (true_div a b * 100) <= 100)%Q.
Proof.
  intros Hab Hb. destruct (true_div_range a b Hab Hb) as [H0 H1].
  rewrite Qred_correct. split.
  - apply Qmult_le_0_compat; [exact H0 | discriminate].
  - apply Qle_trans with (1 * 100)%Q;
      [apply Qmult_le_compat_r; [exact H1 | discriminate] | discriminate].
Qed.

Lemma true_div_between (a b lo hi : nat) :
  0 < b -> lo * b <= a -> a <= hi * b ->
  (inject_Z (Z.of_nat lo) <= true_div a b)%Q /\ (true_div a b <= inject_Z (Z.of_nat hi))%Q.
Proof.
  intros Hb Hlo Hhi. unfold true_div.
  split; rewrite Qred_correct; unfold Qle, inject_Z; cbn [Qnum Qden];
    rewrite Zpos_of_nat by exact Hb; nia.
Qed.

Lemma total_content_bounds (lo hi : nat) (chunks : list ContentChunker.Chunk) :
  Forall (fun c => lo <= String.length (ContentChunker.content c) <= hi) chunks ->
  lo * length chunks <= ContentChunker.total_content chunks
  /\ ContentChunker.total_content chunks <= hi * length chunks.
Proof.
  unfold ContentChunker.total_content.
  induction 1 as [|c chunks [Hlo Hhi] _ [IHlo IHhi]]; cbn [fold_right length]; lia.
Qed.

Lemma rounding_between (fl : Q -> Q) (lo hi : Z) (q : Q) :
  rounding fl -> (0 <= lo)%Z -> (lo <= hi)%Z -> (hi <= 2 ^ 53)%Z ->
  (inject_Z lo <= q)%Q -> (q <= inject_Z hi)%Q ->
  (inject_Z lo <= fl q)%Q /\ (fl q <= inject_Z hi)%Q.
Proof.
  intros [Hmono Hint] H0 Hle Hhi Hq1 Hq2. split.
  - rewrite <- (Hint lo) by lia. apply Hmono. exact Hq1.
  - rewrite <- (Hint hi) by lia. apply Hmono. exact Hq2.
Qed.

Lemma percentage_range_rounded (fl : Q -> Q) (a b : nat) :
  rounding fl -> a <= b -> 0 < b ->
  (0 <= fl (fl (true_div a b) * 100))%Q /\ (fl (fl (true_div a b) * 100) <= 100)%Q.
Proof.
  intros Hfl Hab Hb. destruct (true_div_range a b Hab Hb) as [H0 H1].
  destruct (rounding_between fl 0 1 (true_div a b) Hfl) as [F0 F1];
    [lia | lia | lia | exact H0 | exact H1 |].
  apply (rounding_between fl 0 100 _ Hfl); [lia | lia | lia | |].
  - apply Qmult_le_0_compat; [exact F0 | discriminate].
  - apply Qle_trans with (1 * 100)%Q;
      [apply Qmult_le_compat_r; [exact F1 | discriminate] | discriminate].
Qed.

Lemma round_1024_rounding : rounding round_1024.
Proof.
  split.
  - intros a b Hab. unfold round_1024.
    assert (H : (Qfloor (a * 1024 + (1 # 2)) <= Qfloor (b * 1024 + (1 # 2)))%Z).
    { apply Qfloor_resp_le. apply Qplus_le_compat; [|apply Qle_refl].
      apply Qmult_le_compat_r; [exact Hab | discriminate]. }
    unfold Qle. cbn [Qnum Qden]. lia.
  - intros z _. unfold round_1024.
    assert (H : Qfloor (inject_Z z * 1024 + (1 # 2)) = (z * 1024)%Z).
    { unfold Qfloor, inject_Z, Qplus, Qmult. cbn [Qnum Qden].
      change (Z.pos (1 * 1 * 2)) with 2%Z.
      symmetry. apply Z.div_unique with (r := 1%Z); lia. }
    rewrite H. unfold Qeq, inject_Z. cbn [Qnum Qden]. lia.
Qed.

(** X8. The chunking summary is consistent, whatever the rounding of its
    two quotients: it counts all chunks, the chunks with images are no more
    than the chunks, the average size lies between any two bounds that hold
    for the length of every chunk, and the percentage of chunks with images,
    a key present exactly for a non-empty list, lies between 0 and 100. *)
Theorem chunking_summary_consistent (fl : Q -> Q) (chunks : list ContentChunker.Chunk) :
  rounding fl ->
  ContentChunker.total_chunks (ContentChunker.get_chunking_summary fl chunks)
  = length chunks
  /\ ContentChunker.chunks_with_images (ContentChunker.get_chunking_summary fl chunks)
     <= length chunks
  /\ (forall lo hi,
         chunks <> [] ->
         Forall (fun c => lo <= String.length (ContentChunker.content c) <= hi) chunks ->
         (Z.of_nat hi <= 2 ^ 53)%Z ->
         (inject_Z (Z.of_nat lo)
          <= ContentChunker.average_chunk_size
               (ContentChunker.get_chunking_summary fl chunks))%Q
         /\ (ContentChunker.average_chunk_size
               (ContentChunker.get_chunking_summary fl chunks)
             <= inject_Z (Z.of_nat hi))%Q)
  /\ match ContentChunker.image_chunk_percentage
             (ContentChunker.get_chunking_summary fl chunks) with
     | Some p => chunks <> [] /\ (0 <= p)%Q /\ (p <= 100)%Q
     | None => chunks = []
     end.
Proof.
  intros Hfl.
  destruct chunks as [|c chunks].
  - cbn. split; [reflexivity|]. split; [lia|]. split; [|reflexivity].
    intros lo hi Hne. destruct (Hne eq_refl).
  - set (l := c :: chunks).
    assert (Hpos : 0 < length l) by (cbn; lia).
    assert (Hcount : ContentChunker.count_with_images l <= length l).
    { unfold ContentChunker.count_with_images. apply List.filter_length_le. }
    change (ContentChunker.get_chunking_summary fl l)
      with {| ContentChunker.total_chunks := length l;
              ContentChunker.average_chunk_size :=
                fl (true_div (ContentChunker.total_content l) (length l));
              ContentChunker.total_content_length := ContentChunker.total_content l;
              ContentChunker.chunks_with_images := ContentChunker.count_with_images l;
              ContentChunker.image_chunk_percentage :=
                Some (fl (fl (true_div (ContentChunker.count_with_images l) (length l))
                          * 100)%Q) |}.
    cbn [ContentChunker.total_chunks ContentChunker.chunks_with_images
         ContentChunker.average_chunk_size ContentChunker.total_content_length
         ContentChunker.image_chunk_percentage].
    split; [reflexivity|]. split; [exact Hcount|]. split.
    + intros lo hi _ Hall Hhi.
      destruct (total_content_bounds lo hi l Hall) as [Hlo Hup].
      destruct (true_div_between _ _ lo hi Hpos Hlo Hup) as [Q1 Q2].
      assert (Hlohi : lo <= hi).
      { apply Forall_inv in Hall. lia. }
      apply (rounding_between fl _ _ _ Hfl); [lia | lia | exact Hhi | exact Q1 | exact Q2].
    + split; [discriminate|]. apply percentage_range_rounded; assumption.
Qed.

Lemma chunking_summary_consistent_witness :
  (inject_Z 3
   <= ContentChunker.average_chunk_size
        (ContentChunker.get_chunking_summary round_1024 short_chunks))%Q
  /\ (ContentChunker.average_chunk_size
        (ContentChunker.get_chunking_summary round_1024 short_chunks)
      <= inject_Z 4)%Q.
Proof.
  apply (proj1 (proj2 (proj2 (chunking_summary_consistent round_1024 short_chunks
                                round_1024_rounding))) 3 4).
  - discriminate.
  - repeat constructor.
  - vm_compute. discriminate.
Defined.

(** ** EmbeddingService.generate_embeddings and validate_embeddings *)

Section EmbeddingMore.
Import EmbeddingService.

Lemma attach_chunks {C} (chunks : list C) (embeddings : list Vector) :
  map fst (attach chunks embeddings) = chunks.
Proof.
  revert embeddings. induction chunks as [|c chunks IH]; intros embeddings; [reflexivity|].
  destruct embeddings as [|v vs]; cbn [attach map fst]; rewrite IH; reflexivity.
Qed.

Lemma attach_none {C} (chunks : list C) :
  attach chunks [] = map (fun c => (c, None)) chunks.
Proof.
  induction chunks as [|c chunks IH]; [reflexivity|].
  cbn [attach map]. rewrite IH. reflexivity.
Qed.

Lemma attach_all {C} (chunks : list C) (embeddings : list Vector) :
  length embeddings = length chunks ->
  attach chunks embeddings = combine chunks (map Some embeddings).
Proof.
  revert embeddings. induction chunks as [|c chunks IH]; intros embeddings Hlen.
  - reflexivity.
  - destruct embeddings as [|v vs]; [discriminate|].
    cbn [attach map combine]. rewrite IH by (cbn in Hlen; lia). reflexivity.
Qed.

(** X9. [generate_embeddings] hands back the chunks it was given, all of
    them and in the same order, whatever the endpoint does; with a batch
    size of zero the batching raises, which is swallowed: no call is made
    and no chunk receives an embedding. *)
Theorem generate_embeddings_keeps_chunks {C} (content : C -> string) (self : t)
        (chunks : list C) (e : Effects) :
  map fst (fst (generate_embeddings content self chunks e)) = chunks
  /\ (batch_size self = 0 ->
      generate_embeddings content self chunks e
      = (map (fun c => (c, None)) chunks, e)).
Proof.
  unfold generate_embeddings, _generate_embeddings_batch. split.
  - destruct (batch_size self =? 0).
    + apply attach_chunks.
    + destruct (batch_loop _ _ _ _) as [embeddings e']. apply attach_chunks.
  - intros ->. cbn. rewrite attach_none. reflexivity.
Qed.

(** A service configured with batch size zero embeds nothing. *)
Lemma generate_embeddings_keeps_chunks_witness :
  generate_embeddings (fun s : string => s) (mk 3 1 0 flaky_client)
                      ["first"; "second"] no_effects
  = ([("first", None); ("second", None)], no_effects).
Proof.
  apply (proj2 (generate_embeddings_keeps_chunks (fun s : string => s)
                  (mk 3 1 0 flaky_client) ["first"; "second"] no_effects)).
  reflexivity.
Defined.

(** The run of the batcher, as far as the number of vectors goes. *)
Lemma batch_run_length (self : t) (texts : list string) (e : Effects) :
  0 < batch_size self -> 0 < max_retries self ->
  one_vector_per_text (client self) ->
  exists vectors e',
    _generate_embeddings_batch self texts e = Some (vectors, e')
    /\ length vectors = length texts.
Proof.
  intros Hsize Hretries Hcontract. unfold _generate_embeddings_batch.
  destruct (Nat.eqb_spec (batch_size self) 0) as [Hz|_]; [lia|].
  change (batch_loop self texts (range_step (length texts) (batch_size self)) e)
    with (first_batches_of self texts (batch_count (length texts) (batch_size self)) e).
  destruct (first_batches_length self texts Hcontract Hretries
              (batch_count (length texts) (batch_size self)) e) as [Hlen _].
  pose proof (batches_cover (length texts) (batch_size self) Hsize) as Hcover.
  destruct (first_batches_of self texts _ e) as [vectors e']. cbn [fst] in Hlen.
  exists vectors, e'. split; [reflexivity | lia].
Qed.

(** The run of the batcher when the endpoint is down. *)
Lemma batch_run_all_fail (self : t) (texts : list string) (e : Effects) :
  0 < batch_size self -> 0 < max_retries self ->
  (forall k b, client self k b = None) ->
  exists e',
    _generate_embeddings_batch self texts e
    = Some (repeat zero_vector (length texts), e').
Proof.
  intros Hsize Hretries Hdown. unfold _generate_embeddings_batch.
  destruct (Nat.eqb_spec (batch_size self) 0) as [Hz|_]; [lia|].
  change (batch_loop self texts (range_step (length texts) (batch_size self)) e)
    with (first_batches_of self texts (batch_count (length texts) (batch_size self)) e).
  rewrite (first_batches_all_fail self texts Hdown Hretries).
  rewrite Nat.min_l by (apply batches_cover; exact Hsize).
  eexists. reflexivity.
Qed.

(** X10. When the endpoint keeps its contract (one vector per text) and the
    batch size and attempt limit are positive, every chunk comes back with
    an embedding attached. *)
Theorem generate_embeddings_covers_chunks {C} (content : C -> string) (self : t)
        (chunks : list C) (e : Effects) :
  0 < batch_size self -> 0 < max_retries self ->
  one_vector_per_text (client self) ->
  Forall (fun c => is_Some (snd c)) (fst (generate_embeddings content self chunks e)).
Proof.
  intros Hsize Hretries Hcontract. unfold generate_embeddings.
  destruct (batch_run_length self (map content chunks) e Hsize Hretries Hcontract)
    as (vectors & e' & -> & Hlen).
  rewrite length_map in Hlen. cbn [fst].
  rewrite attach_all by exact Hlen.
  apply Forall_forall. intros [c o] Hin.
  apply list_elem_of_In, in_combine_r, in_map_iff in Hin as (v & <- & _).
  eexists. reflexivity.
Qed.

Lemma generate_embeddings_covers_chunks_witness :
  Forall (fun c => is_Some (snd c))
         (fst (generate_embeddings (fun s : string => s) (init flaky_client)
                                   ["first"; "second"] no_effects)).
Proof.
  apply generate_embeddings_covers_chunks.
  - cbn. lia.
  - cbn. lia.
  - intros k batch vs. unfold init, flaky_client. cbn [client].
    destruct (k <? 4); [discriminate|]. intros [= <-]. apply length_map.
Defined.

Lemma count_verdict_cons {C} (w : Verdict) (c : C * option Vector)
      (chunks : list (C * option Vector)) :
  count_verdict w (c :: chunks) = count_verdict w [c] + count_verdict w chunks.
Proof.
  unfold count_verdict. cbn [List.filter].
  destruct (verdict (snd c)), w; cbn [length]; lia.
Qed.

(** X11. Validation sorts every chunk into exactly one class: the numbers
    of valid, invalid, zero and wrongly dimensioned embeddings add up to the
    number of chunks; the success rate lies between 0 and 100. *)
Theorem validate_embeddings_partition {C} (chunks : list (C * option Vector)) :
  valid_embeddings (validate_embeddings chunks)
  + invalid_embeddings (validate_embeddings chunks)
  + zero_embeddings (validate_embeddings chunks)
  + dimension_mismatches (validate_embeddings chunks)
  = total_chunks (validate_embeddings chunks)
  /\ total_chunks (validate_embeddings chunks) = length chunks
  /\ (0 <= validation_success_rate (validate_embeddings chunks))%Q
  /\ (validation_success_rate (validate_embeddings chunks) <= 100)%Q.
Proof.
  cbn [validate_embeddings valid_embeddings invalid_embeddings zero_embeddings
       dimension_mismatches total_chunks validation_success_rate].
  assert (Hsum : count_verdict Valid chunks + count_verdict Invalid chunks
                 + count_verdict Zero chunks + count_verdict Mismatch chunks
                 = length chunks).
  { induction chunks as [|c chunks IH]; [reflexivity|].
    rewrite !(count_verdict_cons _ c chunks). cbn [length].
    assert (count_verdict Valid [c] + count_verdict Invalid [c]
            + count_verdict Zero [c] + count_verdict Mismatch [c] = 1).
    { unfold count_verdict. cbn [List.filter]. destruct (verdict (snd c)); reflexivity. }
    lia. }
  split; [exact Hsum|]. split; [reflexivity|].
  apply percentage_range; lia.
Qed.

Lemma zero_vector_verdict : verdict (Some zero_vector) = Zero.
Proof. vm_compute. reflexivity. Qed.

(** X12. Degraded embeddings are detectable: when every call to the
    endpoint fails (batch size and attempt limit positive), validating the
    chunks returned by [generate_embeddings] reports all of them as zero
    embeddings and none as valid, invalid or wrongly dimensioned. *)
Theorem degraded_embeddings_detected {C} (content : C -> string) (self : t)
        (chunks : list C) (e : Effects) :
  0 < batch_size self -> 0 < max_retries self ->
  (forall k b, client self k b = None) ->
  zero_embeddings (validate_embeddings (fst (generate_embeddings content self chunks e)))
  = length chunks
  /\ valid_embeddings
       (validate_embeddings (fst (generate_embeddings content self chunks e))) = 0
  /\ invalid_embeddings
       (validate_embeddings (fst (generate_embeddings content self chunks e))) = 0
  /\ dimension_mismatches
       (validate_embeddings (fst (generate_embeddings content self chunks e))) = 0.
Proof.
  intros Hsize Hretries Hdown. unfold generate_embeddings.
  destruct (batch_run_all_fail self (map content chunks) e Hsize Hretries Hdown) as [e' ->].
  rewrite length_map. cbn [fst].
  rewrite attach_all by apply repeat_length.
  assert (Hall : forall w, count_verdict w (combine chunks
                                              (map Some (repeat zero_vector (length chunks))))
                           = match w with Zero => length chunks | _ => 0 end).
  { intros w. induction chunks as [|c chunks IH]; [destruct w; reflexivity|].
    cbn [length repeat map combine]. rewrite count_verdict_cons, IH.
    unfold count_verdict at 1. cbn [List.filter snd]. rewrite zero_vector_verdict.
    destruct w; cbn [length]; lia. }
  cbn [validate_embeddings valid_embeddings invalid_embeddings zero_embeddings
       dimension_mismatches].
  rewrite !Hall. repeat split.
Qed.

Lemma degraded_embeddings_detected_witness :
  zero_embeddings
    (validate_embeddings
       (fst (generate_embeddings (fun s : string => s) (init failing_client)
                                 ["first"; "second"] no_effects))) = 2.
Proof.
  apply (degraded_embeddings_detected (fun s : string => s) (init failing_client)
           ["first"; "second"] no_effects).
  - cbn. lia.
  - cbn. lia.
  - reflexivity.
Defined.

End EmbeddingMore.

(** ** Tags and dispatch *)

Lemma contains_split (n h : string) :
  PyStr.contains n h = true -> exists pre post, h = pre +:+ n +:+ post.
Proof.
  induction h as [|c h IH]; cbn [PyStr.contains]; intros H.
  - rewrite orb_false_r in H. apply startswith_split in H as [post ->].
    exists "", post. reflexivity.
  - apply orb_true_iff in H as [H|H].
    + apply startswith_split in H as [post ->]. exists "", post. reflexivity.
    + destruct (IH H) as (pre & post & ->). exists (String c pre), post. reflexivity.
Qed.

Lemma contains_whitepaper (s : string) :
  PyStr.contains "whitepaper" s = true -> PyStr.contains "paper" s = true.
Proof.
  intros H. apply contains_split in H as (pre & post & ->).
  change "whitepaper" with ("white" +:+ "paper").
  rewrite (str_app_assoc "white"), <- (str_app_assoc pre).
  apply contains_occurrence.
Qed.

Lemma str_in_In (x : string) (l : list string) :
  CompleteIngestionPipeline.str_in x l = true <-> In x l.
Proof.
  unfold CompleteIngestionPipeline.str_in. rewrite existsb_exists. split.
  - intros (y & Hy & Heq). apply String.eqb_eq in Heq. subst y. exact Hy.
  - intros H. exists x. split; [exact H | apply String.eqb_refl].
Qed.

Section Tags.
Import CompleteIngestionPipeline.

Lemma extract_tags_members (file_path : string) :
  Forall (fun tag =>
            In tag CONTENT_TAGS
            \/ (In (PyStr.lower (path_suffix file_path)) TAGGED_EXTENSIONS
                /\ tag = "type:" +:+ PyStr.drop 1 (PyStr.lower (path_suffix file_path))))
         (_extract_tags file_path).
Proof.
  unfold _extract_tags.
  repeat apply Forall_app_2.
  - destruct (str_in _ TAGGED_EXTENSIONS) eqn:E; constructor; [|constructor].
    right. split; [apply str_in_In; exact E | reflexivity].
  - destruct (PyStr.contains "research" _);
      [constructor; [left; cbn; tauto | constructor] | constructor].
  - destruct (PyStr.contains "paper" _);
      [constructor; [left; cbn; tauto | constructor] | constructor].
  - destruct (PyStr.contains "whitepaper" _);
      [constructor; [left; cbn; tauto | constructor] | constructor].
  - destruct (PyStr.contains "report" _);
      [constructor; [left; cbn; tauto | constructor] | constructor].
Qed.

(** X13. Tags come from a fixed vocabulary: at most one type tag, built from
    one of the seven tagged extensions, followed by content tags.  A file
    tagged "whitepaper" is always tagged "paper" as well, since the stem
    that contains the one contains the other. *)
Theorem extract_tags_vocabulary (file_path : string) :
  (In "whitepaper" (_extract_tags file_path) -> In "paper" (_extract_tags file_path))
  /\ Forall (fun tag =>
               In tag CONTENT_TAGS
               \/ (In (PyStr.lower (path_suffix file_path)) TAGGED_EXTENSIONS
                   /\ tag = "type:" +:+ PyStr.drop 1 (PyStr.lower (path_suffix file_path))))
            (_extract_tags file_path)
  /\ length (_extract_tags file_path) <= 5.
Proof.
  split; [|split; [apply extract_tags_members|]].
  - unfold _extract_tags. intros H.
    pose proof (contains_whitepaper (PyStr.lower (path_stem file_path))) as Hwp.
    apply in_or_app. right. apply in_or_app. right. apply in_or_app. left.
    apply in_app_or in H as [H|H].
    { destruct (str_in _ TAGGED_EXTENSIONS); [|contradiction].
      destruct H as [H|[]]. discriminate H. }
    apply in_app_or in H as [H|H].
    { destruct (PyStr.contains "research" _); [|contradiction].
      destruct H as [H|[]]. discriminate H. }
    apply in_app_or in H as [H|H].
    { destruct (PyStr.contains "paper" _); [|contradiction].
      destruct H as [H|[]]. discriminate H. }
    apply in_app_or in H as [H|H].
    { destruct (PyStr.contains "whitepaper" _); [|contradiction].
      rewrite (Hwp eq_refl). left. reflexivity. }
    destruct (PyStr.contains "report" _); [|contradiction].
    destruct H as [H|[]]. discriminate H.
  - unfold _extract_tags. rewrite !length_app.
    destruct (str_in _ TAGGED_EXTENSIONS), (PyStr.contains "research" _),
      (PyStr.contains "paper" _), (PyStr.contains "whitepaper" _),
      (PyStr.contains "report" _); cbn [length]; lia.
Qed.

Lemma extract_tags_vocabulary_witness :
  In "paper" (_extract_tags "/docs/Acme_WhitePaper_2024.pdf").
Proof.
  apply (proj1 (extract_tags_vocabulary "/docs/Acme_WhitePaper_2024.pdf")).
  vm_compute. tauto.
Defined.

(** X14. The dispatcher supports a file exactly when it has an extractor for
    it, and every file that [_extract_tags] gives a type tag is one the
    dispatcher has an extractor for. *)
Theorem tagged_types_dispatch (file_path : string) :
  (ContentDispatcher.is_supported file_path = true
   <-> is_Some (ContentDispatcher.dispatch_extractor file_path))
  /\ ((exists tag, In tag (_extract_tags file_path) /\ PyStr.startswith "type:" tag = true) ->
      is_Some (ContentDispatcher.dispatch_extractor file_path)).
Proof.
  assert (Hsupp : forall ext,
             In ext (map fst ContentDispatcher.extractors)
             <-> is_Some (ContentDispatcher.lookup_ext ext ContentDispatcher.extractors)).
  { intros ext. unfold ContentDispatcher.extractors. cbn [map fst In ContentDispatcher.lookup_ext].
    split.
    - intros H. repeat (destruct H as [<-|H]; [cbn; eexists; reflexivity|]). contradiction.
    - intros [x Hx].
      repeat match type of Hx with
             | context [String.eqb ext ?k] =>
                 destruct (String.eqb_spec ext k) as [->|_]; [tauto|]
             end.
      discriminate Hx. }
  split.
  - unfold ContentDispatcher.is_supported, ContentDispatcher.dispatch_extractor.
    rewrite str_in_In. apply Hsupp.
  - intros (tag & Hin & Htype).
    unfold ContentDispatcher.dispatch_extractor. apply Hsupp.
    pose proof (extract_tags_members file_path) as Hall.
    rewrite List.Forall_forall in Hall.
    destruct (Hall tag Hin) as [Hcontent|[Hext _]].
    + unfold CONTENT_TAGS in Hcontent. cbn [In] in Hcontent.
      repeat (destruct Hcontent as [<-|Hcontent]; [discriminate Htype|]). contradiction.
    + unfold TAGGED_EXTENSIONS in Hext. cbn [In] in Hext.
      repeat (destruct Hext as [<-|Hext]; [cbn; tauto|]). contradiction.
Qed.

Lemma tagged_types_dispatch_witness :
  is_Some (ContentDispatcher.dispatch_extractor "/docs/Acme_WhitePaper_2024.PDF").
Proof.
  apply (proj2 (tagged_types_dispatch "/docs/Acme_WhitePaper_2024.PDF")).
  exists "type:pdf". split; [vm_compute; tauto | reflexivity].
Defined.

End Tags.

(** ** The orchestrator: what a run leaves behind *)

Section Accounting.
Import CompleteIngestionPipeline.

Lemma generate_embeddings_length {C} (content : C -> string) (svc : EmbeddingService.t)
      (chunks : list C) (e : EmbeddingService.Effects) :
  length (fst (EmbeddingService.generate_embeddings content svc chunks e)) = length chunks.
Proof.
  assert (Hattach : forall embeddings,
             length (EmbeddingService.attach chunks embeddings) = length chunks).
  { intros embeddings. rewrite <- (attach_chunks chunks embeddings) at 2.
    rewrite length_map. reflexivity. }
  unfold EmbeddingService.generate_embeddings, EmbeddingService._generate_embeddings_batch.
  destruct (EmbeddingService.batch_size svc =? 0); [apply Hattach|].
  destruct (EmbeddingService.batch_loop _ _ _ _) as [embeddings e']. apply Hattach.
Qed.

Ltac close_failed :=
  left; unfold failed_run; cbn; repeat split; eexists; reflexivity.

Lemma upload_to_storage_cases (env : Env) (file_path : string) (blob_name : PyValue)
      (m : BlobMeta) (s : State) :
  upload_to_storage env file_path blob_name m s = (false, s)
  \/ (storage_available env = true
      /\ exists name,
          upload_to_storage env file_path blob_name m s
          = (true, log (Stored name) (put_container name m s))).
Proof.
  unfold upload_to_storage.
  destruct (storage_available env); cbn [negb]; [|left; reflexivity].
  destruct blob_name as [|name|b]; cbn.
  - destruct (upload_blob env _); [right; split; [reflexivity|]; eexists; reflexivity|].
    left; reflexivity.
  - destruct (upload_blob env name); [right; split; [reflexivity|]; eexists; reflexivity|].
    left; reflexivity.
  - left; reflexivity.
Qed.

Ltac close_processed ac Hlen :=
  destruct ac; unfold processed_run; cbn; cbn [length] in Hlen;
  (split; [reflexivity|]); (split; [reflexivity|]); (split; [reflexivity|]);
  (split;
   [eexists _, _;
    (split; [|split; [rewrite <- Hlen; reflexivity|
              split; [reflexivity|split; [|reflexivity]]]]);
    cbn [length]; rewrite ?length_map; solve [lia | reflexivity]|]);
  (split; [reflexivity|]); (split; [reflexivity|]); (split; [reflexivity|]).

(** Every run ends in one of three ways. *)
Lemma run_outcome (env : Env) (file_path : string) (original_filename : PyValue)
      (force_reprocess save_outputs auto_cleanup : bool) (s : State) :
  failed_run file_path s
    (fst (process_file_with_storage_check env file_path original_filename
            force_reprocess save_outputs auto_cleanup s))
    (snd (process_file_with_storage_check env file_path original_filename
            force_reprocess save_outputs auto_cleanup s))
  \/ skipped_run env file_path force_reprocess s
       (fst (process_file_with_storage_check env file_path original_filename
               force_reprocess save_outputs auto_cleanup s))
       (snd (process_file_with_storage_check env file_path original_filename
               force_reprocess save_outputs auto_cleanup s))
  \/ processed_run env s
       (fst (process_file_with_storage_check env file_path original_filename
               force_reprocess save_outputs auto_cleanup s))
       (snd (process_file_with_storage_check env file_path original_filename
               force_reprocess save_outputs auto_cleanup s)).
Proof.
  unfold process_file_with_storage_check.
  destruct (bool_decide_reflect (is_Some (read_bytes env file_path))) as [Hlocal|Hlocal];
    cbn [negb]; [|close_failed].
  destruct (file_exists_in_storage env s file_path && negb force_reprocess) eqn:Hskip.
  { right. left. unfold skipped_run. cbn [fst snd].
    apply andb_true_iff in Hskip as [Hexists Hforce].
    apply negb_true_iff in Hforce. unfold file_exists_in_storage in Hexists.
    destruct (storage_available env); cbn [negb] in Hexists; [|discriminate].
    apply bool_decide_eq_true in Hexists. repeat split; assumption. }
  destruct (process_document env file_path save_outputs) as [msg|err|txt imgs].
  - close_failed.
  - destruct auto_cleanup; close_failed.
  - remember (ChunkingService.chunk_document (chunking_service env) txt []) as chunks
      eqn:Hchunks.
    pose proof (generate_embeddings_length ChunkingService.content (embedding_service env)
                  chunks
                  (embedding_effects
                     (log (Chunked (length chunks))
                          (log (Extracted file_path save_outputs) s)))) as Hlen.
    destruct (EmbeddingService.generate_embeddings _ _ _ _) as [embedded eff].
    cbn [fst] in Hlen.
    destruct embedded as [|c0 embedded]; [destruct auto_cleanup; close_failed|].
    unfold upload_chunks.
    destruct (upload_documents env _) eqn:Hindex; [|destruct auto_cleanup; close_failed].
    right. right.
    match goal with
    | |- context [upload_to_storage ?e ?f ?b ?m ?st] =>
        destruct (upload_to_storage_cases e f b m st) as [Hblob|(Havail & name & Hblob)];
        rewrite Hblob
    end.
    + close_processed auto_cleanup Hlen; left; split; reflexivity.
    + close_processed auto_cleanup Hlen; right;
        (split; [reflexivity|]); (split; [exact Havail|]); eexists _, _; reflexivity.
Qed.

Lemma run_accounted (env : Env) (file_path : string) (original_filename : PyValue)
      (force_reprocess save_outputs auto_cleanup : bool) (s : State) :
  accounted (snd (process_file_with_storage_check env file_path original_filename
                    force_reprocess save_outputs auto_cleanup s))
  = accounted s + 1.
Proof.
  destruct (run_outcome env file_path original_filename force_reprocess save_outputs
              auto_cleanup s) as [H|[H|H]].
  - destruct H as (_ & _ & _ & _ & _ & Hp & Hs & e & Hf).
    unfold accounted. rewrite Hp, Hs, Hf, length_app. cbn [length]. lia.
  - destruct H as (_ & Hs' & _). rewrite Hs'. unfold accounted. cbn.
    rewrite length_app. cbn [length]. lia.
  - destruct H as (_ & _ & _ & _ & Hp & Hs & Hf & _).
    unfold accounted. rewrite Hp, Hs, Hf, length_app. cbn [length]. lia.
Qed.

Lemma batch_accounted (env : Env) (file_paths : list string)
      (force_reprocess save_outputs auto_cleanup : bool) (s : State) :
  length (fst (process_batch_with_storage_check env file_paths
                 force_reprocess save_outputs auto_cleanup s))
  = length file_paths
  /\ accounted (snd (process_batch_with_storage_check env file_paths
                       force_reprocess save_outputs auto_cleanup s))
     = accounted s + length file_paths.
Proof.
  revert s. induction file_paths as [|file_path rest IH]; intros s.
  - cbn. split; [reflexivity|lia].
  - cbn [process_batch_with_storage_check].
    pose proof (run_accounted env file_path (PyBool force_reprocess) save_outputs
                  auto_cleanup true s) as Hone.
    destruct (process_file_with_storage_check _ _ _ _ _ _ s) as [result s1].
    cbn [snd] in Hone.
    specialize (IH s1).
    destruct (process_batch_with_storage_check env rest _ _ _ s1) as [results s2].
    cbn [fst snd length] in *. destruct IH as [IHlen IHacc]. split; lia.
Qed.

(** A call on a path that opens, if it exists, is the method as modelled
    above; a call that gets as far as the hash of a file that exists and
    does not open raises. *)
Lemma call_when_opens (env : Env) (opens : string -> bool) (file_path : string)
      (original_filename : PyValue) (force_reprocess save_outputs auto_cleanup : bool)
      (s : State) :
  (is_Some (read_bytes env file_path) -> opens file_path = true) ->
  call_process_file_with_storage_check env opens file_path original_filename
    force_reprocess save_outputs auto_cleanup s
  = Some (process_file_with_storage_check env file_path original_filename
            force_reprocess save_outputs auto_cleanup s).
Proof.
  intros Hopens. unfold call_process_file_with_storage_check, hash_raises.
  destruct (bool_decide_reflect (is_Some (read_bytes env file_path))) as [Hlocal|_];
    [|reflexivity].
  rewrite (Hopens Hlocal). cbn [negb]. rewrite andb_false_r. reflexivity.
Qed.

Lemma call_raises (env : Env) (opens : string -> bool) (file_path : string)
      (original_filename : PyValue) (force_reprocess save_outputs auto_cleanup : bool)
      (s : State) :
  is_Some (read_bytes env file_path) ->
  opens file_path = false ->
  file_exists_in_storage env s file_path && negb force_reprocess = false ->
  call_process_file_with_storage_check env opens file_path original_filename
    force_reprocess save_outputs auto_cleanup s
  = None.
Proof.
  intros Hlocal Hopens Hskip. unfold call_process_file_with_storage_check, hash_raises.
  rewrite (bool_decide_eq_true_2 _ Hlocal), Hskip, Hopens. reflexivity.
Qed.

Lemma batch_when_opens (env : Env) (opens : string -> bool) (file_paths : list string)
      (force_reprocess save_outputs auto_cleanup : bool) :
  (forall p, In p file_paths -> is_Some (read_bytes env p) -> opens p = true) ->
  forall s,
    call_process_batch_with_storage_check env opens file_paths
      force_reprocess save_outputs auto_cleanup s
    = (Some (fst (process_batch_with_storage_check env file_paths
                    force_reprocess save_outputs auto_cleanup s)),
       snd (process_batch_with_storage_check env file_paths
              force_reprocess save_outputs auto_cleanup s)).
Proof.
  induction file_paths as [|file_path rest IH]; intros Hopens s; [reflexivity|].
  cbn [call_process_batch_with_storage_check process_batch_with_storage_check].
  rewrite call_when_opens by (apply Hopens; left; reflexivity).
  destruct (process_file_with_storage_check _ _ _ _ _ _ s) as [result s1].
  rewrite IH by (intros p Hp; apply Hopens; right; exact Hp).
  destruct (process_batch_with_storage_check env rest _ _ _ s1) as [results s2].
  reflexivity.
Qed.

(** X15. When every path of a batch that exists on disk opens for reading,
    the batch returns one result per path and every path ends in exactly one
    of the three lists of the pipeline object: together they grow by the
    number of paths.  A first path that exists, is not skipped and does not
    open makes the hash raise outside the [try]: the batch returns no list,
    and nothing is recorded for the path, not even a failure. *)
Theorem batch_accounts_every_file (env : Env) (opens : string -> bool)
        (file_paths : list string)
        (force_reprocess save_outputs auto_cleanup : bool) (s : State) :
  ((forall p, In p file_paths -> is_Some (read_bytes env p) -> opens p = true) ->
   exists results s',
     call_process_batch_with_storage_check env opens file_paths
       force_reprocess save_outputs auto_cleanup s
     = (Some results, s')
     /\ length results = length file_paths
     /\ accounted s' = accounted s + length file_paths)
  /\ (forall file_path rest,
         file_paths = file_path :: rest ->
         is_Some (read_bytes env file_path) ->
         opens file_path = false ->
         file_exists_in_storage env s file_path && negb save_outputs = false ->
         call_process_batch_with_storage_check env opens file_paths
           force_reprocess save_outputs auto_cleanup s
         = (None, s)).
Proof.
  split.
  - intros Hopens.
    eexists _, _. split; [apply batch_when_opens; exact Hopens|].
    apply batch_accounted.
  - intros file_path rest -> Hlocal Hopens Hskip.
    cbn [call_process_batch_with_storage_check].
    rewrite call_raises by assumption. reflexivity.
Qed.

Lemma batch_accounts_every_file_witness :
  (exists results s',
      call_process_batch_with_storage_check sample_env sample_opens
        ["/data/a.txt"; "/data/missing.txt"; "/data/a.txt"] false false true initial_state
      = (Some results, s')
      /\ length results = 3
      /\ accounted s' = accounted initial_state + 3)
  /\ call_process_batch_with_storage_check locked_env sample_opens
       ["/data/locked.txt"; "/data/a.txt"] false false true initial_state
     = (None, initial_state).
Proof.
  split.
  - apply (proj1 (batch_accounts_every_file sample_env sample_opens
                    ["/data/a.txt"; "/data/missing.txt"; "/data/a.txt"]
                    false false true initial_state)).
    intros p [<-|[<-|[<-|[]]]] _; reflexivity.
  - apply (proj2 (batch_accounts_every_file locked_env sample_opens
                    ["/data/locked.txt"; "/data/a.txt"]
                    false false true initial_state)
             "/data/locked.txt" ["/data/a.txt"] eq_refl).
    + eexists. reflexivity.
    + reflexivity.
    + reflexivity.
Defined.

(** X16. A run whose result has [success] false wrote nothing: the index
    and the container are as before, no file was recorded as processed or
    skipped, and the failure was recorded once, under the path given. *)
Theorem unsuccessful_run_writes_nothing (env : Env) (file_path : string)
        (original_filename : PyValue) (force_reprocess save_outputs auto_cleanup : bool)
        (s : State) :
  res_success (fst (process_file_with_storage_check env file_path original_filename
                      force_reprocess save_outputs auto_cleanup s)) = false ->
  index (snd (process_file_with_storage_check env file_path original_filename
                force_reprocess save_outputs auto_cleanup s)) = index s
  /\ container (snd (process_file_with_storage_check env file_path original_filename
                       force_reprocess save_outputs auto_cleanup s)) = container s
  /\ processed_files (snd (process_file_with_storage_check env file_path original_filename
                             force_reprocess save_outputs auto_cleanup s))
     = processed_files s
  /\ skipped_files (snd (process_file_with_storage_check env file_path original_filename
                           force_reprocess save_outputs auto_cleanup s))
     = skipped_files s
  /\ exists error,
      failed_files (snd (process_file_with_storage_check env file_path original_filename
                           force_reprocess save_outputs auto_cleanup s))
      = failed_files s ++ [(file_path, error)].
Proof.
  intros Hfalse.
  destruct (run_outcome env file_path original_filename force_reprocess save_outputs
              auto_cleanup s) as [H|[H|H]].
  - destruct H as (_ & _ & _ & Hi & Hc & Hp & Hs & Hf). tauto.
  - destruct H as (Hr & _). rewrite Hr in Hfalse. discriminate Hfalse.
  - destruct H as (Hr & _). rewrite Hr in Hfalse. discriminate Hfalse.
Qed.

Lemma unsuccessful_run_writes_nothing_witness :
  index (snd (process_file_with_storage_check sample_env "/data/missing.txt" PyNone
                false false true after_first_run))
  = index after_first_run.
Proof.
  apply (unsuccessful_run_writes_nothing sample_env "/data/missing.txt" PyNone
           false false true after_first_run).
  reflexivity.
Defined.

(** X17. A run reports status "skipped" only when it was not forced, the
    blob store answered and a blob named after the file is in the
    container; such a run returns the skipped result and changes nothing
    but the skipped list. *)
Theorem skipped_only_when_stored (env : Env) (file_path : string)
        (original_filename : PyValue) (force_reprocess save_outputs auto_cleanup : bool)
        (s : State) :
  res_status (fst (process_file_with_storage_check env file_path original_filename
                     force_reprocess save_outputs auto_cleanup s)) = Some "skipped" ->
  force_reprocess = false
  /\ storage_available env = true
  /\ is_Some (container s !! path_name file_path)
  /\ process_file_with_storage_check env file_path original_filename
       force_reprocess save_outputs auto_cleanup s
     = (skipped_result file_path, add_skipped file_path s).
Proof.
  intros Hstatus.
  destruct (run_outcome env file_path original_filename force_reprocess save_outputs
              auto_cleanup s) as [H|[H|H]].
  - destruct H as (_ & Hnone & _). rewrite Hnone in Hstatus. discriminate Hstatus.
  - destruct H as (Hr & Hs & Hforce & Havail & Hblob).
    repeat split; try assumption.
    rewrite <- Hr, <- Hs. apply surjective_pairing.
  - destruct H as (_ & Hnone & _). rewrite Hnone in Hstatus. discriminate Hstatus.
Qed.

Lemma skipped_only_when_stored_witness :
  is_Some (container after_first_run !! path_name "/data/a.txt").
Proof.
  apply (skipped_only_when_stored sample_env "/data/a.txt" PyNone false false true
           after_first_run).
  reflexivity.
Defined.

(** X18. A run that succeeds without being skipped indexed every chunk it
    created: [chunks_uploaded] equals [chunks_created], at least one, and
    that many documents were appended to the index; the result is appended
    to the processed list with [vector_storage_success] true. *)
Theorem processed_run_indexes_every_chunk (env : Env) (file_path : string)
        (original_filename : PyValue) (force_reprocess save_outputs auto_cleanup : bool)
        (s : State) :
  res_success (fst (process_file_with_storage_check env file_path original_filename
                      force_reprocess save_outputs auto_cleanup s)) = true ->
  res_status (fst (process_file_with_storage_check env file_path original_filename
                     force_reprocess save_outputs auto_cleanup s)) = None ->
  (exists n docs,
      0 < n
      /\ chunks_created (fst (process_file_with_storage_check env file_path
                                original_filename force_reprocess save_outputs
                                auto_cleanup s)) = Some n
      /\ chunks_uploaded (fst (process_file_with_storage_check env file_path
                                 original_filename force_reprocess save_outputs
                                 auto_cleanup s)) = Some n
      /\ length docs = n
      /\ index (snd (process_file_with_storage_check env file_path original_filename
                       force_reprocess save_outputs auto_cleanup s))
         = index s ++ docs)
  /\ vector_storage_success
       (fst (process_file_with_storage_check env file_path original_filename
               force_reprocess save_outputs auto_cleanup s)) = Some true
  /\ processed_files (snd (process_file_with_storage_check env file_path original_filename
                             force_reprocess save_outputs auto_cleanup s))
     = processed_files s
       ++ [fst (process_file_with_storage_check env file_path original_filename
                  force_reprocess save_outputs auto_cleanup s)].
Proof.
  intros Htrue Hnone.
  destruct (run_outcome env file_path original_filename force_reprocess save_outputs
              auto_cleanup s) as [H|[H|H]].
  - destruct H as (Hr & _). rewrite Hr in Htrue. discriminate Htrue.
  - destruct H as (Hr & _). rewrite Hr in Hnone. discriminate Hnone.
  - destruct H as (_ & _ & Hvec & Hdocs & Hp & _). tauto.
Qed.

Lemma processed_run_indexes_every_chunk_witness :
  vector_storage_success
    (fst (process_file_with_storage_check sample_env "/data/a.txt" PyNone false false true
            initial_state)) = Some true.
Proof.
  apply (processed_run_indexes_every_chunk sample_env "/data/a.txt" PyNone false false true
           initial_state); reflexivity.
Defined.



(** X20. With the blob store unreachable the pipeline fails open: no run is
    skipped, whatever the container holds, and no run stores a blob. *)
Theorem unavailable_storage_never_skips (env : Env) (file_path : string)
        (original_filename : PyValue) (force_reprocess save_outputs auto_cleanup : bool)
        (s : State) :
  storage_available env = false ->
  res_status (fst (process_file_with_storage_check env file_path original_filename
                     force_reprocess save_outputs auto_cleanup s)) = None
  /\ skipped_files (snd (process_file_with_storage_check env file_path original_filename
                           force_reprocess save_outputs auto_cleanup s))
     = skipped_files s
  /\ container (snd (process_file_with_storage_check env file_path original_filename
                       force_reprocess save_outputs auto_cleanup s)) = container s.
Proof.
  intros Hoff.
  destruct (run_outcome env file_path original_filename force_reprocess save_outputs
              auto_cleanup s) as [H|[H|H]].
  - destruct H as (_ & Hnone & _ & _ & Hc & _ & Hs & _). tauto.
  - destruct H as (_ & _ & _ & Havail & _). rewrite Havail in Hoff. discriminate Hoff.
  - destruct H as (_ & Hnone & _ & _ & _ & Hs & _ & Hcase).
    split; [exact Hnone|]. split; [exact Hs|].
    destruct Hcase as [[_ Hcont]|(_ & Havail & _)]; [exact Hcont|].
    rewrite Havail in Hoff. discriminate Hoff.
Qed.

Lemma unavailable_storage_never_skips_witness :
  res_status (fst (process_file_with_storage_check offline_env "/data/a.txt" PyNone
                     false false true after_first_run)) = None.
Proof.
  apply (unavailable_storage_never_skips offline_env "/data/a.txt" PyNone false false true
           after_first_run).
  reflexivity.
Defined.

(** X21. The single-file entry point honours [force_reprocess] for a file
    that exists on disk and opens for reading: the forced run is never
    skipped, whatever the container holds, and the first stage of work it
    carries out is the extraction of that file.  For a file that exists and
    does not open, the forced call raises before any extraction: the hash
    is computed outside the [try]. *)
Theorem forced_run_extracts (env : Env) (opens : string -> bool) (file_path : string)
        (original_filename : PyValue) (save_outputs auto_cleanup : bool) (s : State) :
  is_Some (read_bytes env file_path) ->
  (opens file_path = true ->
   exists r s',
     call_process_file_with_storage_check env opens file_path original_filename
       true save_outputs auto_cleanup s
     = Some (r, s')
     /\ res_status r = None
     /\ skipped_files s' = skipped_files s
     /\ exists rest, trace s' = trace s ++ Extracted file_path save_outputs :: rest)
  /\ (opens file_path = false ->
      call_process_file_with_storage_check env opens file_path original_filename
        true save_outputs auto_cleanup s
      = None).
Proof.
  intros Hlocal. split.
  - intros Hopens.
    exists (fst (process_file_with_storage_check env file_path original_filename
                   true save_outputs auto_cleanup s)),
           (snd (process_file_with_storage_check env file_path original_filename
                   true save_outputs auto_cleanup s)).
    split.
    { rewrite call_when_opens by (intros _; exact Hopens).
      f_equal. apply surjective_pairing. }
    destruct (run_outcome env file_path original_filename true save_outputs
                auto_cleanup s) as [H|[H|H]].
    + destruct H as (_ & Hnone & _ & _ & _ & _ & Hs & _).
      split; [exact Hnone|]. split; [exact Hs|].
      apply forced_single_file_extracts. exact Hlocal.
    + destruct H as (_ & _ & Hforce & _). discriminate Hforce.
    + destruct H as (_ & Hnone & _ & _ & _ & Hs & _).
      split; [exact Hnone|]. split; [exact Hs|].
      apply forced_single_file_extracts. exact Hlocal.
  - intros Hopens. apply call_raises; [exact Hlocal | exact Hopens|].
    apply andb_false_r.
Qed.

Lemma forced_run_extracts_witness :
  (exists r s',
      call_process_file_with_storage_check sample_env sample_opens "/data/a.txt" PyNone
        true false true after_first_run
      = Some (r, s')
      /\ res_status r = None
      /\ skipped_files s' = skipped_files after_first_run
      /\ exists rest,
          trace s' = trace after_first_run ++ Extracted "/data/a.txt" false :: rest)
  /\ call_process_file_with_storage_check locked_env sample_opens "/data/locked.txt"
       PyNone true false true after_first_run
     = None.
Proof.
  split.
  - apply (proj1 (forced_run_extracts sample_env sample_opens "/data/a.txt" PyNone
                    false true after_first_run (ex_intro _ _ eq_refl))).
    reflexivity.
  - apply (proj2 (forced_run_extracts locked_env sample_opens "/data/locked.txt" PyNone
                    false true after_first_run (ex_intro _ _ eq_refl))).
    reflexivity.
Defined.

(** ** Statistics *)

Lemma sum_key_app (key : Result -> option nat) (a b : list Result) :
  sum_key key (a ++ b) = sum_key key a + sum_key key b.
Proof.
  unfold sum_key. induction a as [|r a IH]; cbn; [reflexivity|].
  fold (sum_key key (a ++ b)) in *. cbn in IH. rewrite IH. lia.
Qed.

Lemma index_matches_run (env : Env) (file_path : string) (original_filename : PyValue)
      (force_reprocess save_outputs auto_cleanup : bool) (s : State) :
  index_matches s ->
  index_matches (snd (process_file_with_storage_check env file_path original_filename
                        force_reprocess save_outputs auto_cleanup s)).
Proof.
  intros [Hlen Hall].
  destruct (run_outcome env file_path original_filename force_reprocess save_outputs
              auto_cleanup s) as [H|[H|H]].
  - destruct H as (_ & _ & _ & Hi & _ & Hp & _).
    unfold index_matches. rewrite Hi, Hp. split; assumption.
  - destruct H as (_ & Hs' & _). rewrite Hs'. split; assumption.
  - destruct H as (_ & _ & Hvec & (n & docs & _ & Hc & Hu & Hdocs & Hi) & Hp & _).
    unfold index_matches. rewrite Hi, Hp, length_app, sum_key_app. split.
    + rewrite Hlen, Hdocs. cbn. rewrite Hu. cbn. lia.
    + apply Forall_app. split; [exact Hall|].
      constructor; [|constructor]. split; [exact Hvec|]. rewrite Hc, Hu. reflexivity.
Qed.

Lemma index_matches_batch (env : Env) (file_paths : list string)
      (force_reprocess save_outputs auto_cleanup : bool) (s : State) :
  index_matches s ->
  index_matches (snd (process_batch_with_storage_check env file_paths
                        force_reprocess save_outputs auto_cleanup s)).
Proof.
  revert s. induction file_paths as [|file_path rest IH]; intros s Hs; [exact Hs|].
  cbn [process_batch_with_storage_check].
  pose proof (index_matches_run env file_path (PyBool force_reprocess) save_outputs
                auto_cleanup true s Hs) as Hone.
  destruct (process_file_with_storage_check _ _ _ _ _ _ s) as [result s1].
  cbn [snd] in Hone. specialize (IH s1 Hone).
  destruct (process_batch_with_storage_check env rest _ _ _ s1) as [results s2].
  exact IH.
Qed.

Lemma sum_key_agree (results : list Result) :
  Forall (fun r => vector_storage_success r = Some true
                   /\ chunks_created r = chunks_uploaded r) results ->
  sum_key chunks_created results = sum_key chunks_uploaded results
  /\ count_key vector_storage_success results = length results.
Proof.
  unfold count_key.
  induction 1 as [|r results [Hvec Heq] _ [IHsum IHcount]]; [split; reflexivity|].
  cbn. rewrite Hvec, Heq. cbn. fold (sum_key chunks_created results).
  fold (sum_key chunks_uploaded results). rewrite IHsum, IHcount. split; reflexivity.
Qed.

(** X22. The statistics agree with the index. Starting from a state in
    which the index holds what the processed files report (the initial
    state is one), after any batch the total of chunks uploaded is the
    number of documents in the index, it equals the total of chunks created,
    and the vector storage success rate is 1 as soon as one file was
    processed. *)
Theorem statistics_match_index (env : Env) (file_paths : list string)
        (force_reprocess save_outputs auto_cleanup : bool) (s : State) :
  index_matches s ->
  total_chunks_uploaded
    (get_processing_statistics
       (snd (process_batch_with_storage_check env file_paths
               force_reprocess save_outputs auto_cleanup s)))
  = length (index (snd (process_batch_with_storage_check env file_paths
                          force_reprocess save_outputs auto_cleanup s)))
  /\ total_chunks_created
       (get_processing_statistics
          (snd (process_batch_with_storage_check env file_paths
                  force_reprocess save_outputs auto_cleanup s)))
     = total_chunks_uploaded
         (get_processing_statistics
            (snd (process_batch_with_storage_check env file_paths
                    force_reprocess save_outputs auto_cleanup s)))
  /\ (0 < total_files_processed
            (get_processing_statistics
               (snd (process_batch_with_storage_check env file_paths
                       force_reprocess save_outputs auto_cleanup s))) ->
      vector_storage_success_rate
        (get_processing_statistics
           (snd (process_batch_with_storage_check env file_paths
                   force_reprocess save_outputs auto_cleanup s)))
      = 1%Q).
Proof.
  intros Hs.
  pose proof (index_matches_batch env file_paths force_reprocess save_outputs
                auto_cleanup s Hs) as [Hlen Hall].
  destruct (sum_key_agree _ Hall) as [Hsum Hcount].
  unfold get_processing_statistics. cbn.
  split; [symmetry; exact Hlen|]. split; [exact Hsum|].
  intros Hpos. rewrite Hcount.
  rewrite Nat.max_l by lia. apply true_div_same. exact Hpos.
Qed.

Lemma statistics_match_index_witness :
  total_chunks_uploaded
    (get_processing_statistics
       (snd (process_batch_with_storage_check sample_env
               ["/data/a.txt"; "/data/missing.txt"; "/data/a.txt"]
               false false true initial_state)))
  = length (index (snd (process_batch_with_storage_check sample_env
                          ["/data/a.txt"; "/data/missing.txt"; "/data/a.txt"]
                          false false true initial_state))).
Proof.
  apply (statistics_match_index sample_env
           ["/data/a.txt"; "/data/missing.txt"; "/data/a.txt"] false false true
           initial_state).
  split; [reflexivity|constructor].
Defined.

End Accounting.

(* ====================================================================== *)
(** * Further properties of the PDF extractor                              *)
(* ====================================================================== *)

Section Partition.
Import PDFExtractor.

Lemma filter_split {A} (p q : A -> bool) (l : list A) :
  (forall x, In x l -> p x = true -> q x = true -> False) ->
  List.filter (fun x => p x || q x) l ≡ₚ List.filter p l ++ List.filter q l.
Proof.
  induction l as [|x l IH]; intros Hd; [reflexivity|].
  cbn [List.filter].
  assert (IH' := IH (fun y Hy => Hd y (or_intror Hy))).
  destruct (p x) eqn:Hp, (q x) eqn:Hq; cbn [orb].
  - exfalso. apply (Hd x); [left; reflexivity|assumption..].
  - cbn [app]. apply perm_skip. exact IH'.
  - etransitivity; [apply perm_skip; exact IH'|]. apply Permutation_middle.
  - exact IH'.
Qed.

Lemma filter_all {A} (p : A -> bool) (l : list A) :
  (forall x, In x l -> p x = true) -> List.filter p l = l.
Proof.
  induction l as [|x l IH]; intros H; [reflexivity|].
  cbn [List.filter]. rewrite (H x) by (left; reflexivity).
  f_equal. apply IH. intros y Hy. apply H. right. exact Hy.
Qed.

Lemma filter_none {A} (p : A -> bool) (l : list A) :
  (forall x, In x l -> p x = false) -> List.filter p l = [].
Proof.
  induction l as [|x l IH]; intros H; [reflexivity|].
  cbn [List.filter]. rewrite (H x) by (left; reflexivity).
  apply IH. intros y Hy. apply H. right. exact Hy.
Qed.

Lemma filter_index_single {A} (l : list (nat * A)) (i : nat) (x : A) :
  List.NoDup (map fst l) -> In (i, x) l ->
  List.filter (fun p => Nat.eqb (fst p) i) l = [(i, x)].
Proof.
  induction l as [|[j y] l IH]; intros Hnd Hin; [contradiction|].
  change (map fst ((j, y) :: l)) with (j :: map fst l) in Hnd.
  apply List.NoDup_cons_iff in Hnd as [Hj Hnd].
  cbn [List.filter fst].
  destruct Hin as [[= -> ->]|Hin].
  - rewrite Nat.eqb_refl. f_equal. apply filter_none.
    intros [k z] Hk. cbn [fst]. apply Nat.eqb_neq. intros ->.
    apply Hj. apply in_map_iff. exists (i, z). split; [reflexivity|exact Hk].
  - destruct (Nat.eqb_spec j i) as [->|_].
    + exfalso. apply Hj. apply in_map_iff. exists (i, x). split; [reflexivity|exact Hin].
    + apply IH; assumption.
Qed.

Lemma enumerate_values {A} (l : list A) : map snd (enumerate l) = l.
Proof.
  unfold enumerate. rewrite (imap_project snd (fun x => x)); [apply map_id|reflexivity].
Qed.

Lemma enumerate_functional {A} (l : list A) (i : nat) (x y : A) :
  In (i, x) (enumerate l) -> In (i, y) (enumerate l) -> x = y.
Proof.
  rewrite !enumerate_lookup. intros Hx Hy. rewrite Hx in Hy. injection Hy as ->. reflexivity.
Qed.

(** The set of indexes used after a new group has been gathered, as a test
    on the entries of the enumeration. *)
Lemma used_after_gather (drawings : list Drawing) (threshold : Q) (used : gset nat)
      (i : nat) (drawing : Drawing) (p : nat * Drawing) :
  In p (enumerate drawings) ->
  bool_decide
    (fst p ∈ list_to_set
               (map fst (List.filter (joins drawing threshold ({[i]} ∪ used))
                                     (enumerate drawings)))
             ∪ ({[i]} ∪ used))
  = bool_decide (fst p ∈ used)
    || (Nat.eqb (fst p) i || joins drawing threshold ({[i]} ∪ used) p).
Proof.
  intros Hp. apply Bool.eq_iff_eq_true.
  rewrite bool_decide_eq_true, !orb_true_iff, bool_decide_eq_true, Nat.eqb_eq.
  rewrite !elem_of_union, elem_of_singleton, elem_of_list_to_set, list_elem_of_In.
  rewrite in_map_iff.
  split.
  - intros [([j o] & Hj & Hq)|[Hi|Hu]]; [|tauto..].
    right. right. apply filter_In in Hq as [Hq Hjoin]. cbn [fst] in Hj.
    destruct p as [k d]. cbn [fst] in Hj. subst j.
    rewrite (enumerate_functional drawings k d o Hp Hq). exact Hjoin.
  - intros [Hu|[Hi|Hjoin]]; [tauto|tauto|].
    left. exists p. split; [reflexivity|]. apply filter_In. split; assumption.
Qed.

(** The outer loop keeps the groups a rearrangement of the primitives used
    so far, and ends with every primitive used. *)
Lemma group_loop_partition (drawings : list Drawing) (threshold : Q)
      (todo : list (nat * Drawing)) :
  forall (used : gset nat) (groups : list (list Drawing)),
    (forall p, In p todo -> In p (enumerate drawings)) ->
    (forall p, In p (enumerate drawings) -> fst p ∉ used -> In p todo) ->
    concat groups ≡ₚ picked drawings used ->
    Forall (fun g => g <> []) groups ->
    concat (group_loop drawings threshold todo used groups) ≡ₚ drawings
    /\ Forall (fun g => g <> []) (group_loop drawings threshold todo used groups).
Proof.
  induction todo as [|[i drawing] todo IH]; intros used groups Hsub Hrest Hperm Hne.
  - cbn [group_loop]. split; [|exact Hne].
    rewrite Hperm. unfold picked. rewrite filter_all; [rewrite enumerate_values; reflexivity|].
    intros p Hp. apply bool_decide_eq_true.
    destruct (decide (fst p ∈ used)) as [Hin|Hout]; [exact Hin|].
    destruct (Hrest p Hp Hout).
  - destruct (decide (i ∈ used)) as [Hin|Hout].
    + rewrite (proj1 (group_loop_step drawings threshold todo used groups i drawing) Hin).
      apply IH; try assumption.
      * intros p Hp. apply Hsub. right. exact Hp.
      * intros p Hp Hu. destruct (Hrest p Hp Hu) as [<-|Hp']; [|exact Hp'].
        destruct (Hu Hin).
    + rewrite (proj2 (group_loop_step drawings threshold todo used groups i drawing) Hout).
      assert (Hanchor : In (i, drawing) (enumerate drawings))
        by (apply Hsub; left; reflexivity).
      apply IH.
      * intros p Hp. apply Hsub. right. exact Hp.
      * intros p Hp Hu.
        rewrite !elem_of_union, elem_of_singleton in Hu.
        destruct (Hrest p Hp) as [<-|Hp']; [tauto| |exact Hp'].
        cbn [fst] in Hu. tauto.
      * rewrite concat_app. cbn [concat]. rewrite app_nil_r.
        unfold picked at 1.
        rewrite (List.filter_ext_in _ _ _
                   (used_after_gather drawings threshold used i drawing)).
        rewrite filter_split.
        { rewrite filter_split.
          - rewrite (filter_index_single (enumerate drawings) i drawing
                       (enumerate_NoDup drawings) Hanchor).
            rewrite !map_app. cbn [map snd app].
            apply Permutation_app; [exact Hperm|reflexivity].
          - intros p _ Hi Hjoin. apply Nat.eqb_eq in Hi.
            unfold joins in Hjoin. apply andb_true_iff in Hjoin as [Hfree _].
            apply negb_true_iff, bool_decide_eq_false in Hfree.
            apply Hfree. rewrite elem_of_union, elem_of_singleton. tauto. }
        intros p _ Hu Hnew. apply bool_decide_eq_true in Hu.
        apply orb_true_iff in Hnew as [Hi|Hjoin].
        -- apply Nat.eqb_eq in Hi. apply Hout. rewrite <- Hi. exact Hu.
        -- unfold joins in Hjoin. apply andb_true_iff in Hjoin as [Hfree _].
           apply negb_true_iff, bool_decide_eq_false in Hfree.
           apply Hfree. rewrite elem_of_union. tauto.
      * apply Forall_app. split; [exact Hne|]. constructor; [discriminate|constructor].
Qed.

(** X23. Grouping is a partition of the page's primitives: the groups put
    end to end are a rearrangement of the list of primitives (each primitive
    is in exactly one group, once), and no group is empty. *)
Theorem grouping_is_partition (drawings : list Drawing) (threshold : Q) :
  concat (_group_drawings_by_proximity drawings threshold) ≡ₚ drawings
  /\ Forall (fun g => g <> []) (_group_drawings_by_proximity drawings threshold).
Proof.
  destruct drawings as [|d l]; [split; constructor|].
  apply (group_loop_partition (d :: l) threshold (enumerate (d :: l)) ∅ []).
  - intros p Hp. exact Hp.
  - intros p Hp _. exact Hp.
  - unfold picked. rewrite filter_none; [reflexivity|].
    intros p _. apply bool_decide_eq_false. apply not_elem_of_empty.
  - constructor.
Qed.

End Partition.

(** ** The union box *)

Section UnionBox.
Import PDFExtractor.

Lemma Qltb_false (a b : Q) : Qltb a b = false <-> (b <= a)%Q.
Proof.
  unfold Qltb. rewrite negb_false_iff. apply Qle_bool_iff.
Qed.

Lemma cle_refl (a : coord) : cle a a.
Proof.
  unfold cle. destruct a; cbn; [reflexivity| |reflexivity].
  apply Qltb_false. apply Qle_refl.
Qed.

Lemma cle_trans (a b c : coord) : cle a b -> cle b c -> cle a c.
Proof.
  unfold cle. destruct a, b, c; cbn; try reflexivity; try discriminate.
  rewrite !Qltb_false. intros H1 H2. eapply Qle_trans; eassumption.
Qed.

Lemma cltb_cle (a b : coord) : cltb a b = true -> cle a b.
Proof.
  unfold cle. destruct a, b; cbn; try reflexivity; try discriminate.
  rewrite Qltb_lt, Qltb_false. apply Qlt_le_weak.
Qed.

Lemma cmin_le_l (a b : coord) : cle (cmin a b) a.
Proof.
  unfold cmin. destruct (cltb b a) eqn:H; [apply cltb_cle; exact H|apply cle_refl].
Qed.

Lemma cmin_le_r (a b : coord) : cle (cmin a b) b.
Proof.
  unfold cmin. destruct (cltb b a) eqn:H; [apply cle_refl|exact H].
Qed.

Lemma cmax_ge_l (a b : coord) : cle a (cmax a b).
Proof.
  unfold cmax. destruct (cltb a b) eqn:H; [apply cltb_cle; exact H|apply cle_refl].
Qed.

Lemma cmax_ge_r (a b : coord) : cle b (cmax a b).
Proof.
  unfold cmax. destruct (cltb a b) eqn:H; [apply cle_refl|exact H].
Qed.

Lemma box_le_refl (b : Box) : box_le b b.
Proof. repeat split; apply cle_refl. Qed.

Lemma box_le_trans (a b c : Box) : box_le a b -> box_le b c -> box_le a c.
Proof.
  intros (A0 & A1 & A2 & A3) (B0 & B1 & B2 & B3).
  repeat split; eapply cle_trans; eassumption.
Qed.

Lemma encloses_mono (b b' : Box) (r : Rect4) : encloses b r -> box_le b b' -> encloses b' r.
Proof.
  intros (A0 & A1 & A2 & A3) (B0 & B1 & B2 & B3).
  repeat split; eapply cle_trans; eassumption.
Qed.

Lemma union_step_grows (b : Box) (d : Drawing) : box_le b (union_step b d).
Proof.
  unfold union_step. destruct (get_rect d) as [r|]; [|apply box_le_refl].
  repeat split; cbn; auto using cmin_le_l, cmax_ge_l.
Qed.

Lemma union_step_encloses (b : Box) (d : Drawing) (r : Rect4) :
  get_rect d = Some r -> encloses (union_step b d) r.
Proof.
  intros Hr. unfold union_step. rewrite Hr.
  repeat split; cbn; auto using cmin_le_r, cmax_ge_r.
Qed.

Lemma union_fold_grows (l : list Drawing) :
  forall b, box_le b (fold_left union_step l b).
Proof.
  induction l as [|d l IH]; intros b; [apply box_le_refl|].
  cbn [fold_left]. eapply box_le_trans; [apply union_step_grows|apply IH].
Qed.

Lemma union_fold_encloses (l : list Drawing) (d : Drawing) (r : Rect4) :
  In d l -> get_rect d = Some r ->
  forall b, encloses (fold_left union_step l b) r.
Proof.
  induction l as [|d' l IH]; intros Hin Hr b; [contradiction|].
  cbn [fold_left]. destruct Hin as [->|Hin].
  - eapply encloses_mono; [apply union_step_encloses; exact Hr|apply union_fold_grows].
  - apply IH; assumption.
Qed.

(** X24. The union box of a group covers the rectangle of every member
    that has one (the default rectangle of a member without the key
    included): its left and top are at most the rectangle's, its right and
    bottom at least. *)
Theorem union_box_encloses (l : list Drawing) (d : Drawing) (r : Rect4) :
  In d l -> get_rect d = Some r -> encloses (_get_drawings_bbox l) r.
Proof.
  intros Hin Hr.
  destruct l as [|d0 l]; [contradiction|].
  change (_get_drawings_bbox (d0 :: l))
    with (fold_left union_step (d0 :: l) (mkBox PosInf PosInf NegInf NegInf)).
  apply (union_fold_encloses (d0 :: l) d r Hin Hr).
Qed.

Lemma union_box_encloses_witness :
  encloses (_get_drawings_bbox [prim_a; prim_keyless; prim_b]) (mkRect4 10 0 40 30).
Proof.
  apply (union_box_encloses [prim_a; prim_keyless; prim_b] prim_b (mkRect4 10 0 40 30)).
  - right. right. left. reflexivity.
  - reflexivity.
Defined.

End UnionBox.

(** ** Temporary files *)

Section TempFiles.
Import PDFExtractor.

Lemma extract_image_tracked (self : t) (page_num : nat) (filename : string)
      (img_index : nat) (outcome : Decode) :
  tracked (extract_image self page_num filename img_index outcome).
Proof.
  intros el. destruct outcome; cbn; [discriminate..|].
  intros [= <-]. reflexivity.
Qed.

Lemma extract_group_tracked (self : t) (page : Page) (page_num : nat) (filename : string)
      (elem_index : nat) (g : list Drawing) :
  tracked (extract_group self page page_num filename elem_index g).
Proof.
  intros el. unfold extract_group.
  destruct (cltb _ _ || cltb _ _); [discriminate|].
  destruct (get_pixmap page _) as [| |img]; [discriminate..|].
  destruct (data_len img <? 100)%nat; [discriminate|].
  cbn. intros [= <-]. reflexivity.
Qed.

Lemma tracked_outcomes (outcomes : list (option VisualElement * option string))
      (el : VisualElement) :
  Forall tracked outcomes ->
  In el (omap fst outcomes) -> In (path el) (omap snd outcomes).
Proof.
  intros Hall Hin.
  apply list_elem_of_In, list_elem_of_omap in Hin as (o & Ho & Hfst).
  apply list_elem_of_In, list_elem_of_omap. exists o. split; [exact Ho|].
  rewrite List.Forall_forall in Hall. apply Hall; [|exact Hfst].
  apply list_elem_of_In. exact Ho.
Qed.

Lemma Forall_imap {A B} (P : B -> Prop) (f : nat -> A -> B) (l : list A) :
  (forall i x, P (f i x)) -> Forall P (imap f l).
Proof.
  revert f. induction l as [|x l IH]; intros f H; cbn; [constructor|].
  constructor; [apply H|]. apply IH. intros i y. apply H.
Qed.

Lemma page_elements_tracked (self : t) (filename : string) (page_num : nat) (page : Page)
      (el : VisualElement) :
  In el (fst (page_elements self filename page_num page)) ->
  In (path el) (snd (page_elements self filename page_num page)).
Proof.
  unfold page_elements.
  pose proof (fun el => tracked_outcomes
                (imap (extract_image self page_num filename) (images page)) el
                (Forall_imap tracked _ _ (extract_image_tracked self page_num filename)))
    as Himg.
  fold (_extract_embedded_images self page page_num filename) in Himg.
  assert (Hdrw : forall el,
             In el (fst (_extract_drawing_elements self page page_num filename)) ->
             In (path el) (snd (_extract_drawing_elements self page page_num filename))).
  { intros el'. unfold _extract_drawing_elements.
    destruct (drawings page) as [|d l]; [intros []|]. cbn [fst snd].
    apply tracked_outcomes. apply Forall_imap. apply extract_group_tracked. }
  unfold _extract_embedded_images in *. cbn [fst snd] in Himg.
  destruct (_extract_drawing_elements self page page_num filename) as [drw f2].
  cbn [fst snd] in *. rewrite !in_app_iff.
  intros [H|H]; [left; apply Himg|right; apply Hdrw]; exact H.
Qed.

(** X25. Every element returned for a document points to a file the
    extractor has recorded among its temporary files, so that the cleanup
    reaches the file of every element.  (Files of elements dropped after
    they were written are recorded as well.) *)
Theorem returned_paths_are_recorded (self : t) (pdf_document : list Page)
        (filename : string) :
  Forall (fun el => In (path el) (snd (_extract_visual_elements self pdf_document filename)))
         (fst (_extract_visual_elements self pdf_document filename)).
Proof.
  apply List.Forall_forall. intros el.
  unfold _extract_visual_elements. cbn [fst snd].
  rewrite !in_concat. intros (els & Hels & Hel).
  apply in_map_iff in Hels as (entry & <- & Hentry).
  exists (snd entry). split; [apply in_map; exact Hentry|].
  apply list_elem_of_In, elem_of_lookup_imap in Hentry as (n & page & -> & _).
  apply page_elements_tracked. exact Hel.
Qed.

End TempFiles.
